(** * Smart motion detection system (smart_alert.py): a shallow embedding

    The script drives three fallible peripherals (GPIO lines, a camera, an
    SMTP transport) from one blocking poll loop.  Its functions are embedded
    as computations in a small monad that threads the interpreter state
    (module globals, the loop's local variable, the clock, the files on disk,
    the level of the LED line), may raise a Python exception, and emits the
    list of external calls and console messages it performs.

    The outcome of every library call is supplied by an environment: an
    oracle that is asked which call is made and how many calls were made
    before it.  Theorems quantify over the environment, so they cover every
    behaviour of the peripherals.

    Modelling conventions:
    - [time.time()] floats are rationals; the clock advances by exactly the
      requested duration at each completed [time.sleep] and library calls
      are instantaneous;
    - what a library call raises is a subclass of [Exception];
    - SIGINT and SIGTERM are handled by [signal_handler] (lines 401-402), so
      [KeyboardInterrupt] is never raised; a pending signal is handled at a
      [time.sleep] call, where the process spends its time;
    - the files on disk change only through [capture_file];
    - consecutive [print] calls (and [traceback.print_exc]) are one console
      message. *)

From Stdlib Require Import QArith ZArith List String Ascii Bool Lia Lqa.
From stdpp Require Import gmap strings.
Import ListNotations.

Local Open Scope string_scope.
Local Open Scope list_scope.

(** ** Python exceptions *)

(** Subclasses of [Exception]. *)
Inductive exc : Type :=
| SMTPAuthenticationError
| ImportError
| KeyError
| NameError
| RuntimeError
| OSError.

(** [BaseException]: what [except Exception] catches, and what it lets through. *)
Inductive exn : Type :=
| Exception (e : exc)
| KeyboardInterrupt
| SystemExit (code : Z).

Definition is_Exception (e : exn) : bool :=
  match e with Exception _ => true | _ => false end.

Definition is_KeyboardInterrupt (e : exn) : bool :=
  match e with KeyboardInterrupt => true | _ => false end.

(** A bare [except:] clause. *)
Definition any_exn (e : exn) : bool := true.

(** How a computation ends: with a value, with a pending exception, or not
    at all within the number of loop iterations it was given. *)
Inductive res (A : Type) : Type :=
| Val (a : A)
| Exn (e : exn)
| StillRunning.
Arguments Val {A} a.
Arguments Exn {A} e.
Arguments StillRunning {A}.

(** ** Configuration (module constants) *)

Definition PIR_PIN : Z := 17.
Definition LED_PIN : Z := 18.

Definition HIGH : bool := true.
Definition LOW : bool := false.

(** ** Console messages, one constructor per [print] site *)

Inductive msg : Type :=
(* load_email_config *)
| MsgEnvFileNotFound
| MsgMissingEmailConfig (missing_fields : list string)
| MsgEmailConfigLoaded
| MsgErrorLoadingEmailConfig
(* setup_gpio *)
| MsgGpioInitialized
| MsgGpioAttemptFailed (attempt : nat)
| MsgGpioInitFailed
(* setup_camera *)
| MsgCameraInitialized
| MsgPicamera2NotFound
| MsgErrorSettingUpCamera
(* capture_image *)
| MsgCameraNotInitialized
| MsgImageCaptured (filename : string)
| MsgErrorCapturingImage
(* send_email_alert *)
| MsgEmailNotConfigured
| MsgImageFileNotFound
| MsgSendingEmail
| MsgEmailSent
| MsgEmailAuthFailed
| MsgErrorSendingEmail
(* led_on, led_off *)
| MsgLedOn
| MsgErrorLedOn
| MsgLedOff
| MsgErrorLedOff
(* cleanup, signal_handler *)
| MsgShuttingDown
| MsgCameraStopped
| MsgErrorStoppingCamera
| MsgGpioCleanedUp
| MsgErrorCleaningUpGpio
| MsgReceivedInterrupt
(* main *)
| MsgBanner
| MsgGpioFailedExiting
| MsgCameraInitFailed
| MsgImagesSavedTo
| MsgErrorCreatingSaveDir
| MsgSystemReady (email_enabled : bool)
| MsgMotionDetected
| MsgSavedTo (filepath : string)
| MsgLedWillStayOn
| MsgReadyForNext
| MsgErrorInMainLoop
(* entry point *)
| MsgFatalError
| MsgSystemStopped.

(** ** Observable events: calls into the libraries and console output *)

Inductive event : Type :=
| EvPrint (m : msg)
| EvSleep (seconds : Q)
| EvSignal
| EvForceReleaseGpio
| EvGpioCleanup
| EvGpioSetmode
| EvGpioSetup (pin : Z) (output : bool)
| EvGpioOutput (pin : Z) (level : bool)
| EvGpioInput (pin : Z)
| EvImportPicamera2
| EvPicamera2New
| EvCreateStillConfiguration
| EvCameraConfigure
| EvCameraStart
| EvCameraStop
| EvCaptureFile (filepath : string)
| EvMakedirs (path : string)
| EvPathExists (path : string)
| EvOpenRead (path : string)
| EvSmtpConnect
| EvSmtpStarttls
| EvSmtpLogin
| EvSmtpSendMessage (attachment : string)
| EvSmtpQuit.

(** ** The environment *)

(** What the outside world answers to a library call. *)
Record response : Type := mkResponse {
  r_exc : option exc;     (* the call raises this exception *)
  r_bool : bool;          (* the level read by [GPIO.input] *)
  r_signal : bool         (* a SIGINT or SIGTERM is pending at this sleep *)
}.

(** A deployment: the two durations of the configuration block (the script
    sets [LED_ON_TIME = 10] and [COOLDOWN_TIME = 2]), the paths derived from
    the script's location, and the behaviour of the outside world.
    [oracle k ev] answers the call [ev] when it is the [k]-th call made. *)
Record Env : Type := mkEnv {
  LED_ON_TIME : Q;
  COOLDOWN_TIME : Q;
  SAVE_DIR : string;                 (* PROJECT_DIR/captured_images *)
  env_file : option (list string);   (* lines of config/.env, if the file exists *)
  strftime : Q -> string;            (* datetime.now().strftime("%Y%m%d_%H%M%S") *)
  oracle : nat -> event -> response
}.

(** ** Interpreter state *)

Inductive Picamera2 : Type := Picamera2Object.

Record State : Type := mkState {
  (* the world *)
  clock : Q;
  tick : nat;
  led : bool;
  files : list string;
  (* module globals; [exit_code] is unbound until the entry point assigns it *)
  picam2 : option Picamera2;
  gpio_initialized : bool;
  camera_initialized : bool;
  email_configured : bool;
  email_config : gmap string string;
  exit_code : option Z;
  (* local variable of main *)
  motion_detected_time : Q
}.

Definition set_clock (c : Q) (s : State) : State :=
  mkState c (tick s) (led s) (files s) (picam2 s) (gpio_initialized s) (camera_initialized s) (email_configured s) (email_config s) (exit_code s) (motion_detected_time s).
Definition set_tick (k : nat) (s : State) : State :=
  mkState (clock s) k (led s) (files s) (picam2 s) (gpio_initialized s) (camera_initialized s) (email_configured s) (email_config s) (exit_code s) (motion_detected_time s).
Definition set_led (l : bool) (s : State) : State :=
  mkState (clock s) (tick s) l (files s) (picam2 s) (gpio_initialized s) (camera_initialized s) (email_configured s) (email_config s) (exit_code s) (motion_detected_time s).
Definition set_files (f : list string) (s : State) : State :=
  mkState (clock s) (tick s) (led s) f (picam2 s) (gpio_initialized s) (camera_initialized s) (email_configured s) (email_config s) (exit_code s) (motion_detected_time s).
Definition set_picam2 (p : option Picamera2) (s : State) : State :=
  mkState (clock s) (tick s) (led s) (files s) p (gpio_initialized s) (camera_initialized s) (email_configured s) (email_config s) (exit_code s) (motion_detected_time s).
Definition set_gpio_initialized (b : bool) (s : State) : State :=
  mkState (clock s) (tick s) (led s) (files s) (picam2 s) b (camera_initialized s) (email_configured s) (email_config s) (exit_code s) (motion_detected_time s).
Definition set_camera_initialized (b : bool) (s : State) : State :=
  mkState (clock s) (tick s) (led s) (files s) (picam2 s) (gpio_initialized s) b (email_configured s) (email_config s) (exit_code s) (motion_detected_time s).
Definition set_email_configured (b : bool) (s : State) : State :=
  mkState (clock s) (tick s) (led s) (files s) (picam2 s) (gpio_initialized s) (camera_initialized s) b (email_config s) (exit_code s) (motion_detected_time s).
Definition set_email_config (m : gmap string string) (s : State) : State :=
  mkState (clock s) (tick s) (led s) (files s) (picam2 s) (gpio_initialized s) (camera_initialized s) (email_configured s) m (exit_code s) (motion_detected_time s).
Definition set_exit_code (c : option Z) (s : State) : State :=
  mkState (clock s) (tick s) (led s) (files s) (picam2 s) (gpio_initialized s) (camera_initialized s) (email_configured s) (email_config s) c (motion_detected_time s).
Definition set_motion_detected_time (t : Q) (s : State) : State :=
  mkState (clock s) (tick s) (led s) (files s) (picam2 s) (gpio_initialized s) (camera_initialized s) (email_configured s) (email_config s) (exit_code s) t.

(** The module globals as the interpreter initialises them (lines 40-44). *)
Definition initial_state (now : Q) (on_disk : list string) (led_level : bool) : State :=
  mkState now 0 led_level on_disk None false false false ∅ None 0.

(** ** The monad: state, exceptions, emitted events *)

Definition M (A : Type) : Type := State -> res A * State * list event.

Definition ret {A} (a : A) : M A := fun s => (Val a, s, []).

Definition bind {A B} (m : M A) (k : A -> M B) : M B :=
  fun s =>
    match m s with
    | (Val a, s1, t1) =>
        match k a s1 with (r, s2, t2) => (r, s2, t1 ++ t2) end
    | (Exn e, s1, t1) => (Exn e, s1, t1)
    | (StillRunning, s1, t1) => (StillRunning, s1, t1)
    end.

Definition raise {A} (e : exn) : M A := fun s => (Exn e, s, []).

Declare Scope py_scope.
Delimit Scope py_scope with py.
Notation "x <- m ;; k" := (bind m (fun x => k))
  (at level 100, m at next level, k at level 200, right associativity) : py_scope.
Notation "m ;; k" := (bind m (fun _ => k))
  (at level 100, k at level 200, right associativity) : py_scope.
Local Open Scope py_scope.

(** [try: body except <catches>: handler]. *)
Definition try_except {A} (body : M A) (catches : exn -> bool)
    (handler : exn -> M A) : M A :=
  fun s =>
    match body s with
    | (Exn e, s1, t1) =>
        if catches e
        then match handler e s1 with (r, s2, t2) => (r, s2, t1 ++ t2) end
        else (Exn e, s1, t1)
    | done => done
    end.

(** [try: body finally: fin]: an exception of [fin] replaces the pending one. *)
Definition try_finally {A} (body : M A) (fin : M unit) : M A :=
  fun s =>
    match body s with
    | (StillRunning, s1, t1) => (StillRunning, s1, t1)
    | (r, s1, t1) =>
        match fin s1 with
        | (Val _, s2, t2) => (r, s2, t1 ++ t2)
        | (Exn e, s2, t2) => (Exn e, s2, t1 ++ t2)
        | (StillRunning, s2, t2) => (StillRunning, s2, t1 ++ t2)
        end
    end.

Definition get {A} (f : State -> A) : M A := fun s => (Val (f s), s, []).
Definition modify (f : State -> State) : M unit := fun s => (Val tt, f s, []).
Definition emit (ev : event) : M unit := fun s => (Val tt, s, [ev]).
Definition print (m : msg) : M unit := emit (EvPrint m).

Definition result_of {A} (x : res A * State * list event) : res A := fst (fst x).
Definition state_of {A} (x : res A * State * list event) : State := snd (fst x).
Definition trace_of {A} (x : res A * State * list event) : list event := snd x.

(** ** String helpers used by the configuration parser *)

(** ASCII characters removed by [str.strip()]. *)
Definition is_space (a : ascii) : bool :=
  let n := nat_of_ascii a in
  (Nat.leb 9 n && Nat.leb n 13) || (Nat.leb 28 n && Nat.leb n 32).

Fixpoint lstrip (s : string) : string :=
  match s with
  | EmptyString => EmptyString
  | String a rest => if is_space a then lstrip rest else s
  end.

Fixpoint rstrip (s : string) : string :=
  match s with
  | EmptyString => EmptyString
  | String a rest =>
      match rstrip rest with
      | EmptyString => if is_space a then EmptyString else String a EmptyString
      | tail => String a tail
      end
  end.

Definition strip (s : string) : string := rstrip (lstrip s).

Definition startswith (s p : string) : bool := String.prefix p s.

(** [s.split(sep, 1)] when [sep] occurs in [s]; [None] when it does not. *)
Fixpoint split_once (sep : ascii) (s : string) : option (string * string) :=
  match s with
  | EmptyString => None
  | String a rest =>
      if Ascii.eqb a sep then Some (EmptyString, rest)
      else match split_once sep rest with
           | Some (k, v) => Some (String a k, v)
           | None => None
           end
  end.

(** The truth value of a path or [None] in [if filepath:]. *)
Definition truthy (p : option string) : bool :=
  match p with
  | Some s => negb (s =? "")%string
  | None => false
  end.

Definition Qgtb (x y : Q) : bool := negb (Qle_bool x y).

(** ** load_email_config: the pure part (lines 61-74) *)

(** One iteration of [for line in f]. *)
Definition parse_line (cfg : gmap string string) (line : string) : gmap string string :=
  let line := strip line in
  if (line =? "")%string || startswith line "#" then cfg
  else match split_once "="%char line with
       | Some (key, value) => <[strip key := strip value]> cfg
       | None => cfg
       end.

Definition parse_lines (lines : list string) (cfg : gmap string string)
  : gmap string string :=
  fold_left parse_line lines cfg.

Definition required_fields : list string :=
  ["SENDER_EMAIL"; "EMAIL_PASSWORD"; "RECIPIENT_EMAIL"].

(** [not email_config.get(field) or email_config.get(field).startswith('your_')] *)
Definition field_missing (cfg : gmap string string) (field : string) : bool :=
  match cfg !! field with
  | None => true
  | Some v => (v =? "")%string || startswith v "your_"
  end.

Definition missing_fields (cfg : gmap string string) : list string :=
  List.filter (field_missing cfg) required_fields.

Definition MAX_RETRIES : nat := 5.

Section Program.

Context (E : Env).

(** ** Library calls *)

(** A library call: it is recorded, and the environment decides whether it
    raises. *)
Definition call (ev : event) : M response :=
  fun s =>
    let r := oracle E (tick s) ev in
    let s' := set_tick (S (tick s)) s in
    match r_exc r with
    | Some e => (Exn (Exception e), s', [ev])
    | None => (Val r, s', [ev])
    end.

Definition GPIO_output (pin : Z) (level : bool) : M unit :=
  call (EvGpioOutput pin level) ;;
  modify (fun s => if (pin =? LED_PIN)%Z then set_led level s else s).

Definition GPIO_input (pin : Z) : M bool :=
  r <- call (EvGpioInput pin) ;; ret (r_bool r).

(** [GPIO.cleanup()] returns the channels to inputs: the LED is no longer driven. *)
Definition GPIO_cleanup : M unit :=
  call EvGpioCleanup ;; modify (set_led false).

Definition GPIO_setmode : M unit := call EvGpioSetmode ;; ret tt.

Definition GPIO_setup (pin : Z) (output : bool) : M unit :=
  call (EvGpioSetup pin output) ;; ret tt.

Definition time_time : M Q := get clock.

Definition os_makedirs (path : string) : M unit :=
  call (EvMakedirs path) ;; ret tt.

Definition os_path_exists (path : string) : M bool :=
  emit (EvPathExists path) ;;
  fs <- get files ;;
  ret (existsb (String.eqb path) fs).

Definition capture_file (filepath : string) : M unit :=
  call (EvCaptureFile filepath) ;;
  modify (fun s => set_files (filepath :: files s) s).

Definition sys_exit {A} (code : Z) : M A := raise (SystemExit code).

(** ** LED control (lines 344-360) *)

Definition led_on : M unit :=
  try_except
    (g <- get gpio_initialized ;;
     if g then GPIO_output LED_PIN HIGH ;; print MsgLedOn else ret tt)
    is_Exception
    (fun _ => print MsgErrorLedOn).

Definition led_off : M unit :=
  try_except
    (g <- get gpio_initialized ;;
     if g then GPIO_output LED_PIN LOW ;; print MsgLedOff else ret tt)
    is_Exception
    (fun _ => print MsgErrorLedOff).

(** ** cleanup (lines 365-390) *)

Definition cleanup : M unit :=
  print MsgShuttingDown ;;
  (* Turn off LED *)
  try_except
    (g <- get gpio_initialized ;;
     if g then GPIO_output LED_PIN LOW else ret tt)
    any_exn
    (fun _ => ret tt) ;;
  (* Stop camera *)
  try_except
    (c <- get camera_initialized ;;
     p <- get picam2 ;;
     if c && bool_decide (p ≠ None)
     then call EvCameraStop ;; print MsgCameraStopped
     else ret tt)
    is_Exception
    (fun _ => print MsgErrorStoppingCamera) ;;
  (* Clean up GPIO *)
  try_except
    (g <- get gpio_initialized ;;
     if g then GPIO_cleanup ;; print MsgGpioCleanedUp else ret tt)
    is_Exception
    (fun _ => print MsgErrorCleaningUpGpio).

(** ** signal_handler (lines 395-399) *)

Definition signal_handler : M unit :=
  print MsgReceivedInterrupt ;;
  cleanup ;;
  sys_exit 0.

(** [time.sleep(d)]: a pending signal runs [signal_handler] instead of
    completing the sleep. *)
Definition time_sleep (d : Q) : M unit :=
  fun s =>
    let r := oracle E (tick s) (EvSleep d) in
    let s' := set_tick (S (tick s)) s in
    if r_signal r
    then (emit (EvSleep d) ;; emit EvSignal ;; signal_handler) s'
    else (Val tt, set_clock (clock s + d)%Q s', [EvSleep d]).

(** ** load_email_config (lines 49-91) *)

Definition ENV_FILE : string := "config/.env".

Definition load_email_config : M bool :=
  try_except
    (match env_file E with
     | None => print MsgEnvFileNotFound ;; ret false
     | Some lines =>
         (* Read .env file *)
         call (EvOpenRead ENV_FILE) ;;
         modify (fun s => set_email_config (parse_lines lines (email_config s)) s) ;;
         (* Validate required fields *)
         cfg <- get email_config ;;
         match missing_fields cfg with
         | _ :: _ => print (MsgMissingEmailConfig (missing_fields cfg)) ;; ret false
         | [] =>
             modify (set_email_configured true) ;;
             print MsgEmailConfigLoaded ;;
             ret true
         end
     end)
    is_Exception
    (fun _ => print MsgErrorLoadingEmailConfig ;; ret false).

(** ** setup_gpio (lines 157-218) *)

(** The best-effort reclaim of lines 96-152: every exception is caught inside
    and the returned flag is ignored by the caller. *)
Definition force_release_gpio : M unit := emit EvForceReleaseGpio.

(** The [for attempt in range(MAX_RETRIES)] loop, [remaining] attempts left.
    The body yields [Some b] when it executes [return b].  The report on
    busy lines (lines 193-211) only prints, inside its own [try], and is
    part of the message of the failed attempt. *)
Fixpoint setup_gpio_attempts (remaining attempt : nat) : M bool :=
  match remaining with
  | O => ret false
  | S remaining' =>
      r <- try_except
             ((* Clean up any existing GPIO setup *)
              try_except GPIO_cleanup any_exn (fun _ => ret tt) ;;
              (* Small delay between retries *)
              (if Nat.ltb 0 attempt then time_sleep 1 else ret tt) ;;
              GPIO_setmode ;;
              GPIO_setup PIR_PIN false ;;
              GPIO_setup LED_PIN true ;;
              GPIO_output LED_PIN LOW ;;
              modify (set_gpio_initialized true) ;;
              print MsgGpioInitialized ;;
              ret (Some true))
             is_Exception
             (fun _ =>
                print (MsgGpioAttemptFailed (attempt + 1)) ;;
                if Nat.eqb attempt (MAX_RETRIES - 1)
                then print MsgGpioInitFailed ;; ret (Some false)
                else ret None) ;;
      match r with
      | Some b => ret b
      | None => setup_gpio_attempts remaining' (S attempt)
      end
  end.

Definition setup_gpio : M bool :=
  force_release_gpio ;;
  setup_gpio_attempts MAX_RETRIES 0.

(** ** setup_camera (lines 223-251) *)

Definition setup_camera : M bool :=
  try_except
    (call EvImportPicamera2 ;;
     call EvPicamera2New ;;
     modify (set_picam2 (Some Picamera2Object)) ;;
     call EvCreateStillConfiguration ;;
     call EvCameraConfigure ;;
     call EvCameraStart ;;
     time_sleep 2 ;;
     modify (set_camera_initialized true) ;;
     print MsgCameraInitialized ;;
     ret true)
    is_Exception
    (fun e =>
       match e with
       | Exception ImportError => print MsgPicamera2NotFound ;; ret false
       | _ => print MsgErrorSettingUpCamera ;; ret false
       end).

(** ** capture_image (lines 256-279) *)

Definition capture_image : M (option string) :=
  try_except
    (c <- get camera_initialized ;;
     p <- get picam2 ;;
     if negb c || bool_decide (p = None)
     then print MsgCameraNotInitialized ;; ret None
     else
       (* Create save directory if it doesn't exist *)
       os_makedirs (SAVE_DIR E) ;;
       (* Generate filename with timestamp *)
       now <- time_time ;;
       let filename := "motion_" +:+ strftime E now +:+ ".jpg" in
       let filepath := SAVE_DIR E +:+ "/" +:+ filename in
       (* Capture image *)
       capture_file filepath ;;
       print (MsgImageCaptured filename) ;;
       ret (Some filepath))
    is_Exception
    (fun _ => print MsgErrorCapturingImage ;; ret None).

(** ** send_email_alert (lines 284-339) *)

(** [email_config[key]] *)
Definition config_item (key : string) : M string :=
  cfg <- get email_config ;;
  match cfg !! key with
  | Some v => ret v
  | None => raise (Exception KeyError)
  end.

Definition send_email_alert (image_path : option string) : M bool :=
  try_except
    (configured <- get email_configured ;;
     if negb configured
     then print MsgEmailNotConfigured ;; ret false
     else
       found <- (match image_path with
                 | Some p => if truthy image_path then os_path_exists p else ret false
                 | None => ret false
                 end) ;;
       if negb found
       then print MsgImageFileNotFound ;; ret false
       else
         let path := default "" image_path in
         print MsgSendingEmail ;;
         (* Create message *)
         config_item "SENDER_EMAIL" ;;
         config_item "RECIPIENT_EMAIL" ;;
         (* Attach image *)
         call (EvOpenRead path) ;;
         (* Send email via Gmail SMTP *)
         call EvSmtpConnect ;;
         try_finally
           (call EvSmtpStarttls ;;
            config_item "SENDER_EMAIL" ;;
            config_item "EMAIL_PASSWORD" ;;
            call EvSmtpLogin ;;
            call (EvSmtpSendMessage path) ;;
            ret tt)
           (call EvSmtpQuit ;; ret tt) ;;
         print MsgEmailSent ;;
         ret true)
    is_Exception
    (fun e =>
       match e with
       | Exception SMTPAuthenticationError => print MsgEmailAuthFailed ;; ret false
       | _ => print MsgErrorSendingEmail ;; ret false
       end).

(** ** The monitoring loop of main (lines 443-488) *)

(** The response to an accepted trigger (lines 454-480); [current_time] was
    read at line 450. *)
Definition respond (current_time : Q) : M unit :=
  print MsgMotionDetected ;;
  (* Turn LED on *)
  led_on ;;
  (* Capture image *)
  filepath <- capture_image ;;
  (if truthy filepath then
     print (MsgSavedTo (default "" filepath)) ;;
     (* Send email with image *)
     configured <- get email_configured ;;
     if configured then send_email_alert filepath ;; ret tt else ret tt
   else ret tt) ;;
  (* Keep LED on for specified time *)
  print MsgLedWillStayOn ;;
  time_sleep (LED_ON_TIME E) ;;
  (* Turn LED off *)
  led_off ;;
  (* Update last detection time *)
  modify (set_motion_detected_time current_time) ;;
  print MsgReadyForNext.

(** The body of the inner [try] (lines 448-483). *)
Definition detection_cycle : M unit :=
  (* Check for motion *)
  active <- GPIO_input PIR_PIN ;;
  (if active then
     current_time <- time_time ;;
     last <- get motion_detected_time ;;
     (* Only trigger if cooldown period has passed *)
     if Qgtb (current_time - last) (COOLDOWN_TIME E)
     then respond current_time
     else ret tt
   else ret tt) ;;
  (* Small delay to avoid excessive CPU usage *)
  time_sleep (1 # 10).

(** One pass through [while True] (lines 447-488). *)
Definition loop_iteration : M unit :=
  try_except
    detection_cycle
    is_Exception
    (fun _ => print MsgErrorInMainLoop ;; time_sleep 1).

(** [while True]: [n] passes are run; the loop itself never ends, only an
    exception leaves it. *)
Fixpoint monitoring_loop (n : nat) : M unit :=
  match n with
  | O => fun s => (StillRunning, s, [])
  | S n' => loop_iteration ;; monitoring_loop n'
  end.

(** ** main (lines 407-493) *)

Definition main (fuel : nat) : M Z :=
  print MsgBanner ;;
  (* Initialize GPIO *)
  gpio_ok <- setup_gpio ;;
  if negb gpio_ok then print MsgGpioFailedExiting ;; ret 1%Z
  else
    (* Initialize Camera *)
    camera_ok <- setup_camera ;;
    (if negb camera_ok then print MsgCameraInitFailed else ret tt) ;;
    (* Load Email Configuration *)
    load_email_config ;;
    (* Ensure save directory exists *)
    dir_ok <- try_except
                (os_makedirs (SAVE_DIR E) ;; print MsgImagesSavedTo ;; ret true)
                is_Exception
                (fun _ => print MsgErrorCreatingSaveDir ;; cleanup ;; ret false) ;;
    if negb dir_ok then ret 1%Z
    else
      configured <- get email_configured ;;
      print (MsgSystemReady configured) ;;
      (* Main monitoring loop *)
      modify (set_motion_detected_time 0) ;;
      try_except
        (monitoring_loop fuel)
        is_KeyboardInterrupt
        (fun _ => ret tt) ;;
      ret 0%Z.

(** ** Entry point (lines 498-508) *)

(** Evaluating the global name [exit_code]: a [NameError] when it is unbound. *)
Definition read_exit_code : M Z :=
  bound <- get exit_code ;;
  match bound with
  | Some c => ret c
  | None => raise (Exception NameError)
  end.

Definition entry_point (fuel : nat) : M unit :=
  try_finally
    (try_except
       (c <- main fuel ;; modify (set_exit_code (Some c)))
       is_Exception
       (fun _ => print MsgFatalError ;; modify (set_exit_code (Some 1%Z))))
    (cleanup ;;
     print MsgSystemStopped ;;
     c <- read_exit_code ;;
     sys_exit c).

End Program.

(** The status the interpreter exits with: the argument of [sys.exit], 1
    after an uncaught exception (130 after an uncaught [KeyboardInterrupt]),
    0 when the script runs off its end. *)
Definition exit_status {A} (r : res A) : option Z :=
  match r with
  | Val _ => Some 0%Z
  | Exn (SystemExit c) => Some c
  | Exn (Exception _) => Some 1%Z
  | Exn KeyboardInterrupt => Some 130%Z
  | StillRunning => None
  end.

(** ** Classification of events *)

(** The actuator line is driven active. *)
Definition actuator_on (ev : event) : bool :=
  match ev with
  | EvGpioOutput pin true => (pin =? LED_PIN)%Z
  | _ => false
  end.

(** What an invocation of [capture_image] produces. *)
Definition capture_event (ev : event) : bool :=
  match ev with
  | EvMakedirs _ | EvCaptureFile _
  | EvPrint MsgCameraNotInitialized
  | EvPrint (MsgImageCaptured _)
  | EvPrint MsgErrorCapturingImage => true
  | _ => false
  end.

(** Talking to the mail server. *)
Definition network_event (ev : event) : bool :=
  match ev with
  | EvSmtpConnect | EvSmtpStarttls | EvSmtpLogin
  | EvSmtpSendMessage _ | EvSmtpQuit => true
  | _ => false
  end.

(** What an invocation of [send_email_alert] produces. *)
Definition notify_event (ev : event) : bool :=
  match ev with
  | EvPathExists _ | EvOpenRead _
  | EvPrint MsgEmailNotConfigured
  | EvPrint MsgImageFileNotFound
  | EvPrint MsgSendingEmail
  | EvPrint MsgEmailSent
  | EvPrint MsgEmailAuthFailed
  | EvPrint MsgErrorSendingEmail => true
  | _ => network_event ev
  end.

(** Any part of the response to a trigger. *)
Definition response_event (ev : event) : bool :=
  match ev with
  | EvPrint MsgMotionDetected => true
  | _ => actuator_on ev || capture_event ev || notify_event ev
  end.

(** Messages reporting a failure. *)
Definition error_message (ev : event) : bool :=
  match ev with
  | EvPrint MsgErrorLoadingEmailConfig
  | EvPrint (MsgGpioAttemptFailed _)
  | EvPrint MsgGpioInitFailed
  | EvPrint MsgErrorSettingUpCamera
  | EvPrint MsgErrorCapturingImage
  | EvPrint MsgEmailAuthFailed
  | EvPrint MsgErrorSendingEmail
  | EvPrint MsgErrorLedOn
  | EvPrint MsgErrorLedOff
  | EvPrint MsgErrorStoppingCamera
  | EvPrint MsgErrorCleaningUpGpio
  | EvPrint MsgErrorCreatingSaveDir
  | EvPrint MsgErrorInMainLoop
  | EvPrint MsgFatalError => true
  | _ => false
  end.

Definition is_print (ev : event) : bool :=
  match ev with EvPrint _ => true | _ => false end.

(** The library calls of a trace, console output left out. *)
Definition calls (t : list event) : list event :=
  List.filter (fun ev => negb (is_print ev)) t.

(** The module globals that only start-up code assigns. *)
Definition globals (s : State) :=
  (picam2 s, gpio_initialized s, camera_initialized s,
   email_configured s, email_config s, exit_code s).

(** ** Predicates on states and traces *)

(** What [signal_handler] and [cleanup] produce. *)
Definition shutdown_event (ev : event) : bool :=
  match ev with
  | EvPrint MsgReceivedInterrupt
  | EvPrint MsgShuttingDown
  | EvPrint MsgCameraStopped
  | EvPrint MsgErrorStoppingCamera
  | EvPrint MsgGpioCleanedUp
  | EvPrint MsgErrorCleaningUpGpio
  | EvCameraStop | EvGpioCleanup | EvSignal => true
  | EvGpioOutput pin false => (pin =? LED_PIN)%Z
  | _ => false
  end.

(** What every helper of the loop leaves alone. *)
Definition kept (s s' : State) : Prop :=
  globals s' = globals s /\
  motion_detected_time s' = motion_detected_time s.

(** What [led_on] and [led_off] emit: the write and its report, or nothing
    when the lines were never acquired. *)
Definition on_phase (s : State) (t : list event) : Prop :=
  if gpio_initialized s
  then exists m, t = [EvGpioOutput LED_PIN HIGH; EvPrint m] /\
                 (m = MsgLedOn \/ m = MsgErrorLedOn)
  else t = [].

Definition off_phase (s : State) (t : list event) : Prop :=
  if gpio_initialized s
  then exists m, t = [EvGpioOutput LED_PIN LOW; EvPrint m] /\
                 (m = MsgLedOff \/ m = MsgErrorLedOff)
  else t = [].

(** A captured image was reported. *)
Definition image_captured (t : list event) : Prop :=
  exists f, In (EvPrint (MsgImageCaptured f)) t.

(** The file handed to the notifier is on disk. *)
Definition artifact_exists (s : State) (image_path : option string) : Prop :=
  exists p, image_path = Some p /\ In p (files s).

Definition capture_phase (t : list event) : Prop :=
  Forall (fun ev => capture_event ev = true) t /\ t <> [].

Definition notify_phase (t : list event) : Prop :=
  Forall (fun ev => notify_event ev = true) t /\ t <> [].

(** How [respond now] started in [s] ends: the trace is cut into the phases
    of the response, in the order they are run. *)
Definition respond_post (E : Env) (s : State) (now : Q)
    (r : res unit) (s' : State) (t : list event) : Prop :=
  globals s' = globals s /\
  exists t_on t_cap t_saved t_send t_end,
    t = EvPrint MsgMotionDetected ::
        t_on ++ t_cap ++ t_saved ++ t_send ++
        EvPrint MsgLedWillStayOn :: EvSleep (LED_ON_TIME E) :: t_end /\
    on_phase s t_on /\
    capture_phase t_cap /\
    (camera_initialized s = false \/ picam2 s = None ->
     t_cap = [EvPrint MsgCameraNotInitialized] /\ files s' = files s) /\
    ((image_captured t_cap /\
      (exists p, t_saved = [EvPrint (MsgSavedTo p)]) /\
      if email_configured s then notify_phase t_send else t_send = []) \/
     (~ image_captured t_cap /\ t_saved = [] /\ t_send = [])) /\
    ((r = Val tt /\
      (exists t_off, t_end = t_off ++ [EvPrint MsgReadyForNext] /\
                     off_phase s t_off) /\
      motion_detected_time s' = now /\
      clock s' = (clock s + LED_ON_TIME E)%Q) \/
     (r = Exn (SystemExit 0) /\
      motion_detected_time s' = motion_detected_time s /\
      exists t', t_end = EvSignal :: t' /\
                 Forall (fun ev => shutdown_event ev = true) t')).

(** How [time.sleep(d)] ends, and what it leaves in the trace. *)
Definition sleep_trace (d : Q) (r : res unit) (t : list event) : Prop :=
  (r = Val tt /\ t = [EvSleep d]) \/
  (r = Exn (SystemExit 0) /\
   exists t', t = EvSleep d :: EvSignal :: t' /\
              Forall (fun ev => shutdown_event ev = true) t').

(** [GPIO.input(PIR_PIN)], at the head of the iteration started in [s],
    returns [level]. *)
Definition sensor_reads (E : Env) (s : State) (level : bool) : Prop :=
  result_of (GPIO_input E PIR_PIN s) = Val level.

(** The cooldown test of line 453, on the clock of state [s]. *)
Definition cooled_down (E : Env) (s : State) : bool :=
  Qgtb (clock s - motion_detected_time s) (COOLDOWN_TIME E).

(** How one pass through [while True] started in [s] ends. *)
Definition loop_post (E : Env) (s : State)
    (r : res unit) (s' : State) (t : list event) : Prop :=
  globals s' = globals s /\
  match result_of (GPIO_input E PIR_PIN s) with
  | Val active =>
      if active && cooled_down E s
      then exists r1 s1 t1,
             respond_post E s (clock s) r1 s1 t1 /\
             match r1 with
             | Val _ =>
                 exists t2, t = EvGpioInput PIR_PIN :: t1 ++ t2 /\
                            sleep_trace (1 # 10) r t2 /\
                            motion_detected_time s' = clock s /\
                            files s' = files s1
             | _ => r = r1 /\ s' = s1 /\ t = EvGpioInput PIR_PIN :: t1
             end
      else exists t2, t = EvGpioInput PIR_PIN :: t2 /\
                      sleep_trace (1 # 10) r t2 /\
                      motion_detected_time s' = motion_detected_time s /\
                      files s' = files s
  | _ =>
      exists t2, t = EvGpioInput PIR_PIN :: EvPrint MsgErrorInMainLoop :: t2 /\
                 sleep_trace 1 r t2 /\
                 motion_detected_time s' = motion_detected_time s /\
                 files s' = files s
  end.

(** The library calls [cleanup] makes in state [s], in order. *)
Definition teardown_calls (s : State) : list event :=
  (if gpio_initialized s then [EvGpioOutput LED_PIN LOW] else []) ++
  (if camera_initialized s && bool_decide (picam2 s <> None)
   then [EvCameraStop] else []) ++
  (if gpio_initialized s then [EvGpioCleanup] else []).

(** A required field is missing, empty, or still holds its placeholder. *)
Definition invalid_field (cfg : gmap string string) (field : string) : Prop :=
  cfg !! field = None \/
  cfg !! field = Some "" \/
  exists v, cfg !! field = Some v /\ startswith v "your_" = true.

(** ** Concrete deployments *)

Definition answers (level : bool) : response := mkResponse None level false.
Definition fails (e : exc) : response := mkResponse (Some e) false false.
Definition interrupts : response := mkResponse None false true.

(** The script as the repository configures it: a hold of 10 s and a
    cooldown of 2 s. *)
Definition deployment (file : option (list string))
    (world : nat -> event -> response) : Env :=
  mkEnv 10 2 "captured_images" file (fun _ => "20260101_120000") world.

(** The state in which main enters the loop after a start-up without
    faults and without a valid mail configuration. *)
Definition ready (now last : Q) : State :=
  mkState now 0 false [] (Some Picamera2Object) true true false ∅ None last.

(** Lines acquired and notifications enabled, but no camera. *)
Definition blind : State :=
  mkState 1000 0 false [] None true false true ∅ None 0.


(** The LED is lit when teardown starts. *)
Definition lit : State :=
  mkState 1000 0 true [] (Some Picamera2Object) true true false ∅ None 0.


(** A configuration file whose recipient is still the placeholder. *)
Definition placeholder_file : list string :=
  ["# Email settings";
   "SENDER_EMAIL=sender@example.com";
   "EMAIL_PASSWORD = app password ";
   "RECIPIENT_EMAIL=your_recipient@example.com"].

(** The sensor is active and nothing fails. *)
Definition motion (k : nat) (ev : event) : response := answers true.

(** The sensor is inactive and nothing fails. *)
Definition still (k : nat) (ev : event) : response := answers false.

(** The sensor is active and the camera fails to write the image. *)
Definition camera_fault (k : nat) (ev : event) : response :=
  match ev with
  | EvCaptureFile _ => fails OSError
  | _ => answers true
  end.

(** Reading the sensor line raises. *)
Definition sensor_fault (k : nat) (ev : event) : response :=
  match ev with
  | EvGpioInput _ => fails RuntimeError
  | _ => answers false
  end.

(** The sensor is inactive and a signal arrives during the first poll delay. *)
Definition signalled (k : nat) (ev : event) : response :=
  match ev with
  | EvSleep d => if Qeq_bool d (1 # 10) then interrupts else answers false
  | _ => answers false
  end.

(** The capture capability is absent. *)
Definition camera_unavailable (s : State) : Prop :=
  camera_initialized s = false \/ picam2 s = None.

(** Anything but [GPIO.input]. *)
Definition not_a_sensor_read (ev : event) : Prop :=
  match ev with EvGpioInput _ => False | _ => True end.

(** Every event a computation emits, from any state, satisfies [P]. *)
Definition emits_only {A} (P : event -> Prop) (m : M A) : Prop :=
  forall s, Forall P (trace_of (m s)).

(** A computation leaves the component [f] of the state as it was. *)
Definition keeps {A B} (f : State -> B) (m : M A) : Prop :=
  forall s, f (state_of (m s)) = f s.

(** ** Notions for the start-up code and the helpers *)

(** [c in s], as in ['=' in line]. *)
Fixpoint contains (c : ascii) (s : string) : bool :=
  match s with
  | EmptyString => false
  | String a rest => Ascii.eqb a c || contains c rest
  end.

(** What a line of the configuration file assigns, if anything
    (lines 62-70). *)
Definition assignment (line : string) : option (string * string) :=
  let line := strip line in
  if (line =? "")%string || startswith line "#" then None
  else match split_once "="%char line with
       | Some (key, value) => Some (strip key, strip value)
       | None => None
       end.

(** A required field is present, not empty and not a placeholder. *)
Definition valid_field (cfg : gmap string string) (field : string) : Prop :=
  exists v, cfg !! field = Some v /\ v <> "" /\ startswith v "your_" = false.

(** One pass of the [for] loop of [setup_gpio] (lines 167-216), as in
    [setup_gpio_attempts]: [Some b] when it executes [return b]. *)
Definition gpio_attempt (E : Env) (attempt : nat) : M (option bool) :=
  try_except
    (try_except (GPIO_cleanup E) any_exn (fun _ => ret tt) ;;
     (if Nat.ltb 0 attempt then time_sleep E 1 else ret tt) ;;
     GPIO_setmode E ;;
     GPIO_setup E PIR_PIN false ;;
     GPIO_setup E LED_PIN true ;;
     GPIO_output E LED_PIN LOW ;;
     modify (set_gpio_initialized true) ;;
     print MsgGpioInitialized ;;
     ret (Some true))
    is_Exception
    (fun _ =>
       print (MsgGpioAttemptFailed (attempt + 1)) ;;
       if Nat.eqb attempt (MAX_RETRIES - 1)
       then print MsgGpioInitFailed ;; ret (Some false)
       else ret None).

(** An attempt to claim the lines starts with [GPIO.setmode]. *)
Definition acquisition_attempt (ev : event) : bool :=
  match ev with EvGpioSetmode => true | _ => false end.

Definition is_sleep (ev : event) : bool :=
  match ev with EvSleep _ => true | _ => false end.

(** The four ways [send_email_alert] reports that nothing was sent. *)
Definition send_failure_report (ev : event) : bool :=
  match ev with
  | EvPrint MsgEmailNotConfigured
  | EvPrint MsgImageFileNotFound
  | EvPrint MsgEmailAuthFailed
  | EvPrint MsgErrorSendingEmail => true
  | _ => false
  end.

(** The path [capture_image] writes to when the clock reads [now]. *)
Definition image_path_at (E : Env) (now : Q) : string :=
  SAVE_DIR E +:+ "/" +:+ "motion_" +:+ strftime E now +:+ ".jpg".

Definition smtp_connect (ev : event) : bool :=
  match ev with EvSmtpConnect => true | _ => false end.

(** How main ends: before the loop, without a sensor read, by returning 1
    or by the signal handler; or from inside the loop, which it entered with
    the lines acquired and the output directory in place. *)
Definition main_post (E : Env) (s : State)
    (r : res Z) (s' : State) (t : list event) : Prop :=
  (Forall not_a_sensor_read t /\
   (r = Val 1%Z \/ r = Exn (SystemExit 0))) \/
  (result_of (setup_gpio E s) = Val true /\
   gpio_initialized s' = true /\
   In (EvPrint MsgImagesSavedTo) t /\
   (r = Exn (SystemExit 0) \/ r = StillRunning)).

(** The reports of the two guards at the head of [send_email_alert]. *)
Definition guard_message (ev : event) : bool :=
  match ev with
  | EvPrint MsgEmailNotConfigured | EvPrint MsgImageFileNotFound => true
  | _ => false
  end.

(** Driving the LED line low never fails. *)
Definition led_off_never_fails (E : Env) : Prop :=
  forall k, r_exc (oracle E k (EvGpioOutput LED_PIN LOW)) = None.

Definition unguarded (ev : event) : Prop := guard_message ev = false.

(** No signal is delivered during the run. *)
Definition no_signal (E : Env) : Prop :=
  forall k ev, r_signal (oracle E k ev) = false.

(** A computation is not ended by [sys.exit]. *)
Definition never_exits {A} (m : M A) : Prop :=
  forall s c, result_of (m s) <> Exn (SystemExit c).

(** The output directory cannot be created; nothing else fails and no
    signal arrives. *)
Definition no_directory (k : nat) (ev : event) : response :=
  mkResponse (match ev with EvMakedirs _ => Some OSError | _ => None end)
             false false.

(** ** Weakest preconditions *)

Definition wp {A} (m : M A) (Q : res A -> State -> list event -> Prop)
    (s : State) : Prop :=
  Q (result_of (m s)) (state_of (m s)) (trace_of (m s)).

(** * Proofs *)

(** ** Rules of the weakest precondition *)

Lemma wp_mono {A} (m : M A) (Q Q' : res A -> State -> list event -> Prop) s :
  wp m Q s -> (forall r s' t, Q r s' t -> Q' r s' t) -> wp m Q' s.
Proof. unfold wp. auto. Qed.

Lemma wp_ret {A} (a : A) Q s : Q (Val a) s [] -> wp (ret a) Q s.
Proof. auto. Qed.

Lemma wp_bind {A B} (m : M A) (k : A -> M B) Q s :
  wp m (fun r s1 t1 =>
          match r with
          | Val a => wp (k a) (fun r2 s2 t2 => Q r2 s2 (t1 ++ t2)) s1
          | Exn e => Q (Exn e) s1 t1
          | StillRunning => Q StillRunning s1 t1
          end) s ->
  wp (bind m k) Q s.
Proof.
  unfold wp, bind, result_of, state_of, trace_of.
  destruct (m s) as [[[a | e |] s1] t1]; cbn; auto.
  destruct (k a s1) as [[r2 s2] t2]; cbn; auto.
Qed.

Lemma wp_try_except {A} (body : M A) (catches : exn -> bool)
    (handler : exn -> M A) Q s :
  wp body (fun r s1 t1 =>
             match r with
             | Exn e =>
                 if catches e
                 then wp (handler e) (fun r2 s2 t2 => Q r2 s2 (t1 ++ t2)) s1
                 else Q (Exn e) s1 t1
             | _ => Q r s1 t1
             end) s ->
  wp (try_except body catches handler) Q s.
Proof.
  unfold wp, try_except, result_of, state_of, trace_of.
  destruct (body s) as [[[a | e |] s1] t1]; cbn; auto.
  destruct (catches e); auto.
  destruct (handler e s1) as [[r2 s2] t2]; cbn; auto.
Qed.

Lemma wp_try_finally {A} (body : M A) (fin : M unit) Q s :
  wp body (fun r s1 t1 =>
             match r with
             | StillRunning => Q StillRunning s1 t1
             | _ =>
                 wp fin (fun r2 s2 t2 =>
                           match r2 with
                           | Val _ => Q r s2 (t1 ++ t2)
                           | Exn e => Q (Exn e) s2 (t1 ++ t2)
                           | StillRunning => Q StillRunning s2 (t1 ++ t2)
                           end) s1
             end) s ->
  wp (try_finally body fin) Q s.
Proof.
  unfold wp, try_finally, result_of, state_of, trace_of.
  destruct (body s) as [[[a | e |] s1] t1]; cbn; auto;
    destruct (fin s1) as [[[u | e' |] s2] t2]; cbn; auto.
Qed.

Lemma wp_get {A B} (f : State -> A) (k : A -> M B) Q s :
  wp (k (f s)) Q s -> wp (bind (get f) k) Q s.
Proof.
  unfold wp, bind, get, result_of, state_of, trace_of; cbn.
  destruct (k (f s) s) as [[r2 s2] t2]; auto.
Qed.

Lemma wp_modify {B} (f : State -> State) (k : unit -> M B) Q s :
  wp (k tt) Q (f s) -> wp (bind (modify f) k) Q s.
Proof.
  unfold wp, bind, modify, result_of, state_of, trace_of; cbn.
  destruct (k tt (f s)) as [[r2 s2] t2]; auto.
Qed.

Lemma wp_emit {B} (ev : event) (k : unit -> M B) Q s :
  wp (k tt) (fun r s' t => Q r s' (ev :: t)) s -> wp (bind (emit ev) k) Q s.
Proof.
  unfold wp, bind, emit, result_of, state_of, trace_of; cbn.
  destruct (k tt s) as [[r2 s2] t2]; auto.
Qed.

Lemma wp_print {B} (m : msg) (k : unit -> M B) Q s :
  wp (k tt) (fun r s' t => Q r s' (EvPrint m :: t)) s ->
  wp (bind (print m) k) Q s.
Proof. apply wp_emit. Qed.

Lemma wp_call {B} (E : Env) (ev : event) (k : response -> M B) Q s :
  match r_exc (oracle E (tick s) ev) with
  | Some e => Q (Exn (Exception e)) (set_tick (S (tick s)) s) [ev]
  | None => wp (k (oracle E (tick s) ev))
               (fun r s' t => Q r s' (ev :: t)) (set_tick (S (tick s)) s)
  end ->
  wp (bind (call E ev) k) Q s.
Proof.
  unfold wp, bind, call, result_of, state_of, trace_of; cbn.
  destruct (r_exc (oracle E (tick s) ev)); cbn; auto.
  destruct (k _ _) as [[r2 s2] t2]; auto.
Qed.

Lemma wp_print_last (m : msg) Q s :
  Q (Val tt) s [EvPrint m] -> wp (print m) Q s.
Proof. auto. Qed.

Lemma wp_modify_last (f : State -> State) Q s :
  Q (Val tt) (f s) [] -> wp (modify f) Q s.
Proof. auto. Qed.

Lemma wp_raise {A} (e : exn) (Q : res A -> State -> list event -> Prop) s :
  Q (Exn e) s [] -> wp (raise e) Q s.
Proof. auto. Qed.

Lemma wp_call_last (E : Env) (ev : event) Q s :
  match r_exc (oracle E (tick s) ev) with
  | Some e => Q (Exn (Exception e)) (set_tick (S (tick s)) s) [ev]
  | None => Q (Val (oracle E (tick s) ev)) (set_tick (S (tick s)) s) [ev]
  end ->
  wp (call E ev) Q s.
Proof.
  unfold wp, call, result_of, state_of, trace_of; cbn.
  destruct (r_exc (oracle E (tick s) ev)); cbn; auto.
Qed.

(** Using an established specification of [m] in front of a continuation. *)
Lemma wp_bind_spec {A B} (m : M A) (k : A -> M B)
    (P : res A -> State -> list event -> Prop) Q s :
  wp m P s ->
  (forall r s1 t1, P r s1 t1 ->
     match r with
     | Val a => wp (k a) (fun r2 s2 t2 => Q r2 s2 (t1 ++ t2)) s1
     | Exn e => Q (Exn e) s1 t1
     | StillRunning => Q StillRunning s1 t1
     end) ->
  wp (bind m k) Q s.
Proof. intros Hm Hk. apply wp_bind. eapply wp_mono; [exact Hm | exact Hk]. Qed.

Ltac wp_step :=
  lazymatch goal with
  | |- wp (bind (get _) _) _ _ => apply wp_get
  | |- wp (bind (modify _) _) _ _ => apply wp_modify
  | |- wp (bind (print _) _) _ _ => apply wp_print
  | |- wp (bind (emit _) _) _ _ => apply wp_emit
  | |- wp (bind (call _ _) _) _ _ => apply wp_call
  | |- wp (bind (if ?b then _ else _) _) _ _ => destruct b eqn:?
  | |- wp (bind _ _) _ _ => apply wp_bind
  | |- wp (try_except _ _ _) _ _ => apply wp_try_except
  | |- wp (try_finally _ _) _ _ => apply wp_try_finally
  | |- wp (ret _) _ _ => apply wp_ret
  | |- wp (print _) _ _ => apply wp_print_last
  | |- wp (modify _) _ _ => apply wp_modify_last
  | |- wp (raise _) _ _ => apply wp_raise
  | |- wp (call _ _) _ _ => apply wp_call_last
  | |- wp (if ?b then _ else _) _ _ => destruct b eqn:?
  | |- wp (match ?o with _ => _ end) _ _ => destruct o eqn:?
  | |- match r_exc ?r with _ => _ end => destruct (r_exc r) eqn:?
  | |- (if is_Exception ?e then _ else _) => is_var e; destruct e
  end; cbn beta iota delta [is_Exception any_exn is_KeyboardInterrupt].

Ltac wp_run := repeat wp_step.

Ltac all_events :=
  repeat (apply List.Forall_cons; [reflexivity |]); apply List.Forall_nil.

Ltac not_captured :=
  let f := fresh in let H := fresh in
  intros [f H]; cbn in H; intuition discriminate.

Lemma shutdown_not_response ev :
  shutdown_event ev = true -> response_event ev = false.
Proof. destruct ev as [[] | | | | | | | ? [] | | | | | | | | | | | | | | | |]; cbn; congruence. Qed.

Section Specs.

Context (E : Env).

Lemma led_on_spec s :
  wp (led_on E)
     (fun r s' t =>
        r = Val tt /\ kept s s' /\ files s' = files s /\ clock s' = clock s /\
        on_phase s t /\ (gpio_initialized s = false -> s' = s)) s.
Proof.
  unfold led_on, GPIO_output, on_phase. wp_run;
    repeat split; try reflexivity; eauto; try discriminate; congruence.
Qed.

Lemma led_off_spec s :
  wp (led_off E)
     (fun r s' t =>
        r = Val tt /\ kept s s' /\ files s' = files s /\ clock s' = clock s /\
        off_phase s t /\ (gpio_initialized s = false -> s' = s)) s.
Proof.
  unfold led_off, GPIO_output, off_phase. wp_run;
    repeat split; try reflexivity; eauto; try discriminate; congruence.
Qed.

Lemma cleanup_spec s :
  wp (cleanup E)
     (fun r s' t =>
        r = Val tt /\ kept s s' /\ files s' = files s /\ clock s' = clock s /\
        (led s = false -> led s' = false) /\
        Forall (fun ev => shutdown_event ev = true) t) s.
Proof.
  unfold cleanup, GPIO_cleanup, GPIO_output. wp_run; cbn;
    repeat split; try reflexivity; auto; try discriminate; all_events.
Qed.

Lemma wp_time_sleep (d : Q) Q s :
  (if r_signal (oracle E (tick s) (EvSleep d))
   then wp (emit (EvSleep d) ;; emit EvSignal ;; signal_handler E) Q
           (set_tick (S (tick s)) s)
   else Q (Val tt) (set_clock (clock s + d)%Q (set_tick (S (tick s)) s))
          [EvSleep d]) ->
  wp (time_sleep E d) Q s.
Proof.
  unfold wp at 2. unfold time_sleep.
  destruct (r_signal (oracle E (tick s) (EvSleep d))); auto.
Qed.

(** A sleep either completes, or a signal ends it with [SystemExit(0)] after
    the teardown. *)
Lemma time_sleep_spec d s :
  wp (time_sleep E d)
     (fun r s' t =>
        kept s s' /\ files s' = files s /\
        ((r = Val tt /\ t = [EvSleep d] /\
          clock s' = (clock s + d)%Q /\ led s' = led s) \/
         (r = Exn (SystemExit 0) /\ clock s' = clock s /\
          (led s = false -> led s' = false) /\
          exists t', t = EvSleep d :: EvSignal :: t' /\
                     Forall (fun ev => shutdown_event ev = true) t'))) s.
Proof.
  apply wp_time_sleep.
  destruct (r_signal (oracle E (tick s) (EvSleep d))).
  - unfold signal_handler. do 3 wp_step.
    eapply wp_bind_spec; [apply cleanup_spec |].
    intros r s1 t1 (-> & Hk & Hf & Hc & Hl & Ht).
    unfold sys_exit. wp_step. cbn in *.
    split; [exact Hk |]. split; [exact Hf |]. right.
    repeat split; auto.
    eexists; split; [reflexivity |].
    apply List.Forall_cons; [reflexivity |].
    rewrite app_nil_r. exact Ht.
  - cbn. repeat split; auto.
Qed.

Lemma filepath_truthy (dir name : string) :
  truthy (Some (dir +:+ "/" +:+ name)) = true.
Proof. destruct dir; reflexivity. Qed.

Lemma capture_image_spec s :
  wp (capture_image E)
     (fun r s' t =>
        kept s s' /\ clock s' = clock s /\ led s' = led s /\
        Forall (fun ev => capture_event ev = true) t /\ t <> [] /\
        ((r = Val None /\ files s' = files s /\ ~ image_captured t) \/
         (exists path, r = Val (Some path) /\ truthy (Some path) = true /\
                       files s' = path :: files s /\ image_captured t)) /\
        (camera_initialized s = false \/ picam2 s = None ->
         r = Val None /\ s' = s /\ t = [EvPrint MsgCameraNotInitialized])) s.
Proof.
  unfold capture_image, os_makedirs, capture_file, time_time. wp_run.
  all: repeat match goal with
         | |- _ /\ _ => split
         | |- kept _ _ => split; reflexivity
         end; try reflexivity; try discriminate; try all_events.
  all: try (left; repeat split; not_captured).
  all: try (right; eexists; split; [reflexivity |]; split;
            [apply filepath_truthy |]; split; [reflexivity |];
            eexists; cbn; eauto).
  all: try (intros _; repeat split; reflexivity).
  all: match goal with
       | H : negb _ || bool_decide _ = false |- _ =>
           apply orb_false_iff in H; destruct H as [Hc Hp];
           apply negb_false_iff in Hc; apply bool_decide_eq_false in Hp;
           intros [? | ?]; congruence
       end.
Qed.

Lemma existsb_eqb_In (p : string) (l : list string) :
  existsb (String.eqb p) l = true -> In p l.
Proof.
  intros H. apply existsb_exists in H. destruct H as (x & Hin & Heq).
  apply String.eqb_eq in Heq. congruence.
Qed.

Lemma send_email_alert_spec image_path s :
  wp (send_email_alert E image_path)
     (fun r s' t =>
        kept s s' /\ files s' = files s /\ clock s' = clock s /\
        led s' = led s /\ (exists b, r = Val b) /\
        Forall (fun ev => notify_event ev = true) t /\ t <> [] /\
        (email_configured s = false \/ ~ artifact_exists s image_path ->
         r = Val false /\ Forall (fun ev => network_event ev = false) t)) s.
Proof.
  unfold send_email_alert, os_path_exists, config_item. wp_run.
  all: repeat match goal with
         | |- _ /\ _ => split
         | |- kept _ _ => split; reflexivity
         | |- exists b, Val _ = Val b => eexists; reflexivity
         end; try reflexivity; try discriminate; try all_events.
  all: try (intros _; split; [reflexivity | all_events]).
  all: intros [Hd | Hp]; exfalso;
    [ match goal with
      | H : negb (email_configured _) = false |- _ =>
          apply negb_false_iff in H; cbn in H; congruence
      end
    | apply Hp;
      match goal with
      | H : negb (existsb _ _) = false |- _ =>
          apply negb_false_iff, existsb_eqb_In in H;
          eexists; split; [reflexivity | exact H]
      end ].
Qed.

Lemma globals_gpio s s' :
  globals s' = globals s -> gpio_initialized s' = gpio_initialized s.
Proof. unfold globals. congruence. Qed.

Lemma globals_email s s' :
  globals s' = globals s -> email_configured s' = email_configured s.
Proof. unfold globals. congruence. Qed.

Lemma globals_camera s s' :
  globals s' = globals s ->
  camera_initialized s' = camera_initialized s /\ picam2 s' = picam2 s.
Proof. unfold globals. split; congruence. Qed.

(** The hold and what follows it (lines 471-480). *)
Lemma hold_and_release_spec now s0 s :
  globals s = globals s0 ->
  wp (print MsgLedWillStayOn ;;
      time_sleep E (LED_ON_TIME E) ;;
      led_off E ;;
      modify (set_motion_detected_time now) ;;
      print MsgReadyForNext)
     (fun r s' t =>
        globals s' = globals s0 /\ files s' = files s /\
        exists t_end,
          t = EvPrint MsgLedWillStayOn :: EvSleep (LED_ON_TIME E) :: t_end /\
          ((r = Val tt /\
            (exists t_off, t_end = t_off ++ [EvPrint MsgReadyForNext] /\
                           off_phase s0 t_off) /\
            motion_detected_time s' = now /\
            clock s' = (clock s + LED_ON_TIME E)%Q) \/
           (r = Exn (SystemExit 0) /\
            motion_detected_time s' = motion_detected_time s /\
            exists t', t_end = EvSignal :: t' /\
                       Forall (fun ev => shutdown_event ev = true) t'))) s.
Proof.
  intros Hg. wp_step.
  eapply wp_bind_spec; [apply time_sleep_spec |].
  intros r s1 t1 ([Hg1 Hm1] & Hf1 & [(-> & -> & Hc1 & _) | (-> & _ & _ & t' & -> & Ht')]).
  - eapply wp_bind_spec; [apply led_off_spec |].
    intros r s2 t2 (-> & [Hg2 Hm2] & Hf2 & Hc2 & Ht2 & _).
    wp_run.
    split; [unfold globals in *; cbn; congruence |].
    split; [cbn; congruence |].
    eexists; split; [reflexivity |]. left.
    split; [reflexivity |]. split; [| split; [reflexivity | cbn; congruence]].
    exists t2. split; [reflexivity |].
    unfold off_phase. rewrite <- (globals_gpio _ _ Hg), <- (globals_gpio _ _ Hg1).
    exact Ht2.
  - split; [congruence |]. split; [congruence |].
    eexists; split; [reflexivity |]. right.
    split; [reflexivity |]. split; [exact Hm1 |]. eauto.
Qed.

Lemma respond_spec now s :
  wp (respond E now) (respond_post E s now) s.
Proof.
  unfold respond. wp_step.
  eapply wp_bind_spec; [apply led_on_spec |].
  intros r s1 t1 (-> & [Hg1 Hm1] & Hf1 & Hc1 & Hon & _).
  eapply wp_bind_spec; [apply capture_image_spec |].
  intros r s2 t2 ([Hg2 Hm2] & Hc2 & _ & Hcap & Hne & Hres & Hun).
  assert (Hg02 : globals s2 = globals s) by congruence.
  assert (Hunav : camera_initialized s = false \/ picam2 s = None ->
                  t2 = [EvPrint MsgCameraNotInitialized] /\ files s2 = files s).
  { intros Hu. destruct (globals_camera _ _ Hg1) as [Hci Hpi].
    rewrite <- Hci, <- Hpi in Hu. destruct (Hun Hu) as (_ & -> & ->).
    split; [reflexivity | exact Hf1]. }
  destruct Hres as [(-> & Hf2 & Hnc) | (path & -> & Htr & Hf2 & Hic)].
  - (* no path *)
    cbn [truthy]. wp_step. wp_step.
    eapply wp_mono; [apply (hold_and_release_spec now s s2 Hg02) |].
    intros r s3 t3 (Hg3 & Hf3 & t_end & -> & Hend).
    split; [exact Hg3 |].
    exists t1, t2, [], [], t_end. cbn [app].
    split; [reflexivity |]. split; [exact Hon |].
    split; [split; assumption |].
    split; [intros Hu; destruct (Hunav Hu); split; congruence |].
    split; [right; auto |].
    destruct Hend as [(-> & Hoff & Hm3 & Hc3) | (-> & Hm3 & Hsd)].
    + left. repeat split; auto. congruence.
    + right. repeat split; auto. congruence.
  - (* a path was produced *)
    rewrite Htr. cbv beta iota. wp_step. wp_step. wp_step.
    rewrite (globals_email _ _ Hg02).
    destruct (email_configured s) eqn:Hec.
    + eapply wp_bind_spec; [apply send_email_alert_spec |].
      intros r s3 t3 ([Hg3 Hm3] & Hf3 & Hc3 & _ & [b ->] & Hnt & Hnn & _).
      wp_step.
      assert (Hg03 : globals s3 = globals s) by congruence.
      eapply wp_mono; [apply (hold_and_release_spec now s s3 Hg03) |].
      intros r s4 t4 (Hg4 & Hf4 & t_end & -> & Hend).
      split; [exact Hg4 |].
      exists t1, t2, [EvPrint (MsgSavedTo (default "" (Some path)))], t3, t_end.
      split; [cbn [app]; rewrite ?app_nil_r; reflexivity |].
      split; [exact Hon |].
      split; [split; assumption |].
      split; [intros Hu; destruct (Hunav Hu) as [-> _]; exfalso; revert Hic; not_captured |].
      split; [left; split; [exact Hic |]; split; [eauto |];
              rewrite Hec; split; assumption |].
      destruct Hend as [(-> & Hoff & Hm4 & Hc4) | (-> & Hm4 & Hsd)].
      * left. repeat split; auto. congruence.
      * right. repeat split; auto. congruence.
    + wp_step.
      eapply wp_mono; [apply (hold_and_release_spec now s s2 Hg02) |].
      intros r s4 t4 (Hg4 & Hf4 & t_end & -> & Hend).
      split; [exact Hg4 |].
      exists t1, t2, [EvPrint (MsgSavedTo (default "" (Some path)))], [], t_end.
      split; [cbn [app]; rewrite ?app_nil_r; reflexivity |].
      split; [exact Hon |].
      split; [split; assumption |].
      split; [intros Hu; destruct (Hunav Hu) as [-> _]; exfalso; revert Hic; not_captured |].
      split; [left; split; [exact Hic |]; split; [eauto |];
              rewrite Hec; reflexivity |].
      destruct Hend as [(-> & Hoff & Hm4 & Hc4) | (-> & Hm4 & Hsd)].
      * left. repeat split; auto. congruence.
      * right. repeat split; auto. congruence.
Qed.

Lemma GPIO_input_result pin s :
  result_of (GPIO_input E pin s) =
  match r_exc (oracle E (tick s) (EvGpioInput pin)) with
  | Some e => Exn (Exception e)
  | None => Val (r_bool (oracle E (tick s) (EvGpioInput pin)))
  end.
Proof.
  unfold GPIO_input, bind, call, ret, result_of; cbn.
  destruct (r_exc (oracle E (tick s) (EvGpioInput pin))); reflexivity.
Qed.

Lemma sleep_spec_trace d s :
  wp (time_sleep E d)
     (fun r s' t =>
        globals s' = globals s /\
        motion_detected_time s' = motion_detected_time s /\
        files s' = files s /\ sleep_trace d r t) s.
Proof.
  eapply wp_mono; [apply time_sleep_spec |].
  intros r s' t ([Hg Hm] & Hf & H).
  repeat split; auto.
  destruct H as [(-> & -> & _) | (-> & _ & _ & t' & -> & Ht)].
  - left; auto.
  - right; eauto.
Qed.

Lemma loop_iteration_spec s :
  wp (loop_iteration E) (loop_post E s) s.
Proof.
  unfold loop_iteration, loop_post. rewrite GPIO_input_result.
  apply wp_try_except. unfold detection_cycle, GPIO_input.
  apply wp_bind. apply wp_bind. apply wp_call_last.
  destruct (r_exc (oracle E (tick s) (EvGpioInput PIR_PIN))) as [e |] eqn:Hexc.
  - (* the read raises *)
    cbn beta iota delta [is_Exception]. wp_step.
    eapply wp_mono; [apply sleep_spec_trace |].
    intros r s' t (Hg & Hm & Hf & Hs).
    split; [exact Hg |]. exists t. cbn [app]. auto.
  - cbn beta iota. wp_step.
    set (s0 := set_tick (S (tick s)) s).
    destruct (r_bool (oracle E (tick s) (EvGpioInput PIR_PIN))) eqn:Hact;
      cbn [andb].
    + unfold time_time. wp_step. wp_step. wp_step.
      change (Qgtb (clock s0 - motion_detected_time s0) (COOLDOWN_TIME E))
        with (cooled_down E s).
      destruct (cooled_down E s) eqn:Hcool.
      * eapply wp_mono; [apply (respond_spec (clock s0) s0) |].
        intros r1 s1 t1 Hr.
        assert (Hg1 : globals s1 = globals s) by (destruct Hr as [Hg _]; exact Hg).
        destruct Hr as [_ Hr].
        assert (Hrp : respond_post E s (clock s) r1 s1 t1)
          by (split; [exact Hg1 | exact Hr]).
        destruct Hr as (t_on & t_cap & t_saved & t_send & t_end &
                        _ & _ & _ & _ & _ & Hend).
        destruct Hend as [(-> & _ & Hm1 & _) | (-> & _ & _)].
        -- eapply wp_mono; [apply sleep_spec_trace |].
           intros r s' t (Hg & Hm & Hf & Hs). assert (Hs' := Hs).
           destruct Hs as [[-> _] | [-> _]];
             cbn beta iota delta [is_Exception];
             (split; [congruence |]);
             exists (Val tt), s1, t1; (split; [exact Hrp |]);
             exists t; cbn [app]; rewrite ?app_nil_r;
             (split; [reflexivity |]); (split; [exact Hs' |]);
             (split; [| exact Hf]); rewrite Hm; exact Hm1.
        -- cbn beta iota delta [is_Exception]. split; [exact Hg1 |].
           exists (Exn (SystemExit 0)), s1, t1. split; [exact Hrp |].
           cbn [app]. rewrite ?app_nil_r. auto.
      * wp_step.
        eapply wp_mono; [apply sleep_spec_trace |].
        intros r s' t (Hg & Hm & Hf & Hs). assert (Hs' := Hs).
        destruct Hs as [[-> _] | [-> _]];
          cbn beta iota delta [is_Exception];
          (split; [exact Hg |]); exists t; cbn [app]; auto.
    + wp_step. wp_step.
      eapply wp_mono; [apply sleep_spec_trace |].
      intros r s' t (Hg & Hm & Hf & Hs). assert (Hs' := Hs).
      destruct Hs as [[-> _] | [-> _]];
        cbn beta iota delta [is_Exception];
        (split; [exact Hg |]); exists t; cbn [app]; auto.
Qed.

End Specs.

(** ** The cooldown gate *)

Lemma Qgtb_lt (x y : Q) : Qgtb x y = true <-> (y < x)%Q.
Proof.
  unfold Qgtb. rewrite negb_true_iff, <- not_true_iff_false, Qle_bool_iff.
  split; [apply Qnot_le_lt | apply Qlt_not_le].
Qed.

Lemma Qgtb_le (x y : Q) : Qgtb x y = false <-> (x <= y)%Q.
Proof.
  unfold Qgtb. rewrite negb_false_iff. apply Qle_bool_iff.
Qed.

Lemma sleep_trace_no_response d r t :
  sleep_trace d r t -> Forall (fun ev => response_event ev = false) t.
Proof.
  intros [[_ ->] | (_ & t' & -> & Ht)].
  - all_events.
  - apply List.Forall_cons; [reflexivity |].
    apply List.Forall_cons; [reflexivity |].
    eapply List.Forall_impl; [| exact Ht]. apply shutdown_not_response.
Qed.

Lemma no_response_not_exists (f : event -> bool) (t : list event) :
  Forall (fun ev => f ev = false) t -> ~ Exists (fun ev => f ev = true) t.
Proof.
  intros Hall Hex. apply List.Exists_exists in Hex. destruct Hex as (ev & Hin & Hev).
  rewrite List.Forall_forall in Hall.
  specialize (Hall ev Hin). congruence.
Qed.

Lemma respond_post_starts E s now r s' t :
  respond_post E s now r s' t ->
  In (EvPrint MsgMotionDetected) t /\
  (gpio_initialized s = true -> In (EvGpioOutput LED_PIN HIGH) t) /\
  Exists (fun ev => capture_event ev = true) t.
Proof.
  intros (_ & t_on & t_cap & t_saved & t_send & t_end & -> & Hon & [Hcap Hne] & _).
  split; [left; reflexivity |]. split.
  - intros Hg. unfold on_phase in Hon. rewrite Hg in Hon.
    destruct Hon as (m & -> & _). right. left. reflexivity.
  - apply Exists_cons_tl. apply List.Exists_app. right. apply List.Exists_app. left.
    destruct t_cap as [| ev t_cap]; [congruence |].
    apply Exists_cons_hd. apply Forall_inv in Hcap. exact Hcap.
Qed.

(** C1: a pass through the loop responds to the sensor (the actuator is
    driven active, a capture is attempted, and whatever belongs to the
    response happens) if and only if the sensor read is active and the time
    elapsed since the last accepted trigger is strictly greater than the
    cooldown.  When the sensor is active but the elapsed time is at most the
    cooldown, nothing of the response happens (no actuator activation, no
    capture, no notification) and the last accepted trigger time is left as
    it was. *)
Theorem trigger_accepted_iff_active_and_cooled_down (E : Env) (s : State) :
  gpio_initialized s = true ->
  let t := trace_of (loop_iteration E s) in
  let elapsed := (clock s - motion_detected_time s)%Q in
  (Exists (fun ev => response_event ev = true) t <->
   sensor_reads E s true /\ (COOLDOWN_TIME E < elapsed)%Q) /\
  ((In (EvGpioOutput LED_PIN HIGH) t /\
    Exists (fun ev => capture_event ev = true) t) <->
   sensor_reads E s true /\ (COOLDOWN_TIME E < elapsed)%Q) /\
  (sensor_reads E s true -> (elapsed <= COOLDOWN_TIME E)%Q ->
   Forall (fun ev => response_event ev = false) t /\
   motion_detected_time (state_of (loop_iteration E s)) =
   motion_detected_time s).
Proof.
  intros Hgpio t elapsed.
  pose proof (loop_iteration_spec E s) as H. unfold wp, loop_post in H.
  fold t in H. destruct H as [_ H].
  unfold sensor_reads.
  assert (Hquiet :
    (exists t2 r, t = EvGpioInput PIR_PIN :: t2 /\ sleep_trace (1 # 10) r t2) \/
    (exists t2 r, t = EvGpioInput PIR_PIN :: EvPrint MsgErrorInMainLoop :: t2 /\
                  sleep_trace 1 r t2) ->
    Forall (fun ev => response_event ev = false) t).
  { intros [(t2 & r & -> & Hs) | (t2 & r & -> & Hs)];
      repeat (apply List.Forall_cons; [reflexivity |]);
      eapply sleep_trace_no_response; exact Hs. }
  destruct (result_of (GPIO_input E PIR_PIN s)) as [[|] | e |] eqn:Hread;
    cbn [andb] in H.
  - destruct (cooled_down E s) eqn:Hcool.
    + (* accepted *)
      apply Qgtb_lt in Hcool. fold elapsed in Hcool.
      destruct H as (r1 & s1 & t1 & Hrp & Hrest).
      destruct (respond_post_starts _ _ _ _ _ _ Hrp) as (Hmd & Hon & Hcap).
      assert (Hsub : exists t2, t = EvGpioInput PIR_PIN :: t1 ++ t2).
      { destruct r1; [destruct Hrest as (t2 & -> & _); eauto | |];
          destruct Hrest as (_ & _ & ->); exists []; rewrite app_nil_r;
          reflexivity. }
      destruct Hsub as [t2 Ht]. rewrite Ht.
      assert (Hin : In (EvGpioOutput LED_PIN HIGH) (EvGpioInput PIR_PIN :: t1 ++ t2))
        by (right; apply in_or_app; left; auto).
      assert (Hex : Exists (fun ev => capture_event ev = true)
                           (EvGpioInput PIR_PIN :: t1 ++ t2))
        by (apply Exists_cons_tl, List.Exists_app; left; exact Hcap).
      split; [| split].
      * split; [auto |]. intros _.
        apply List.Exists_exists. exists (EvPrint MsgMotionDetected).
        split; [| reflexivity].
        right; apply in_or_app; left; exact Hmd.
      * split; auto.
      * intros _ Hle. exfalso. apply Qle_not_lt in Hle. auto.
    + (* within the cooldown *)
      apply Qgtb_le in Hcool. fold elapsed in Hcool.
      destruct H as (t2 & Ht & Hs & Hm & _).
      assert (Hno : Forall (fun ev => response_event ev = false) t)
        by (apply Hquiet; left; eauto).
      split; [| split].
      * split; [| intros [_ Hlt]; exfalso; apply Qle_not_lt in Hcool; auto].
        intros Hex. exfalso. eapply no_response_not_exists; eauto.
      * split; [| intros [_ Hlt]; exfalso; apply Qle_not_lt in Hcool; auto].
        intros [Hin _]. exfalso.
        rewrite List.Forall_forall in Hno.
        specialize (Hno _ Hin). discriminate.
      * intros _ _. split; [exact Hno | exact Hm].
  - (* the sensor is inactive *)
    destruct H as (t2 & Ht & Hs & Hm & _).
    assert (Hno : Forall (fun ev => response_event ev = false) t)
      by (apply Hquiet; left; eauto).
    split; [| split].
    + split; [| intros [? _]; discriminate].
      intros Hex. exfalso. eapply no_response_not_exists; eauto.
    + split; [| intros [? _]; discriminate].
      intros [Hin _]. exfalso.
      rewrite List.Forall_forall in Hno.
      specialize (Hno _ Hin). discriminate.
    + intros ?; discriminate.
  - (* the read raises *)
    destruct H as (t2 & Ht & Hs & Hm & _).
    assert (Hno : Forall (fun ev => response_event ev = false) t)
      by (apply Hquiet; right; eauto).
    split; [| split].
    + split; [| intros [? _]; discriminate].
      intros Hex. exfalso. eapply no_response_not_exists; eauto.
    + split; [| intros [? _]; discriminate].
      intros [Hin _]. exfalso.
      rewrite List.Forall_forall in Hno.
      specialize (Hno _ Hin). discriminate.
    + intros ?; discriminate.
  - (* a library call always returns or raises *)
    rewrite GPIO_input_result in Hread.
    destruct (r_exc (oracle E (tick s) (EvGpioInput PIR_PIN))); discriminate.
Qed.

(** ** The order of the response *)

(** C2: in an accepted cycle that runs to its end, the trace is, in this
    order: the sensor read, the actuator driven active, the events of the
    capture attempt, the events of the notification attempt (present only if
    a path was produced and notifications are enabled), the hold for
    [LED_ON_TIME], the actuator driven inactive, and the poll delay; the last
    accepted trigger time is recorded by the end of it. *)
Theorem accepted_cycle_steps_in_order (E : Env) (s : State) :
  gpio_initialized s = true ->
  sensor_reads E s true ->
  (COOLDOWN_TIME E < clock s - motion_detected_time s)%Q ->
  result_of (loop_iteration E s) = Val tt ->
  exists m_on t_cap t_saved t_send m_off,
    trace_of (loop_iteration E s) =
      [EvGpioInput PIR_PIN; EvPrint MsgMotionDetected;
       EvGpioOutput LED_PIN HIGH; EvPrint m_on] ++
      t_cap ++ t_saved ++ t_send ++
      [EvPrint MsgLedWillStayOn; EvSleep (LED_ON_TIME E);
       EvGpioOutput LED_PIN LOW; EvPrint m_off;
       EvPrint MsgReadyForNext; EvSleep (1 # 10)] /\
    (m_on = MsgLedOn \/ m_on = MsgErrorLedOn) /\
    (m_off = MsgLedOff \/ m_off = MsgErrorLedOff) /\
    capture_phase t_cap /\
    ((image_captured t_cap /\
      (exists p, t_saved = [EvPrint (MsgSavedTo p)]) /\
      if email_configured s then notify_phase t_send else t_send = []) \/
     (~ image_captured t_cap /\ t_saved = [] /\ t_send = [])) /\
    motion_detected_time (state_of (loop_iteration E s)) = clock s.
Proof.
  intros Hgpio Hread Hcool Hret.
  pose proof (loop_iteration_spec E s) as H. unfold wp, loop_post in H.
  destruct H as [_ H]. unfold sensor_reads in Hread. rewrite Hread in H.
  apply Qgtb_lt in Hcool. fold (cooled_down E s) in Hcool.
  rewrite Hcool in H. cbn [andb] in H.
  destruct H as (r1 & s1 & t1 & Hrp & Hrest).
  destruct Hrp as (_ & t_on & t_cap & t_saved & t_send & t_end &
                   -> & Hon & Hcap & _ & Hntf & Hend).
  unfold on_phase in Hon. rewrite Hgpio in Hon. destruct Hon as (m_on & -> & Hm_on).
  destruct Hend as [(-> & (t_off & -> & Hoff) & _ & _) | (-> & _ & _)].
  - destruct Hrest as (t2 & Ht & Hs & Hm & _).
    unfold off_phase in Hoff. rewrite Hgpio in Hoff.
    destruct Hoff as (m_off & -> & Hm_off).
    destruct Hs as [[_ ->] | [Hr _]]; [| congruence].
    exists m_on, t_cap, t_saved, t_send, m_off.
    split; [| auto].
    rewrite Ht. cbn [app]. rewrite <- !app_assoc. cbn [app]. reflexivity.
  - destruct Hrest as (Hr & _ & _). congruence.
Qed.

(** ** Exceptions and the loop *)

Lemma respond_post_result E s now r s' t :
  respond_post E s now r s' t -> r = Val tt \/ r = Exn (SystemExit 0).
Proof.
  intros (_ & t_on & t_cap & t_saved & t_send & t_end & _ & _ & _ & _ & _ & Hend).
  destruct Hend as [[-> _] | [-> _]]; auto.
Qed.

Lemma sleep_trace_result d r t :
  sleep_trace d r t -> r = Val tt \/ r = Exn (SystemExit 0).
Proof. intros [[-> _] | [-> _]]; auto. Qed.

Lemma loop_post_result E s r s' t :
  loop_post E s r s' t -> r = Val tt \/ r = Exn (SystemExit 0).
Proof.
  intros [_ H].
  destruct (result_of (GPIO_input E PIR_PIN s)) as [active | e |].
  - destruct (active && cooled_down E s).
    + destruct H as (r1 & s1 & t1 & Hrp & Hrest).
      apply respond_post_result in Hrp.
      destruct r1 as [[] | e |].
      * destruct Hrest as (t2 & _ & Hs & _). eapply sleep_trace_result; eauto.
      * destruct Hrest as (-> & _). exact Hrp.
      * destruct Hrest as (-> & _). exact Hrp.
    + destruct H as (t2 & _ & Hs & _). eapply sleep_trace_result; eauto.
  - destruct H as (t2 & _ & Hs & _). eapply sleep_trace_result; eauto.
  - destruct H as (t2 & _ & Hs & _). eapply sleep_trace_result; eauto.
Qed.

(** An invariant of the state and a property of the events that hold for
    every pass hold for the whole loop, which only [SystemExit(0)] leaves. *)
Lemma monitoring_loop_invariant (E : Env) (I : State -> Prop)
    (P : event -> Prop) :
  (forall s, I s -> I (state_of (loop_iteration E s)) /\
                    Forall P (trace_of (loop_iteration E s))) ->
  forall n s, I s ->
    I (state_of (monitoring_loop E n s)) /\
    Forall P (trace_of (monitoring_loop E n s)) /\
    (result_of (monitoring_loop E n s) = StillRunning \/
     result_of (monitoring_loop E n s) = Exn (SystemExit 0)).
Proof.
  intros Hstep. induction n as [| n IH]; intros s Hs.
  - cbn. auto.
  - pose proof (loop_iteration_spec E s) as Hpost.
    apply loop_post_result in Hpost.
    destruct (Hstep s Hs) as [HI HP].
    cbn [monitoring_loop]. unfold bind.
    destruct (loop_iteration E s) as [[r s1] t1].
    unfold result_of, state_of, trace_of in *. cbn [fst snd] in *.
    destruct Hpost as [-> | ->].
    + destruct (IH s1 HI) as (HI' & HP' & Hr').
      destruct (monitoring_loop E n s1) as [[r2 s2] t2]. cbn [fst snd] in *.
      split; [exact HI' |]. split; [| exact Hr'].
      apply Forall_app. auto.
    + auto.
Qed.

(** C3, as the code has it: an [Exception] raised by the actuator drive, the
    capture or the notification is caught inside the helper that made the
    call ([led_on], [led_off], [capture_image], [send_email_alert] always
    return) and the cycle goes on; the handler at the cycle boundary, with
    its message and its one-second pause, runs exactly when the sensor read
    raises, and the loop then resumes with the recorded time unchanged; no
    [Exception] leaves the loop, which only the [SystemExit(0)] of the signal
    handler ends. *)
Theorem exceptions_stay_inside_the_loop (E : Env) (s : State) :
  (result_of (led_on E s) = Val tt /\
   result_of (led_off E s) = Val tt /\
   (exists p, result_of (capture_image E s) = Val p) /\
   (forall image_path,
      exists sent, result_of (send_email_alert E image_path s) = Val sent)) /\
  (forall n,
     result_of (monitoring_loop E n s) = StillRunning \/
     result_of (monitoring_loop E n s) = Exn (SystemExit 0)) /\
  (In (EvPrint MsgErrorInMainLoop) (trace_of (loop_iteration E s)) <->
   exists e, result_of (GPIO_input E PIR_PIN s) = Exn e) /\
  (forall e,
     result_of (GPIO_input E PIR_PIN s) = Exn e ->
     exists t2,
       trace_of (loop_iteration E s) =
         EvGpioInput PIR_PIN :: EvPrint MsgErrorInMainLoop :: t2 /\
       sleep_trace 1 (result_of (loop_iteration E s)) t2 /\
       motion_detected_time (state_of (loop_iteration E s)) =
       motion_detected_time s).
Proof.
  split; [| split; [| split]].
  - split; [| split; [| split]].
    + pose proof (led_on_spec E s) as H. unfold wp in H. tauto.
    + pose proof (led_off_spec E s) as H. unfold wp in H. tauto.
    + pose proof (capture_image_spec E s) as H. unfold wp in H.
      destruct H as (_ & _ & _ & _ & _ & [[-> _] | (p & -> & _)] & _); eauto.
    + intros image_path.
      pose proof (send_email_alert_spec E image_path s) as H. unfold wp in H.
      tauto.
  - intros n.
    apply (monitoring_loop_invariant E (fun _ => True) (fun _ => True));
      [| exact I].
    intros s' _. split; [exact I |]. apply Forall_forall. auto.
  - pose proof (loop_iteration_spec E s) as H. unfold wp, loop_post in H.
    destruct H as [_ H].
    destruct (result_of (GPIO_input E PIR_PIN s)) as [active | e |] eqn:Hread.
    + split; [| intros [e He]; discriminate]. intros Hin. exfalso.
      assert (Hno : Forall (fun ev => ev <> EvPrint MsgErrorInMainLoop)
                           (trace_of (loop_iteration E s))).
      { assert (Hsl : forall d r t, sleep_trace d r t ->
                  Forall (fun ev => ev <> EvPrint MsgErrorInMainLoop) t).
        { intros d r t [[_ ->] | (_ & t' & -> & Ht)].
          - repeat (apply List.Forall_cons; [discriminate |]). apply List.Forall_nil.
          - repeat (apply List.Forall_cons; [discriminate |]).
            eapply List.Forall_impl; [| exact Ht].
            intros ev Hev ->. discriminate. }
        destruct (active && cooled_down E s).
        - destruct H as (r1 & s1 & t1 & Hrp & Hrest).
          assert (Ht1 : Forall (fun ev => ev <> EvPrint MsgErrorInMainLoop) t1).
          { destruct Hrp as (_ & t_on & t_cap & t_saved & t_send & t_end &
                             -> & Hon & [Hcap _] & _ & Hntf & Hend).
            apply List.Forall_cons; [discriminate |].
            repeat apply Forall_app_2.
            - unfold on_phase in Hon. destruct (gpio_initialized s).
              + destruct Hon as (m & -> & [-> | ->]);
                  repeat (apply List.Forall_cons; [discriminate |]);
                  apply List.Forall_nil.
              + subst. apply List.Forall_nil.
            - eapply List.Forall_impl; [| exact Hcap].
              intros ev Hev ->. discriminate.
            - destruct Hntf as [(_ & (p & ->) & _) | (_ & -> & _)].
              + apply List.Forall_cons; [discriminate | apply List.Forall_nil].
              + apply List.Forall_nil.
            - assert (Hsend : Forall (fun ev => notify_event ev = true) t_send).
              { destruct Hntf as [(_ & _ & Hs) | (_ & _ & ->)];
                  [| apply List.Forall_nil].
                destruct (email_configured s);
                  [exact (proj1 Hs) | subst; apply List.Forall_nil]. }
              eapply List.Forall_impl; [| exact Hsend].
              intros ev Hev ->. discriminate.
            - repeat (apply List.Forall_cons; [discriminate |]).
              destruct Hend as [(_ & (t_off & -> & Hoff) & _) | (_ & _ & t' & -> & Ht')].
              + apply Forall_app_2.
                * unfold off_phase in Hoff. destruct (gpio_initialized s).
                  -- destruct Hoff as (m & -> & [-> | ->]);
                       repeat (apply List.Forall_cons; [discriminate |]);
                       apply List.Forall_nil.
                  -- subst. apply List.Forall_nil.
                * apply List.Forall_cons; [discriminate | apply List.Forall_nil].
              + apply List.Forall_cons; [discriminate |].
                eapply List.Forall_impl; [| exact Ht'].
                intros ev Hev ->. discriminate. }
          destruct r1 as [[] | e |].
          + destruct Hrest as (t2 & -> & Hs & _).
            apply List.Forall_cons; [discriminate |].
            apply Forall_app_2; [exact Ht1 | eapply Hsl; exact Hs].
          + destruct Hrest as (_ & _ & ->).
            apply List.Forall_cons; [discriminate | exact Ht1].
          + destruct Hrest as (_ & _ & ->).
            apply List.Forall_cons; [discriminate | exact Ht1].
        - destruct H as (t2 & -> & Hs & _).
          apply List.Forall_cons; [discriminate |]. eapply Hsl; exact Hs. }
      rewrite List.Forall_forall in Hno. exact (Hno _ Hin eq_refl).
    + split; [eauto |]. intros _.
      destruct H as (t2 & -> & _). right. left. reflexivity.
    + rewrite GPIO_input_result in Hread.
      destruct (r_exc (oracle E (tick s) (EvGpioInput PIR_PIN))); discriminate.
  - intros e Hread.
    pose proof (loop_iteration_spec E s) as H. unfold wp, loop_post in H.
    destruct H as [_ H]. rewrite Hread in H.
    destruct H as (t2 & Ht & Hs & Hm & _). eauto.
Qed.

Lemma trigger_accepted_witness :
  gpio_initialized (ready 1000 0) = true /\
  Exists (fun ev => response_event ev = true)
         (trace_of (loop_iteration (deployment None motion) (ready 1000 0))).
Proof.
  split; [reflexivity |].
  destruct (trigger_accepted_iff_active_and_cooled_down
              (deployment None motion) (ready 1000 0) eq_refl) as [[_ H] _].
  apply H. split; reflexivity.
Defined.

Lemma accepted_cycle_witness :
  exists m_on t_cap t_saved t_send m_off,
    trace_of (loop_iteration (deployment None motion) (ready 1000 0)) =
      [EvGpioInput PIR_PIN; EvPrint MsgMotionDetected;
       EvGpioOutput LED_PIN HIGH; EvPrint m_on] ++
      t_cap ++ t_saved ++ t_send ++
      [EvPrint MsgLedWillStayOn; EvSleep 10;
       EvGpioOutput LED_PIN LOW; EvPrint m_off;
       EvPrint MsgReadyForNext; EvSleep (1 # 10)] /\
    motion_detected_time
      (state_of (loop_iteration (deployment None motion) (ready 1000 0))) = 1000%Q.
Proof.
  destruct (accepted_cycle_steps_in_order
              (deployment None motion) (ready 1000 0))
    as (m_on & t_cap & t_saved & t_send & m_off & Ht & _ & _ & _ & _ & Hm);
    [reflexivity | reflexivity | reflexivity | reflexivity |].
  exists m_on, t_cap, t_saved, t_send, m_off. split; [exact Ht | exact Hm].
Defined.

(** C3 as stated fails: in this cycle [capture_file] raises [OSError]; the
    exception is reported by [capture_image] itself, the cycle goes on to the
    hold and to the actuator being driven inactive, and neither the message
    of the cycle-boundary handler nor its one-second pause occurs. *)
Lemma capture_exception_is_not_caught_at_the_cycle_boundary :
  r_exc (oracle (deployment None camera_fault) 3
           (EvCaptureFile "captured_images/motion_20260101_120000.jpg")) =
    Some OSError /\
  result_of (loop_iteration (deployment None camera_fault) (ready 1000 0)) =
    Val tt /\
  trace_of (loop_iteration (deployment None camera_fault) (ready 1000 0)) =
    [EvGpioInput PIR_PIN; EvPrint MsgMotionDetected;
     EvGpioOutput LED_PIN HIGH; EvPrint MsgLedOn;
     EvMakedirs "captured_images";
     EvCaptureFile "captured_images/motion_20260101_120000.jpg";
     EvPrint MsgErrorCapturingImage;
     EvPrint MsgLedWillStayOn; EvSleep 10;
     EvGpioOutput LED_PIN LOW; EvPrint MsgLedOff;
     EvPrint MsgReadyForNext; EvSleep (1 # 10)].
Proof. repeat split; reflexivity. Qed.

Lemma exceptions_stay_inside_witness :
  exists t2,
    trace_of (loop_iteration (deployment None sensor_fault) (ready 1000 0)) =
      EvGpioInput PIR_PIN :: EvPrint MsgErrorInMainLoop :: t2 /\
    sleep_trace 1
      (result_of (loop_iteration (deployment None sensor_fault) (ready 1000 0)))
      t2.
Proof.
  destruct (exceptions_stay_inside_the_loop
              (deployment None sensor_fault) (ready 1000 0)) as (_ & _ & _ & H).
  destruct (H (Exception RuntimeError) eq_refl) as (t2 & Ht & Hs & _).
  exists t2. split; [exact Ht | exact Hs].
Defined.

(** ** Start-up *)

Section EmitsOnly.

Context (P : event -> Prop).

Lemma emits_only_ret {A} (a : A) : emits_only P (ret a).
Proof. intros s. apply List.Forall_nil. Qed.

Lemma emits_only_raise {A} (e : exn) : emits_only P (@raise A e).
Proof. intros s. apply List.Forall_nil. Qed.

Lemma emits_only_get {A} (f : State -> A) : emits_only P (get f).
Proof. intros s. apply List.Forall_nil. Qed.

Lemma emits_only_modify (f : State -> State) : emits_only P (modify f).
Proof. intros s. apply List.Forall_nil. Qed.

Lemma emits_only_emit (ev : event) : P ev -> emits_only P (emit ev).
Proof. intros H s. apply List.Forall_cons; [exact H | apply List.Forall_nil]. Qed.

Lemma emits_only_print (m : msg) : P (EvPrint m) -> emits_only P (print m).
Proof. apply emits_only_emit. Qed.

Lemma emits_only_call (E : Env) (ev : event) : P ev -> emits_only P (call E ev).
Proof.
  intros H s. unfold call, trace_of.
  destruct (r_exc (oracle E (tick s) ev)); cbn;
    (apply List.Forall_cons; [exact H | apply List.Forall_nil]).
Qed.

Lemma emits_only_bind {A B} (m : M A) (k : A -> M B) :
  emits_only P m -> (forall a, emits_only P (k a)) -> emits_only P (bind m k).
Proof.
  intros Hm Hk s. specialize (Hm s). unfold bind, trace_of in *.
  destruct (m s) as [[[a | e |] s1] t1]; cbn in *; auto.
  specialize (Hk a s1). destruct (k a s1) as [[r2 s2] t2]; cbn in *.
  apply Forall_app_2; assumption.
Qed.

Lemma emits_only_try_except {A} (body : M A) (catches : exn -> bool)
    (handler : exn -> M A) :
  emits_only P body -> (forall e, emits_only P (handler e)) ->
  emits_only P (try_except body catches handler).
Proof.
  intros Hb Hh s. specialize (Hb s). unfold try_except, trace_of in *.
  destruct (body s) as [[[a | e |] s1] t1]; cbn in *; auto.
  destruct (catches e); cbn; auto.
  specialize (Hh e s1). destruct (handler e s1) as [[r2 s2] t2]; cbn in *.
  apply Forall_app_2; assumption.
Qed.

Lemma emits_only_try_finally {A} (body : M A) (fin : M unit) :
  emits_only P body -> emits_only P fin ->
  emits_only P (try_finally body fin).
Proof.
  intros Hb Hf s. specialize (Hb s). unfold try_finally, trace_of in *.
  destruct (body s) as [[[a | e |] s1] t1]; cbn in *; auto;
    specialize (Hf s1); destruct (fin s1) as [[[u | e' |] s2] t2]; cbn in *;
    apply Forall_app_2; assumption.
Qed.

Lemma emits_only_if {A} (b : bool) (m1 m2 : M A) :
  emits_only P m1 -> emits_only P m2 -> emits_only P (if b then m1 else m2).
Proof. destruct b; auto. Qed.

End EmitsOnly.

Ltac emits_step :=
  first
    [ apply emits_only_bind; [| intros ?]
    | apply emits_only_try_except; [| intros ?]
    | apply emits_only_try_finally
    | apply emits_only_if
    | apply emits_only_ret
    | apply emits_only_raise
    | apply emits_only_get
    | apply emits_only_modify
    | apply emits_only_print
    | apply emits_only_emit
    | apply emits_only_call ].

Lemma cleanup_emits (E : Env) :
  emits_only (fun ev => shutdown_event ev = true) (cleanup E).
Proof.
  intros s. pose proof (cleanup_spec E s) as H. unfold wp in H. tauto.
Qed.

(** A sleep emits itself and, when a signal is pending, the shutdown. *)
Lemma time_sleep_emits (E : Env) (P : event -> Prop) (d : Q) :
  P (EvSleep d) -> P EvSignal ->
  (forall ev, shutdown_event ev = true -> P ev) ->
  emits_only P (time_sleep E d).
Proof.
  intros Hd Hsig Hsh s.
  pose proof (sleep_spec_trace E d s) as H. unfold wp in H.
  destruct H as (_ & _ & _ & [[_ ->] | (_ & t' & -> & Ht)]).
  - apply List.Forall_cons; [exact Hd | apply List.Forall_nil].
  - apply List.Forall_cons; [exact Hd |].
    apply List.Forall_cons; [exact Hsig |].
    eapply List.Forall_impl; [exact Hsh | exact Ht].
Qed.

Lemma shutdown_not_a_sensor_read ev :
  shutdown_event ev = true -> not_a_sensor_read ev.
Proof. destruct ev; cbn; auto; discriminate. Qed.

(** Acquiring the lines never reads the sensor. *)
Lemma setup_gpio_attempts_emits (E : Env) (remaining attempt : nat) :
  emits_only not_a_sensor_read (setup_gpio_attempts E remaining attempt).
Proof.
  revert attempt. induction remaining as [| n IH]; intros attempt;
    cbn [setup_gpio_attempts].
  - apply emits_only_ret.
  - apply emits_only_bind.
    + unfold GPIO_cleanup, GPIO_setmode, GPIO_setup, GPIO_output.
      repeat (emits_step; try exact I);
        apply time_sleep_emits;
        try exact I; apply shutdown_not_a_sensor_read.
    + intros [b |]; [apply emits_only_ret | apply IH].
Qed.

Lemma setup_gpio_emits (E : Env) :
  emits_only not_a_sensor_read (setup_gpio E).
Proof.
  unfold setup_gpio, force_release_gpio.
  apply emits_only_bind; [apply emits_only_emit; exact I |].
  intros _. apply setup_gpio_attempts_emits.
Qed.

(** ** Teardown *)

Lemma cleanup_calls (E : Env) s :
  wp (cleanup E)
     (fun r s' t =>
        r = Val tt /\ globals s' = globals s /\
        calls t = teardown_calls s /\
        (led s = false -> led s' = false) /\
        (gpio_initialized s = true ->
         r_exc (oracle E (tick s) (EvGpioOutput LED_PIN LOW)) = None ->
         led s' = false) /\
        ((forall k, r_exc (oracle E k EvCameraStop) = None) ->
         (forall k, r_exc (oracle E k EvGpioCleanup) = None) ->
         Forall (fun ev => error_message ev = false) t /\
         (gpio_initialized s = true -> led s' = false))) s.
Proof.
  unfold cleanup, GPIO_cleanup, GPIO_output. wp_run.
  all: cbn in *; unfold teardown_calls;
    repeat match goal with
           | H : _ = true |- _ => rewrite H
           | H : _ = false |- _ => rewrite H
           end.
  all: repeat match goal with |- _ /\ _ => split end;
    try reflexivity; auto; try congruence.
  all: intros Hstop Hrelease;
    try match goal with
        | H : r_exc (oracle _ _ EvCameraStop) = Some _ |- _ =>
            rewrite Hstop in H; discriminate
        end;
    try match goal with
        | H : r_exc (oracle _ _ EvGpioCleanup) = Some _ |- _ =>
            rewrite Hrelease in H; discriminate
        end.
  all: split; [all_events | auto; try congruence].
Qed.

(** C8: teardown can be run twice.  Neither run raises, whatever the
    library calls do; each run attempts all three steps that apply (drive
    the actuator inactive, stop the camera, release the lines), a failing
    step not skipping the others; the globals are untouched and the actuator
    is never driven active.  The actuator is left inactive as soon as one of
    the writes succeeds or the lines are released, and when stopping the
    camera and releasing the lines do not raise, neither run reports an
    error. *)
Theorem cleanup_is_idempotent (E : Env) (s : State) :
  let first := cleanup E s in
  let second := cleanup E (state_of first) in
  result_of first = Val tt /\ result_of second = Val tt /\
  calls (trace_of first) = teardown_calls s /\
  calls (trace_of second) = teardown_calls s /\
  globals (state_of second) = globals s /\
  Forall (fun ev => actuator_on ev = false) (trace_of first ++ trace_of second) /\
  (led s = false -> led (state_of second) = false) /\
  (gpio_initialized s = true ->
   r_exc (oracle E (tick s) (EvGpioOutput LED_PIN LOW)) = None ->
   led (state_of second) = false) /\
  ((forall k, r_exc (oracle E k EvCameraStop) = None) ->
   (forall k, r_exc (oracle E k EvGpioCleanup) = None) ->
   Forall (fun ev => error_message ev = false)
          (trace_of first ++ trace_of second) /\
   (gpio_initialized s = true -> led (state_of second) = false)).
Proof.
  intros first second.
  pose proof (cleanup_calls E s) as H1.
  pose proof (cleanup_calls E (state_of first)) as H2.
  unfold wp in H1, H2. fold first in H1. fold second in H2.
  destruct H1 as (Hr1 & Hg1 & Hc1 & Hl1 & Hw1 & He1).
  destruct H2 as (Hr2 & Hg2 & Hc2 & Hl2 & Hw2 & He2).
  assert (Hsame : teardown_calls (state_of first) = teardown_calls s).
  { unfold teardown_calls. destruct (globals_camera _ _ Hg1) as [-> ->].
    rewrite (globals_gpio _ _ Hg1). reflexivity. }
  split; [exact Hr1 |]. split; [exact Hr2 |]. split; [exact Hc1 |].
  split; [congruence |]. split; [congruence |].
  split; [| split; [auto | split; [auto |]]].
  - apply Forall_app_2;
      (eapply List.Forall_impl; [| apply cleanup_emits]);
      intros ev Hev; destruct ev as [| | | | | | | ? [] | | | | | | | | | | | | | | | |];
      cbn in *; congruence.
  - intros Hstop Hrelease.
    destruct (He1 Hstop Hrelease) as [Herr1 Hled1].
    destruct (He2 Hstop Hrelease) as [Herr2 Hled2].
    split; [apply Forall_app_2; assumption |].
    intros Hg. apply Hled2. rewrite (globals_gpio _ _ Hg1). exact Hg.
Qed.

Lemma cleanup_idempotent_witness :
  led lit = true /\
  led (state_of (cleanup (deployment None still)
                   (state_of (cleanup (deployment None still) lit)))) = false /\
  Forall (fun ev => error_message ev = false)
         (trace_of (cleanup (deployment None still) lit) ++
          trace_of (cleanup (deployment None still)
                      (state_of (cleanup (deployment None still) lit)))).
Proof.
  split; [reflexivity |].
  destruct (cleanup_is_idempotent (deployment None still) lit)
    as (_ & _ & _ & _ & _ & _ & _ & _ & H).
  destruct H as [Herr Hled];
    [intros k; reflexivity | intros k; reflexivity |].
  split; [apply Hled; reflexivity | exact Herr].
Defined.

(** ** Lines that were never acquired *)

Lemma wp_self {A} (m : M A) s :
  wp m (fun r s' t => r = result_of (m s) /\ s' = state_of (m s) /\
                      t = trace_of (m s)) s.
Proof. unfold wp. auto. Qed.

Lemma main_without_lines (E : Env) n s :
  result_of (setup_gpio E s) = Val false ->
  result_of (main E n s) = Val 1%Z /\
  Forall not_a_sensor_read (trace_of (main E n s)).
Proof.
  intros Hfail.
  change (wp (main E n)
             (fun r s' t => r = Val 1%Z /\ Forall not_a_sensor_read t) s).
  unfold main. wp_step.
  eapply wp_bind_spec; [apply wp_self |].
  intros r s1 t1 (-> & _ & ->). rewrite Hfail. cbn [negb]. wp_run.
  split; [reflexivity |].
  apply List.Forall_cons; [exact I |].
  apply Forall_app_2; [apply setup_gpio_emits |].
  apply List.Forall_cons; [exact I | apply List.Forall_nil].
Qed.

(** ** Running without a camera *)

Lemma notify_is_response ev :
  response_event ev = false -> notify_event ev = false.
Proof.
  destruct ev as [[] | | | | | | | | | | | | | | | | | | | | | | |]; cbn;
    try reflexivity; try discriminate;
    rewrite ?orb_false_iff; tauto.
Qed.

Lemma capture_not_notify ev :
  capture_event ev = true -> notify_event ev = false.
Proof.
  destruct ev as [[] | | | | | | | | | | | | | | | | | | | | | | |]; cbn;
    try reflexivity; discriminate.
Qed.

Lemma on_phase_quiet s t :
  on_phase s t -> Forall (fun ev => notify_event ev = false) t.
Proof.
  unfold on_phase. destruct (gpio_initialized s).
  - intros (m & -> & [-> | ->]); all_events.
  - intros ->. apply List.Forall_nil.
Qed.

Lemma off_phase_quiet s t :
  off_phase s t -> Forall (fun ev => notify_event ev = false) t.
Proof.
  unfold off_phase. destruct (gpio_initialized s).
  - intros (m & -> & [-> | ->]); all_events.
  - intros ->. apply List.Forall_nil.
Qed.

Lemma sleep_trace_quiet d r t :
  sleep_trace d r t -> Forall (fun ev => notify_event ev = false) t.
Proof.
  intros H. eapply List.Forall_impl; [apply notify_is_response |].
  eapply sleep_trace_no_response; exact H.
Qed.

Lemma loop_iteration_without_camera (E : Env) s :
  camera_unavailable s ->
  camera_unavailable (state_of (loop_iteration E s)) /\
  files (state_of (loop_iteration E s)) = files s /\
  Forall (fun ev => notify_event ev = false) (trace_of (loop_iteration E s)).
Proof.
  intros Hun.
  pose proof (loop_iteration_spec E s) as H. unfold wp, loop_post in H.
  destruct H as [Hg H].
  split.
  { unfold camera_unavailable in *.
    destruct (globals_camera _ _ Hg) as [-> ->]. exact Hun. }
  assert (Hidle : forall t2 r,
            trace_of (loop_iteration E s) = EvGpioInput PIR_PIN :: t2 ->
            sleep_trace (1 # 10) r t2 ->
            Forall (fun ev => notify_event ev = false)
                   (trace_of (loop_iteration E s))).
  { intros t2 r -> Hs. apply List.Forall_cons; [reflexivity |].
    eapply sleep_trace_quiet; exact Hs. }
  destruct (result_of (GPIO_input E PIR_PIN s)) as [active | e |].
  - destruct (active && cooled_down E s).
    + destruct H as (r1 & s1 & t1 & Hrp & Hrest).
      destruct Hrp as (_ & t_on & t_cap & t_saved & t_send & t_end &
                       -> & Hon & _ & Hcam & Hntf & Hend).
      destruct (Hcam Hun) as [-> Hf1].
      destruct Hntf as [(Hic & _) | (_ & -> & ->)];
        [exfalso; revert Hic; not_captured |].
      assert (Ht1 : forall t_end',
                Forall (fun ev => notify_event ev = false) t_end' ->
                Forall (fun ev => notify_event ev = false)
                  (EvPrint MsgMotionDetected
                   :: t_on ++ [EvPrint MsgCameraNotInitialized] ++ [] ++ [] ++
                      EvPrint MsgLedWillStayOn :: EvSleep (LED_ON_TIME E)
                      :: t_end')).
      { intros t_end' Hend'. apply List.Forall_cons; [reflexivity |].
        apply Forall_app_2; [eapply on_phase_quiet; exact Hon |].
        cbn [app]. repeat (apply List.Forall_cons; [reflexivity |]).
        exact Hend'. }
      destruct Hend as [(-> & (t_off & -> & Hoff) & _) | (-> & _ & t' & -> & Ht')].
      * destruct Hrest as (t2 & -> & Hs & _ & Hf).
        split; [congruence |].
        apply List.Forall_cons; [reflexivity |].
        apply Forall_app_2; [| eapply sleep_trace_quiet; exact Hs].
        apply Ht1. apply Forall_app_2; [eapply off_phase_quiet; exact Hoff |].
        all_events.
      * destruct Hrest as (_ & -> & ->).
        split; [exact Hf1 |].
        apply List.Forall_cons; [reflexivity |].
        apply Ht1. apply List.Forall_cons; [reflexivity |].
        eapply List.Forall_impl; [| exact Ht'].
        intros ev Hev. apply notify_is_response, shutdown_not_response, Hev.
    + destruct H as (t2 & Ht & Hs & _ & Hf). split; [exact Hf |].
      eapply Hidle; eauto.
  - destruct H as (t2 & -> & Hs & _ & Hf). split; [exact Hf |].
    repeat (apply List.Forall_cons; [reflexivity |]).
    eapply sleep_trace_quiet; exact Hs.
  - destruct H as (t2 & -> & Hs & _ & Hf). split; [exact Hf |].
    repeat (apply List.Forall_cons; [reflexivity |]).
    eapply sleep_trace_quiet; exact Hs.
Qed.

(** C5: when the camera is not initialised or the camera object is absent,
    [capture_image] returns [None], leaves the state (and so the files on
    disk) as it was and only prints its warning; and however many passes the
    loop makes, no event of [send_email_alert] occurs and no file is
    created.  (An invocation of [send_email_alert] always leaves such an
    event, so it is never invoked.) *)
Theorem no_camera_no_capture_no_notification (E : Env) (s : State) :
  camera_initialized s = false \/ picam2 s = None ->
  capture_image E s = (Val None, s, [EvPrint MsgCameraNotInitialized]) /\
  (forall n,
     Forall (fun ev => notify_event ev = false)
            (trace_of (monitoring_loop E n s)) /\
     files (state_of (monitoring_loop E n s)) = files s) /\
  (forall image_path s',
     Exists (fun ev => notify_event ev = true)
            (trace_of (send_email_alert E image_path s'))).
Proof.
  intros Hun. split; [| split].
  - pose proof (capture_image_spec E s) as H. unfold wp in H.
    destruct H as (_ & _ & _ & _ & _ & _ & H).
    destruct (H Hun) as (Hr & Hs & Ht).
    destruct (capture_image E s) as [[r s'] t].
    unfold result_of, state_of, trace_of in *. cbn [fst snd] in *.
    rewrite Hr, Hs, Ht. reflexivity.
  - intros n.
    destruct (monitoring_loop_invariant E
                (fun s' => camera_unavailable s' /\ files s' = files s)
                (fun ev => notify_event ev = false)) with (n := n) (s := s)
      as ([_ Hf] & Ht & _).
    + intros s0 [Hun0 Hf0].
      destruct (loop_iteration_without_camera E s0 Hun0) as (Hun1 & Hf1 & Ht1).
      split; [split; [exact Hun1 | congruence] | exact Ht1].
    + split; [exact Hun | reflexivity].
    + split; [exact Ht | exact Hf].
  - intros image_path s'.
    pose proof (send_email_alert_spec E image_path s') as H. unfold wp in H.
    destruct H as (_ & _ & _ & _ & _ & Hall & Hne & _).
    destruct (trace_of (send_email_alert E image_path s')) as [| ev t];
      [congruence |].
    apply Exists_cons_hd. apply Forall_inv in Hall. exact Hall.
Qed.

Lemma no_camera_witness :
  capture_image (deployment None motion) blind =
    (Val None, blind, [EvPrint MsgCameraNotInitialized]) /\
  Forall (fun ev => notify_event ev = false)
         (trace_of (monitoring_loop (deployment None motion) 3 blind)).
Proof.
  destruct (no_camera_no_capture_no_notification
              (deployment None motion) blind) as (Hc & Hl & _);
    [left; reflexivity |].
  split; [exact Hc | exact (proj1 (Hl 3%nat))].
Defined.

(** ** Notifications *)

Lemma invalid_field_missing cfg field :
  invalid_field cfg field -> field_missing cfg field = true.
Proof.
  unfold field_missing.
  intros [-> | [-> | (v & -> & Hv)]]; [reflexivity | reflexivity |].
  rewrite Hv. apply orb_true_r.
Qed.

Lemma missing_fields_nonempty cfg field :
  In field required_fields -> invalid_field cfg field ->
  missing_fields cfg <> [].
Proof.
  intros Hin Hinv Hnil.
  assert (H : In field (missing_fields cfg)).
  { apply filter_In. split; [exact Hin | apply invalid_field_missing, Hinv]. }
  rewrite Hnil in H. exact H.
Qed.

Lemma load_email_config_invalid (E : Env) s lines field :
  env_file E = Some lines ->
  In field required_fields ->
  invalid_field (parse_lines lines (email_config s)) field ->
  result_of (load_email_config E s) = Val false /\
  email_configured (state_of (load_email_config E s)) = email_configured s.
Proof.
  intros Hfile Hin Hinv.
  change (wp (load_email_config E)
             (fun r s' _ => r = Val false /\
                            email_configured s' = email_configured s) s).
  unfold load_email_config. rewrite Hfile.
  apply wp_try_except. apply wp_call.
  destruct (r_exc (oracle E (tick s) (EvOpenRead ENV_FILE))).
  - cbn beta iota delta [is_Exception]. wp_run. auto.
  - wp_step. wp_step. cbn [email_config set_email_config set_tick].
    destruct (missing_fields (parse_lines lines (email_config s))) eqn:Hm.
    + exfalso. eapply missing_fields_nonempty; eauto.
    + wp_run. auto.
Qed.

Lemma load_email_config_absent (E : Env) s :
  env_file E = None ->
  result_of (load_email_config E s) = Val false /\
  email_configured (state_of (load_email_config E s)) = email_configured s.
Proof.
  intros Hfile.
  change (wp (load_email_config E)
             (fun r s' _ => r = Val false /\
                            email_configured s' = email_configured s) s).
  unfold load_email_config. rewrite Hfile. wp_run. auto.
Qed.

Lemma monitoring_loop_globals (E : Env) n s :
  globals (state_of (monitoring_loop E n s)) = globals s.
Proof.
  destruct (monitoring_loop_invariant E
              (fun s' => globals s' = globals s) (fun _ => True))
    with (n := n) (s := s) as (H & _).
  - intros s0 H0. split.
    + pose proof (loop_iteration_spec E s0) as H. unfold wp, loop_post in H.
      destruct H as [Hg _]. congruence.
    + apply List.Forall_forall. auto.
  - reflexivity.
  - exact H.
Qed.

(** C6: a mail configuration in which one of [SENDER_EMAIL],
    [EMAIL_PASSWORD], [RECIPIENT_EMAIL] is missing, empty or still a
    placeholder (or no configuration file at all) makes
    [load_email_config] return [False] without enabling notifications; the
    loop never changes the flag; and [send_email_alert] returns [False]
    without any SMTP call whenever notifications are disabled or the file it
    is given is not on disk. *)
Theorem invalid_config_never_reaches_the_network (E : Env) (s : State) :
  (forall lines field,
     env_file E = Some lines ->
     In field required_fields ->
     invalid_field (parse_lines lines (email_config s)) field ->
     result_of (load_email_config E s) = Val false /\
     email_configured (state_of (load_email_config E s)) = email_configured s) /\
  (env_file E = None ->
   result_of (load_email_config E s) = Val false /\
   email_configured (state_of (load_email_config E s)) = email_configured s) /\
  (forall n,
     email_configured (state_of (monitoring_loop E n s)) = email_configured s) /\
  (forall image_path,
     email_configured s = false \/ ~ artifact_exists s image_path ->
     result_of (send_email_alert E image_path s) = Val false /\
     Forall (fun ev => network_event ev = false)
            (trace_of (send_email_alert E image_path s))).
Proof.
  split; [| split; [| split]].
  - intros lines field. apply load_email_config_invalid.
  - apply load_email_config_absent.
  - intros n. apply globals_email, monitoring_loop_globals.
  - intros image_path Hoff.
    pose proof (send_email_alert_spec E image_path s) as H. unfold wp in H.
    destruct H as (_ & _ & _ & _ & _ & _ & _ & H). exact (H Hoff).
Qed.

(** ** The recorded time *)

(** C7 as stated fails: the response starts at time 1000 and holds the
    actuator for 10 s; when it ends the clock reads 1010, and the recorded
    time is 1000. *)
Lemma recorded_time_is_not_the_time_after_the_hold :
  result_of (respond (deployment None motion) 1000 (ready 1000 0)) = Val tt /\
  clock (state_of (respond (deployment None motion) 1000 (ready 1000 0))) =
    1010%Q /\
  motion_detected_time
    (state_of (respond (deployment None motion) 1000 (ready 1000 0))) =
    1000%Q.
Proof. repeat split; reflexivity. Qed.

(** C7, as the code has it: at the end of an accepted cycle the value
    recorded as the last accepted trigger time is [current_time], the clock
    reading taken when the trigger was accepted (line 450), which by then
    lies the hold duration in the past. *)
Theorem recorded_time_is_the_time_of_acceptance (E : Env) (s : State) (now : Q) :
  result_of (respond E now s) = Val tt ->
  motion_detected_time (state_of (respond E now s)) = now /\
  clock (state_of (respond E now s)) = (clock s + LED_ON_TIME E)%Q.
Proof.
  intros Hret.
  pose proof (respond_spec E now s) as H. unfold wp in H.
  destruct H as (_ & t_on & t_cap & t_saved & t_send & t_end &
                 _ & _ & _ & _ & _ & Hend).
  destruct Hend as [(_ & _ & Hm & Hc) | (Hr & _)]; [auto | congruence].
Qed.

Lemma recorded_time_witness :
  motion_detected_time
    (state_of (respond (deployment None motion) 1000 (ready 1000 0))) = 1000%Q /\
  clock (state_of (respond (deployment None motion) 1000 (ready 1000 0))) =
    (1000 + 10)%Q.
Proof.
  apply (recorded_time_is_the_time_of_acceptance
           (deployment None motion) (ready 1000 0) 1000).
  reflexivity.
Defined.

Lemma invalid_config_witness :
  result_of (load_email_config (deployment (Some placeholder_file) still)
               (initial_state 1000 [] false)) = Val false /\
  email_configured
    (state_of (load_email_config (deployment (Some placeholder_file) still)
                 (initial_state 1000 [] false))) = false /\
  Forall (fun ev => network_event ev = false)
         (trace_of (send_email_alert (deployment (Some placeholder_file) still)
                      (Some "captured_images/motion_20260101_120000.jpg")
                      (initial_state 1000 [] false))).
Proof.
  destruct (invalid_config_never_reaches_the_network
              (deployment (Some placeholder_file) still)
              (initial_state 1000 [] false)) as (Hload & _ & _ & Hsend).
  destruct (Hload placeholder_file "RECIPIENT_EMAIL") as [Hr Hc].
  - reflexivity.
  - right. right. left. reflexivity.
  - right. right. exists "your_recipient@example.com".
    split; vm_compute; reflexivity.
  - split; [exact Hr |]. split; [exact Hc |].
    apply Hsend. left. reflexivity.
Defined.

(** ** The first trigger *)






(** ** Exit status *)

(** C4 fails on a signal: here the sensor is inactive and a SIGINT or
    SIGTERM arrives during the first poll delay.  [signal_handler] runs the
    teardown and raises [SystemExit(0)], which no [except Exception] clause
    catches; it leaves [exit_code = main()] unassigned, the [finally] clause
    runs the teardown a second time and then fails to read [exit_code], and
    the interpreter exits on the [NameError] with status 1. *)
Theorem signal_during_poll_exits_with_status_1 :
  trace_of (entry_point (deployment None signalled) 1
              (initial_state 1000 [] false)) =
    [EvPrint MsgBanner; EvForceReleaseGpio; EvGpioCleanup; EvGpioSetmode;
     EvGpioSetup PIR_PIN false; EvGpioSetup LED_PIN true;
     EvGpioOutput LED_PIN LOW; EvPrint MsgGpioInitialized;
     EvImportPicamera2; EvPicamera2New; EvCreateStillConfiguration;
     EvCameraConfigure; EvCameraStart; EvSleep 2;
     EvPrint MsgCameraInitialized; EvPrint MsgEnvFileNotFound;
     EvMakedirs "captured_images"; EvPrint MsgImagesSavedTo;
     EvPrint (MsgSystemReady false); EvGpioInput PIR_PIN;
     EvSleep (1 # 10); EvSignal; EvPrint MsgReceivedInterrupt;
     EvPrint MsgShuttingDown; EvGpioOutput LED_PIN LOW; EvCameraStop;
     EvPrint MsgCameraStopped; EvGpioCleanup; EvPrint MsgGpioCleanedUp;
     EvPrint MsgShuttingDown; EvGpioOutput LED_PIN LOW; EvCameraStop;
     EvPrint MsgCameraStopped; EvGpioCleanup; EvPrint MsgGpioCleanedUp;
     EvPrint MsgSystemStopped] /\
  result_of (entry_point (deployment None signalled) 1
               (initial_state 1000 [] false)) = Exn (Exception NameError) /\
  exit_status (result_of (entry_point (deployment None signalled) 1
                            (initial_state 1000 [] false))) = Some 1%Z.
Proof. repeat split; reflexivity. Qed.

Section Keeps.

Context {B : Type} (f : State -> B).

Lemma keeps_ret {A} (a : A) : keeps f (ret a).
Proof. intros s. reflexivity. Qed.

Lemma keeps_raise {A} (e : exn) : keeps f (@raise A e).
Proof. intros s. reflexivity. Qed.

Lemma keeps_get {A} (g : State -> A) : keeps f (get g).
Proof. intros s. reflexivity. Qed.

Lemma keeps_emit (ev : event) : keeps f (emit ev).
Proof. intros s. reflexivity. Qed.

Lemma keeps_print (m : msg) : keeps f (print m).
Proof. intros s. reflexivity. Qed.

Lemma keeps_modify (g : State -> State) :
  (forall s, f (g s) = f s) -> keeps f (modify g).
Proof. intros H s. apply H. Qed.

Lemma keeps_call (E : Env) (ev : event) :
  (forall k s, f (set_tick k s) = f s) -> keeps f (call E ev).
Proof.
  intros H s. unfold call, state_of.
  destruct (r_exc (oracle E (tick s) ev)); cbn; apply H.
Qed.

Lemma keeps_bind {A C} (m : M A) (k : A -> M C) :
  keeps f m -> (forall a, keeps f (k a)) -> keeps f (bind m k).
Proof.
  intros Hm Hk s. specialize (Hm s). unfold bind, state_of in *.
  destruct (m s) as [[[a | e |] s1] t1]; cbn in *; auto.
  specialize (Hk a s1). destruct (k a s1) as [[r2 s2] t2]; cbn in *.
  congruence.
Qed.

Lemma keeps_try_except {A} (body : M A) (catches : exn -> bool)
    (handler : exn -> M A) :
  keeps f body -> (forall e, keeps f (handler e)) ->
  keeps f (try_except body catches handler).
Proof.
  intros Hb Hh s. specialize (Hb s). unfold try_except, state_of in *.
  destruct (body s) as [[[a | e |] s1] t1]; cbn in *; auto.
  destruct (catches e); cbn; auto.
  specialize (Hh e s1). destruct (handler e s1) as [[r2 s2] t2]; cbn in *.
  congruence.
Qed.

Lemma keeps_if {A} (b : bool) (m1 m2 : M A) :
  keeps f m1 -> keeps f m2 -> keeps f (if b then m1 else m2).
Proof. destruct b; auto. Qed.

End Keeps.

Ltac keeps_step :=
  first
    [ apply keeps_bind; [| intros ?]
    | apply keeps_try_except; [| intros ?]
    | apply keeps_if
    | apply keeps_ret
    | apply keeps_raise
    | apply keeps_get
    | apply keeps_print
    | apply keeps_emit
    | apply keeps_modify; intros ?; reflexivity
    | apply keeps_call; intros ? ?; reflexivity ].

Lemma cleanup_keeps_exit_code (E : Env) : keeps exit_code (cleanup E).
Proof.
  intros s. pose proof (cleanup_spec E s) as H. unfold wp in H.
  destruct H as (_ & [Hg _] & _). unfold globals in Hg. congruence.
Qed.

Lemma time_sleep_keeps_exit_code (E : Env) d :
  keeps exit_code (time_sleep E d).
Proof.
  intros s. pose proof (sleep_spec_trace E d s) as H. unfold wp in H.
  destruct H as (Hg & _). unfold globals in Hg. congruence.
Qed.

Lemma setup_gpio_attempts_keeps_exit_code (E : Env) remaining attempt :
  keeps exit_code (setup_gpio_attempts E remaining attempt).
Proof.
  revert attempt. induction remaining as [| n IH]; intros attempt;
    cbn [setup_gpio_attempts].
  - apply keeps_ret.
  - apply keeps_bind.
    + unfold GPIO_cleanup, GPIO_setmode, GPIO_setup, GPIO_output.
      repeat keeps_step;
        try apply time_sleep_keeps_exit_code;
        apply keeps_modify; intros s; destruct (_ =? _)%Z; reflexivity.
    + intros [b |]; [apply keeps_ret | apply IH].
Qed.

Lemma monitoring_loop_keeps_exit_code (E : Env) n :
  keeps exit_code (monitoring_loop E n).
Proof.
  intros s. pose proof (monitoring_loop_globals E n s) as Hg.
  unfold globals in Hg. congruence.
Qed.

Ltac keeps_exit_code :=
  repeat first
    [ apply time_sleep_keeps_exit_code
    | apply cleanup_keeps_exit_code
    | apply setup_gpio_attempts_keeps_exit_code
    | apply monitoring_loop_keeps_exit_code
    | keeps_step
    | match goal with
      | |- keeps _ (match ?x with _ => _ end) => destruct x
      end ].

(** Nothing in main assigns [exit_code]. *)
Lemma main_keeps_exit_code (E : Env) n : keeps exit_code (main E n).
Proof.
  unfold main, setup_gpio, force_release_gpio, setup_camera,
    load_email_config, os_makedirs.
  keeps_exit_code.
Qed.

(** Whenever the signal handler ends main, the exit status is 1, not the 0
    passed to [sys.exit] by the handler. *)
Lemma signal_in_main_exits_with_status_1 (E : Env) n s :
  exit_code s = None ->
  result_of (main E n s) = Exn (SystemExit 0) ->
  exit_status (result_of (entry_point E n s)) = Some 1%Z.
Proof.
  intros Hunbound Hsig.
  change (wp (entry_point E n)
             (fun r _ _ => exit_status r = Some 1%Z) s).
  unfold entry_point. apply wp_try_finally. apply wp_try_except.
  eapply wp_bind_spec; [apply wp_self |].
  intros r s1 t1 (-> & -> & _). rewrite Hsig.
  cbn beta iota delta [is_Exception].
  eapply wp_bind_spec; [apply cleanup_spec |].
  intros r s2 t2 (-> & [Hg _] & _).
  wp_step. unfold read_exit_code. apply wp_bind. wp_step.
  assert (He : exit_code s2 = None).
  { unfold globals in Hg. rewrite <- Hunbound, <- (main_keeps_exit_code E n s).
    congruence. }
  rewrite He. wp_step. reflexivity.
Qed.

(** When the lines cannot be acquired the exit status is 1 and the sensor
    is never read. *)
Lemma acquisition_failure_exits_with_status_1 (E : Env) n s :
  result_of (setup_gpio E s) = Val false ->
  exit_status (result_of (entry_point E n s)) = Some 1%Z /\
  Forall not_a_sensor_read (trace_of (entry_point E n s)).
Proof.
  intros Hfail. destruct (main_without_lines E n s Hfail) as [Hr Ht].
  change (wp (entry_point E n)
             (fun r _ t => exit_status r = Some 1%Z /\
                           Forall not_a_sensor_read t) s).
  unfold entry_point. apply wp_try_finally. apply wp_try_except.
  eapply wp_bind_spec; [apply wp_self |].
  intros r s1 t1 (-> & -> & ->). rewrite Hr. wp_step.
  eapply wp_bind_spec; [apply cleanup_spec |].
  intros r s2 t2 (-> & [Hg _] & _ & _ & _ & Hsh).
  wp_step. unfold read_exit_code. apply wp_bind. wp_step.
  assert (He : exit_code s2 = Some 1%Z)
    by (unfold globals in Hg; cbn in Hg; congruence).
  rewrite He. wp_step. unfold sys_exit. wp_step.
  split; [reflexivity |].
  rewrite app_nil_r. apply Forall_app_2; [exact Ht |].
  apply Forall_app_2.
  - eapply List.Forall_impl; [apply shutdown_not_a_sensor_read | exact Hsh].
  - apply List.Forall_cons; [exact I | apply List.Forall_nil].
Qed.

(** ** The embedding at work *)

Example strip_removes_surrounding_whitespace :
  strip (String (ascii_of_nat 9) " RECIPIENT_EMAIL = a@b.c " +:+
         String (ascii_of_nat 10) "") = "RECIPIENT_EMAIL = a@b.c".
Proof. reflexivity. Qed.

Example placeholder_file_is_parsed :
  parse_lines placeholder_file ∅ !! "EMAIL_PASSWORD" = Some "app password" /\
  parse_lines placeholder_file ∅ !! "EMAIL_SUBJECT" = None /\
  missing_fields (parse_lines placeholder_file ∅) = ["RECIPIENT_EMAIL"].
Proof. repeat split; vm_compute; reflexivity. Qed.

(** Five polls with the sensor inactive: nothing but reads and poll delays. *)
Example five_idle_polls :
  monitoring_loop (deployment None still) 5 (ready 1000 0) =
    (StillRunning,
     state_of (monitoring_loop (deployment None still) 5 (ready 1000 0)),
     [EvGpioInput PIR_PIN; EvSleep (1 # 10);
      EvGpioInput PIR_PIN; EvSleep (1 # 10);
      EvGpioInput PIR_PIN; EvSleep (1 # 10);
      EvGpioInput PIR_PIN; EvSleep (1 # 10);
      EvGpioInput PIR_PIN; EvSleep (1 # 10)]).
Proof. reflexivity. Qed.

(** A continuously active sensor triggers again on the first poll after the
    hold: the hold of 10 s has outlasted the cooldown of 2 s. *)
Example active_sensor_triggers_again :
  List.filter (fun ev => actuator_on ev)
    (trace_of (monitoring_loop (deployment None motion) 2 (ready 1000 0))) =
    [EvGpioOutput LED_PIN HIGH; EvGpioOutput LED_PIN HIGH] /\
  motion_detected_time
    (state_of (monitoring_loop (deployment None motion) 2 (ready 1000 0))) ==
    1010 + (1 # 10).
Proof. split; reflexivity. Qed.

(** Five failed attempts to acquire the lines: exit status 1, no sensor
    read. *)
Example five_failed_attempts :
  let world := fun (k : nat) (ev : event) =>
                 match ev with
                 | EvGpioSetup _ _ => fails RuntimeError
                 | _ => answers false
                 end in
  let run := entry_point (deployment None world) 1
               (initial_state 1000 [] false) in
  exit_status (result_of run) = Some 1%Z /\
  List.filter (fun ev => match ev with
                         | EvPrint (MsgGpioAttemptFailed _) => true
                         | EvGpioInput _ => true
                         | _ => false
                         end) (trace_of run) =
    [EvPrint (MsgGpioAttemptFailed 1); EvPrint (MsgGpioAttemptFailed 2);
     EvPrint (MsgGpioAttemptFailed 3); EvPrint (MsgGpioAttemptFailed 4);
     EvPrint (MsgGpioAttemptFailed 5)].
Proof. split; reflexivity. Qed.

(** * Further properties of the code *)

(** ** The configuration parser *)

Lemma split_once_none (sep : ascii) (s : string) :
  split_once sep s = None <-> contains sep s = false.
Proof.
  induction s as [| a rest IH]; cbn; [tauto |].
  destruct (Ascii.eqb a sep); cbn; [split; discriminate |].
  destruct (split_once sep rest) as [[k v] |]; [| tauto].
  split; [discriminate |]. intros H. apply IH in H. discriminate.
Qed.

Lemma split_once_some (sep : ascii) (s k v : string) :
  split_once sep s = Some (k, v) <->
  s = k +:+ String sep v /\ contains sep k = false.
Proof.
  revert k. induction s as [| a rest IH]; intros k; cbn.
  - split; [discriminate |]. intros [H _]. destruct k; discriminate.
  - destruct (Ascii.eqb a sep) eqn:Ha.
    + apply Ascii.eqb_eq in Ha. subst a. split.
      * intros H. injection H as <- <-. split; reflexivity.
      * intros [H Hk]. destruct k as [| b k]; cbn in *.
        -- injection H as ->. reflexivity.
        -- injection H as <- _. rewrite Ascii.eqb_refl in Hk. discriminate.
    + destruct (split_once sep rest) as [[k' v'] |] eqn:Hs.
      * split.
        -- intros H. injection H as <- <-.
           destruct (proj1 (IH k') eq_refl) as [-> Hk]. cbn.
           rewrite Ha. split; [reflexivity | exact Hk].
        -- intros [H Hk]. destruct k as [| b k]; cbn in *.
           ++ injection H as -> _. rewrite Ascii.eqb_refl in Ha. discriminate.
           ++ injection H as <- Hrest. apply orb_false_iff in Hk.
              destruct Hk as [_ Hk].
              assert (Hsome : Some (k', v') = Some (k, v))
                by (apply IH; split; assumption).
              injection Hsome as -> ->. reflexivity.
      * split; [discriminate |]. intros [H Hk]. exfalso.
        destruct k as [| b k]; cbn in *.
        -- injection H as -> _. rewrite Ascii.eqb_refl in Ha. discriminate.
        -- injection H as <- Hrest. apply orb_false_iff in Hk.
           destruct Hk as [_ Hk].
           assert (Hsome : None = Some (k, v))
             by (apply IH; split; assumption).
           discriminate.
Qed.

(** X1: [line.split('=', 1)] cuts at the first separator and loses nothing:
    joining the two parts around the separator gives the string back, and a
    key without the separator followed by the separator and any value, which
    may itself contain the separator, is split back into that key and
    value; the split is not made exactly when the separator is absent. *)
Theorem split_once_round_trip (sep : ascii) (s k v : string) :
  (split_once sep s = Some (k, v) ->
   s = k +:+ String sep v /\ contains sep k = false) /\
  (contains sep k = false ->
   split_once sep (k +:+ String sep v) = Some (k, v)) /\
  (split_once sep s = None <-> contains sep s = false).
Proof.
  split; [apply split_once_some |]. split; [| apply split_once_none].
  intros Hk. apply split_once_some. split; [reflexivity | exact Hk].
Qed.

Lemma split_once_round_trip_witness :
  split_once "="%char ("EMAIL_PASSWORD" +:+ String "="%char "a=b=c") =
    Some ("EMAIL_PASSWORD", "a=b=c").
Proof.
  apply (split_once_round_trip "="%char "" "EMAIL_PASSWORD" "a=b=c").
  reflexivity.
Defined.

Lemma parse_line_assignment (cfg : gmap string string) (line : string) :
  parse_line cfg line =
  match assignment line with
  | Some (k, v) => <[k := v]> cfg
  | None => cfg
  end.
Proof.
  unfold parse_line, assignment.
  destruct ((strip line =? "")%string || startswith (strip line) "#");
    [reflexivity |].
  destruct (split_once "="%char (strip line)) as [[k v] |]; reflexivity.
Qed.

Lemma parse_lines_app (l1 l2 : list string) (cfg : gmap string string) :
  parse_lines (l1 ++ l2) cfg = parse_lines l2 (parse_lines l1 cfg).
Proof. apply fold_left_app. Qed.

Lemma parse_lines_untouched (lines : list string) (cfg : gmap string string)
    (k : string) :
  (forall line v, In line lines -> assignment line <> Some (k, v)) ->
  parse_lines lines cfg !! k = cfg !! k.
Proof.
  revert cfg. induction lines as [| line lines IH]; intros cfg Hno;
    [reflexivity |].
  change (parse_lines lines (parse_line cfg line) !! k = cfg !! k).
  rewrite IH; [| intros l v Hin; apply Hno; right; exact Hin].
  rewrite parse_line_assignment.
  destruct (assignment line) as [[k' v'] |] eqn:Ha; [| reflexivity].
  apply lookup_insert_ne. intros ->. apply (Hno line v'); [left; reflexivity |].
  exact Ha.
Qed.

(** X2: in the configuration file the last assignment to a key wins, and a
    key that no line assigns keeps the value it had in the dictionary
    before the file was read. *)
Theorem parse_lines_last_assignment_wins
    (lines : list string) (cfg : gmap string string) (k : string) :
  (forall line v,
     assignment line = Some (k, v) ->
     parse_lines (lines ++ [line]) cfg !! k = Some v) /\
  ((forall line v, In line lines -> assignment line <> Some (k, v)) ->
   parse_lines lines cfg !! k = cfg !! k).
Proof.
  split; [| apply parse_lines_untouched].
  intros line v Ha. rewrite parse_lines_app.
  change (parse_line (parse_lines lines cfg) line !! k = Some v).
  rewrite parse_line_assignment, Ha. apply lookup_insert_eq.
Qed.

Lemma parse_lines_last_assignment_witness :
  parse_lines (["SENDER_EMAIL=first@example.com"] ++
               [" SENDER_EMAIL = second@example.com "]) ∅
    !! "SENDER_EMAIL" = Some "second@example.com".
Proof.
  apply (proj1 (parse_lines_last_assignment_wins
                  ["SENDER_EMAIL=first@example.com"] ∅ "SENDER_EMAIL")).
  reflexivity.
Defined.

Lemma lstrip_head (s : string) :
  lstrip s = EmptyString \/
  exists a rest, lstrip s = String a rest /\ is_space a = false.
Proof.
  induction s as [| a rest IH]; cbn; [auto |].
  destruct (is_space a) eqn:Ha; [exact IH |]. right. eauto.
Qed.

Lemma rstrip_keeps_head (a : ascii) (rest : string) :
  is_space a = false ->
  exists rest', rstrip (String a rest) = String a rest'.
Proof.
  intros Ha. cbn. destruct (rstrip rest); [rewrite Ha |]; eauto.
Qed.

Lemma lstrip_stripped (a : ascii) (rest : string) :
  is_space a = false -> lstrip (String a rest) = String a rest.
Proof. intros Ha. cbn. rewrite Ha. reflexivity. Qed.

Lemma rstrip_idempotent (s : string) : rstrip (rstrip s) = rstrip s.
Proof.
  induction s as [| a rest IH]; cbn; [reflexivity |].
  destruct (rstrip rest) as [| b tail] eqn:Hr.
  - destruct (is_space a) eqn:Ha; cbn; [reflexivity |].
    rewrite Ha. reflexivity.
  - cbn in IH |- *. destruct (rstrip tail) as [| c tail'] eqn:Ht.
    + destruct (is_space b); [discriminate |]. rewrite IH. reflexivity.
    + rewrite IH. reflexivity.
Qed.

Lemma strip_idempotent (s : string) : strip (strip s) = strip s.
Proof.
  unfold strip.
  destruct (lstrip_head s) as [-> | (a & rest & -> & Ha)]; [reflexivity |].
  destruct (rstrip_keeps_head a rest Ha) as [rest' Hr].
  rewrite Hr, (lstrip_stripped _ _ Ha), <- Hr. apply rstrip_idempotent.
Qed.

(** X3: the keys and values the parser stores carry no surrounding
    whitespace: stripping them again changes nothing. *)
Theorem assignment_is_stripped (line k v : string) :
  assignment line = Some (k, v) -> strip k = k /\ strip v = v.
Proof.
  unfold assignment.
  destruct ((strip line =? "")%string || startswith (strip line) "#");
    [discriminate |].
  destruct (split_once "="%char (strip line)) as [[key value] |];
    [| discriminate].
  intros H. injection H as <- <-. split; apply strip_idempotent.
Qed.

Lemma assignment_is_stripped_witness :
  strip "RECIPIENT_EMAIL" = "RECIPIENT_EMAIL" /\
  strip "your_recipient@example.com" = "your_recipient@example.com".
Proof.
  apply (assignment_is_stripped "  RECIPIENT_EMAIL =  your_recipient@example.com ").
  reflexivity.
Defined.

(** ** load_email_config *)

Lemma field_missing_valid (cfg : gmap string string) (f : string) :
  field_missing cfg f = false <-> valid_field cfg f.
Proof.
  unfold field_missing, valid_field. destruct (cfg !! f) as [v |].
  - rewrite orb_false_iff, String.eqb_neq. split.
    + intros [Hne Hp]. exists v. auto.
    + intros (v' & Hv & Hne & Hp). injection Hv as <-. auto.
  - split; [discriminate |]. intros (v & Hv & _). discriminate.
Qed.

Lemma missing_fields_nil (cfg : gmap string string) :
  missing_fields cfg = [] <->
  forall f, In f required_fields -> valid_field cfg f.
Proof.
  unfold missing_fields, required_fields. cbn [List.filter].
  split.
  - intros H f Hin. apply field_missing_valid.
    destruct (field_missing cfg "SENDER_EMAIL") eqn:H1; [discriminate |].
    destruct (field_missing cfg "EMAIL_PASSWORD") eqn:H2; [discriminate |].
    destruct (field_missing cfg "RECIPIENT_EMAIL") eqn:H3; [discriminate |].
    destruct Hin as [<- | [<- | [<- | []]]]; assumption.
  - intros H.
    rewrite (proj2 (field_missing_valid cfg "SENDER_EMAIL"))
      by (apply H; cbn; auto).
    rewrite (proj2 (field_missing_valid cfg "EMAIL_PASSWORD"))
      by (apply H; cbn; auto).
    rewrite (proj2 (field_missing_valid cfg "RECIPIENT_EMAIL"))
      by (apply H; cbn; auto).
    reflexivity.
Qed.

(** X4: [load_email_config] never raises.  It returns [True], and sets
    [email_configured], exactly when the file exists, can be opened, and
    after reading it each of the three required fields is present, not empty
    and not a placeholder; otherwise it returns [False] and leaves the flag
    as it was. *)
Theorem load_email_config_enables_exactly_when_valid (E : Env) (s : State) :
  let valid :=
    exists lines,
      env_file E = Some lines /\
      r_exc (oracle E (tick s) (EvOpenRead ENV_FILE)) = None /\
      forall f, In f required_fields ->
                valid_field (parse_lines lines (email_config s)) f in
  (result_of (load_email_config E s) = Val true \/
   result_of (load_email_config E s) = Val false) /\
  (result_of (load_email_config E s) = Val true <-> valid) /\
  (result_of (load_email_config E s) = Val true ->
   email_configured (state_of (load_email_config E s)) = true) /\
  (result_of (load_email_config E s) = Val false ->
   email_configured (state_of (load_email_config E s)) = email_configured s).
Proof.
  intros valid.
  change (wp (load_email_config E)
             (fun r s' _ =>
                (r = Val true \/ r = Val false) /\
                (r = Val true <-> valid) /\
                (r = Val true -> email_configured s' = true) /\
                (r = Val false -> email_configured s' = email_configured s)) s).
  unfold load_email_config.
  destruct (env_file E) as [lines |] eqn:Hfile.
  - apply wp_try_except. apply wp_call.
    destruct (r_exc (oracle E (tick s) (EvOpenRead ENV_FILE))) as [e |] eqn:Ho.
    + cbn beta iota delta [is_Exception]. wp_run.
      split; [auto |]. split; [| split; [discriminate | reflexivity]].
      split; [discriminate |].
      intros (lines' & _ & H & _). discriminate.
    + wp_step. wp_step. cbn [email_config set_email_config set_tick].
      destruct (missing_fields (parse_lines lines (email_config s))) eqn:Hm.
      * wp_run. split; [auto |]. split; [| split; [reflexivity | discriminate]].
        split; [| reflexivity]. intros _. exists lines.
        split; [reflexivity |]. split; [reflexivity |].
        apply missing_fields_nil. exact Hm.
      * wp_run. split; [auto |]. split; [| split; [discriminate | reflexivity]].
        split; [discriminate |].
        intros (lines' & Hl & _ & H). injection Hl as <-.
        apply missing_fields_nil in H. congruence.
  - wp_run. split; [auto |]. split; [| split; [discriminate | reflexivity]].
    split; [discriminate |]. intros (lines' & H & _). discriminate.
Qed.

Lemma load_email_config_valid_witness :
  result_of (load_email_config
               (deployment (Some ["SENDER_EMAIL=a@example.com";
                                  "EMAIL_PASSWORD=secret";
                                  "RECIPIENT_EMAIL=b@example.com"]) still)
               (initial_state 1000 [] false)) = Val true.
Proof.
  apply (load_email_config_enables_exactly_when_valid
           (deployment (Some ["SENDER_EMAIL=a@example.com";
                              "EMAIL_PASSWORD=secret";
                              "RECIPIENT_EMAIL=b@example.com"]) still)
           (initial_state 1000 [] false)).
  eexists. split; [reflexivity |]. split; [reflexivity |].
  intros f [<- | [<- | [<- | []]]]; eexists;
    (split; [vm_compute; reflexivity |]); split;
    [discriminate | reflexivity | discriminate | reflexivity
    | discriminate | reflexivity].
Defined.

(** ** setup_gpio *)

Lemma setup_gpio_attempts_unfold (E : Env) (n attempt : nat) :
  setup_gpio_attempts E (S n) attempt =
  bind (gpio_attempt E attempt)
       (fun r => match r with
                 | Some b => ret b
                 | None => setup_gpio_attempts E n (S attempt)
                 end).
Proof. reflexivity. Qed.

Lemma filter_shutdown_nil (f : event -> bool) (t : list event) :
  (forall ev, shutdown_event ev = true -> f ev = false) ->
  Forall (fun ev => shutdown_event ev = true) t ->
  List.filter f t = [].
Proof.
  intros Hf Ht. induction Ht as [| ev t Hev _ IH]; [reflexivity |].
  cbn. rewrite (Hf ev Hev). exact IH.
Qed.

Lemma shutdown_not_attempt ev :
  shutdown_event ev = true -> acquisition_attempt ev = false.
Proof. destruct ev; cbn; auto; discriminate. Qed.

Lemma shutdown_not_sleep ev :
  shutdown_event ev = true -> is_sleep ev = false.
Proof. destruct ev; cbn; auto; discriminate. Qed.

Lemma sleep_trace_counts d r t :
  sleep_trace d r t ->
  List.filter acquisition_attempt t = [] /\
  List.filter is_sleep t = [EvSleep d].
Proof.
  intros [[_ ->] | (_ & t' & -> & Ht)]; [split; reflexivity |].
  cbn. rewrite (filter_shutdown_nil _ _ shutdown_not_attempt Ht),
         (filter_shutdown_nil _ _ shutdown_not_sleep Ht).
  split; reflexivity.
Qed.

(** The configuration calls of one attempt (lines 179-188). *)
Lemma gpio_configure_spec (E : Env) s :
  wp (GPIO_setmode E ;; GPIO_setup E PIR_PIN false ;;
      GPIO_setup E LED_PIN true ;; GPIO_output E LED_PIN LOW ;;
      modify (set_gpio_initialized true) ;;
      print MsgGpioInitialized ;; ret (Some true))
     (fun r s' t =>
        List.filter acquisition_attempt t = [EvGpioSetmode] /\
        List.filter is_sleep t = [] /\
        ((r = Val (Some true) /\ gpio_initialized s' = true /\ led s' = false) \/
         ((exists e, r = Exn (Exception e)) /\
          gpio_initialized s' = gpio_initialized s))) s.
Proof.
  unfold GPIO_setmode, GPIO_setup, GPIO_output. wp_run;
    (split; [reflexivity |]); (split; [reflexivity |]);
    first [left; repeat split; reflexivity | right; split; [eauto | reflexivity]].
Qed.

(** The body of the [try] of one attempt (lines 169-188). *)
Lemma gpio_attempt_body_spec (E : Env) (attempt : nat) s :
  wp (try_except (GPIO_cleanup E) any_exn (fun _ => ret tt) ;;
      (if Nat.ltb 0 attempt then time_sleep E 1 else ret tt) ;;
      GPIO_setmode E ;; GPIO_setup E PIR_PIN false ;;
      GPIO_setup E LED_PIN true ;; GPIO_output E LED_PIN LOW ;;
      modify (set_gpio_initialized true) ;;
      print MsgGpioInitialized ;; ret (Some true))
     (fun r s' t =>
        List.filter is_sleep t =
          (if Nat.ltb 0 attempt then [EvSleep 1] else []) /\
        ((r = Val (Some true) /\ gpio_initialized s' = true /\ led s' = false /\
          List.filter acquisition_attempt t = [EvGpioSetmode]) \/
         ((exists e, r = Exn (Exception e)) /\
          gpio_initialized s' = gpio_initialized s /\
          List.filter acquisition_attempt t = [EvGpioSetmode]) \/
         (r = Exn (SystemExit 0) /\
          gpio_initialized s' = gpio_initialized s /\
          List.filter acquisition_attempt t = []))) s.
Proof.
  assert (Hinner :
    wp (try_except (GPIO_cleanup E) any_exn (fun _ => ret tt))
       (fun r s1 t1 => r = Val tt /\ t1 = [EvGpioCleanup] /\
                       gpio_initialized s1 = gpio_initialized s) s).
  { unfold GPIO_cleanup. wp_run; auto. }
  eapply wp_bind_spec; [exact Hinner |].
  intros r s1 t1 (-> & -> & Hg1).
  assert (Hdelay :
    wp (if Nat.ltb 0 attempt then time_sleep E 1 else ret tt)
       (fun r s2 t2 =>
          gpio_initialized s2 = gpio_initialized s /\
          List.filter acquisition_attempt t2 = [] /\
          List.filter is_sleep t2 =
            (if Nat.ltb 0 attempt then [EvSleep 1] else []) /\
          (r = Val tt \/ r = Exn (SystemExit 0))) s1).
  { destruct (Nat.ltb 0 attempt).
    - eapply wp_mono; [apply sleep_spec_trace |].
      intros r s2 t2 (Hg2 & _ & _ & Hst).
      destruct (sleep_trace_counts _ _ _ Hst) as [Hac Hsc].
      apply globals_gpio in Hg2.
      split; [congruence |]. split; [exact Hac |]. split; [exact Hsc |].
      eapply sleep_trace_result; exact Hst.
    - wp_step. auto. }
  eapply wp_bind_spec; [exact Hdelay |].
  intros r s2 t2 (Hg2 & Ha2 & Hs2 & [-> | ->]).
  - eapply wp_mono; [apply gpio_configure_spec |].
    intros r3 s3 t3 (Ha3 & Hs3 & Hr3).
    rewrite !List.filter_app, Ha2, Hs2, Ha3, Hs3. cbn [List.filter is_sleep
      acquisition_attempt app]. rewrite app_nil_r.
    split; [reflexivity |].
    destruct Hr3 as [(-> & Hg3 & Hl3) | (He & Hg3)].
    + left. auto.
    + right. left. split; [exact He |]. split; [congruence | reflexivity].
  - rewrite !List.filter_app, Ha2, Hs2. cbn [List.filter is_sleep
      acquisition_attempt app].
    split; [reflexivity |]. right. right. auto.
Qed.

Lemma gpio_attempt_spec (E : Env) (attempt : nat) s :
  wp (gpio_attempt E attempt)
     (fun r s' t =>
        List.filter is_sleep t =
          (if Nat.ltb 0 attempt then [EvSleep 1] else []) /\
        ((r = Val (Some true) /\ gpio_initialized s' = true /\ led s' = false /\
          List.filter acquisition_attempt t = [EvGpioSetmode]) \/
         (r = Val None /\ Nat.eqb attempt (MAX_RETRIES - 1) = false /\
          gpio_initialized s' = gpio_initialized s /\
          List.filter acquisition_attempt t = [EvGpioSetmode]) \/
         (r = Val (Some false) /\ Nat.eqb attempt (MAX_RETRIES - 1) = true /\
          gpio_initialized s' = gpio_initialized s /\
          List.filter acquisition_attempt t = [EvGpioSetmode]) \/
         (r = Exn (SystemExit 0) /\
          gpio_initialized s' = gpio_initialized s /\
          List.filter acquisition_attempt t = []))) s.
Proof.
  unfold gpio_attempt. apply wp_try_except.
  eapply wp_mono; [apply gpio_attempt_body_spec |].
  intros r s1 t1 (Hs1 & [(-> & Hg1 & Hl1 & Ha1) |
                         [([e ->] & Hg1 & Ha1) | (-> & Hg1 & Ha1)]]).
  - split; [exact Hs1 |]. left. auto.
  - cbn [is_Exception]. wp_step.
    destruct (Nat.eqb attempt (MAX_RETRIES - 1)) eqn:Hlast; wp_run;
      rewrite !List.filter_app, Ha1, Hs1; cbn [List.filter is_sleep
        acquisition_attempt app]; rewrite ?app_nil_r;
      (split; [reflexivity |]).
    + right. right. left. auto.
    + right. left. auto.
  - cbn [is_Exception]. split; [exact Hs1 |]. right. right. right. auto.
Qed.

Lemma setup_gpio_attempts_spec (E : Env) (remaining attempt : nat) s :
  attempt + remaining = MAX_RETRIES ->
  wp (setup_gpio_attempts E remaining attempt)
     (fun r s' t =>
        length (List.filter acquisition_attempt t) <= remaining /\
        length (List.filter is_sleep t) <=
          remaining - (if Nat.ltb 0 attempt then 0 else 1) /\
        ((r = Val true /\ gpio_initialized s' = true /\ led s' = false) \/
         (r = Val false /\ gpio_initialized s' = gpio_initialized s /\
          length (List.filter acquisition_attempt t) = remaining) \/
         (r = Exn (SystemExit 0) /\
          gpio_initialized s' = gpio_initialized s))) s.
Proof.
  revert attempt s. induction remaining as [| n IH]; intros attempt s Hsum.
  - cbn [setup_gpio_attempts]. wp_step. cbn. split; [lia |]. split; [lia |].
    right. left. auto.
  - rewrite setup_gpio_attempts_unfold.
    eapply wp_bind_spec; [apply gpio_attempt_spec |].
    intros r s1 t1 (Hs1 & [(-> & Hg1 & Hl1 & Ha1) |
                           [(-> & Hlast & Hg1 & Ha1) |
                            [(-> & Hlast & Hg1 & Ha1) | (-> & Hg1 & Ha1)]]]).
    + wp_step. rewrite app_nil_r, Ha1, Hs1.
      split; [cbn; lia |]. split; [| left; auto].
      destruct (Nat.ltb 0 attempt); cbn; lia.
    + eapply wp_mono; [apply (IH (S attempt) s1); lia |].
      intros r s2 t2 (Ha2 & Hs2 & Hr2).
      rewrite !List.filter_app, !length_app, Ha1, Hs1.
      cbn [Nat.ltb Nat.leb] in Hs2.
      split; [cbn; lia |]. split.
      * destruct (Nat.ltb 0 attempt); cbn [length] in *; lia.
      * destruct Hr2 as [(-> & Hg2 & Hl2) | [(-> & Hg2 & Hc2) | (-> & Hg2)]].
        -- left. auto.
        -- right. left. split; [reflexivity |]. split; [congruence |].
           cbn [length]. lia.
        -- right. right. split; [reflexivity | congruence].
    + apply Nat.eqb_eq in Hlast. unfold MAX_RETRIES in *. cbn in Hlast.
      assert (n = 0%nat) by lia. subst n attempt.
      wp_step. rewrite app_nil_r, Ha1, Hs1. cbn.
      split; [lia |]. split; [lia |]. right. left. auto.
    + rewrite Ha1, Hs1. split; [cbn; lia |]. split; [| right; right; auto].
      destruct (Nat.ltb 0 attempt); cbn; lia.
Qed.

Lemma setup_gpio_spec (E : Env) s :
  wp (setup_gpio E)
     (fun r s' t =>
        length (List.filter acquisition_attempt t) <= 5 /\
        length (List.filter is_sleep t) <= 4 /\
        ((r = Val true /\ gpio_initialized s' = true /\ led s' = false) \/
         (r = Val false /\ gpio_initialized s' = gpio_initialized s /\
          length (List.filter acquisition_attempt t) = 5%nat) \/
         (r = Exn (SystemExit 0) /\
          gpio_initialized s' = gpio_initialized s))) s.
Proof.
  unfold setup_gpio, force_release_gpio. wp_step.
  eapply wp_mono; [apply (setup_gpio_attempts_spec E MAX_RETRIES 0 s eq_refl) |].
  intros r s' t (Ha & Hs & Hr). cbn [List.filter acquisition_attempt is_sleep].
  cbn in Hs. unfold MAX_RETRIES in *. tauto.
Qed.

(** X5: [setup_gpio] never lets an exception of the GPIO library out: it
    returns [True], with [gpio_initialized] set and the LED line driven low,
    or it returns [False], with the flag as it was, or it is ended by the
    signal handler, with the flag as it was. *)
Theorem setup_gpio_outcome (E : Env) (s : State) :
  (result_of (setup_gpio E s) = Val true /\
   gpio_initialized (state_of (setup_gpio E s)) = true /\
   led (state_of (setup_gpio E s)) = false) \/
  (result_of (setup_gpio E s) = Val false /\
   gpio_initialized (state_of (setup_gpio E s)) = gpio_initialized s) \/
  (result_of (setup_gpio E s) = Exn (SystemExit 0) /\
   gpio_initialized (state_of (setup_gpio E s)) = gpio_initialized s).
Proof.
  pose proof (setup_gpio_spec E s) as H. unfold wp in H.
  destruct H as (_ & _ & [H | [(Hr & Hg & _) | H]]); auto.
Qed.

(** X6: [setup_gpio] makes at most five attempts to claim the lines and
    sleeps at most four times; it gives up, returning [False], only after
    the fifth attempt. *)
Theorem setup_gpio_retries_are_bounded (E : Env) (s : State) :
  length (List.filter acquisition_attempt (trace_of (setup_gpio E s))) <= 5 /\
  length (List.filter is_sleep (trace_of (setup_gpio E s))) <= 4 /\
  (result_of (setup_gpio E s) = Val false ->
   length (List.filter acquisition_attempt (trace_of (setup_gpio E s))) = 5%nat).
Proof.
  pose proof (setup_gpio_spec E s) as H. unfold wp in H.
  destruct H as (Ha & Hs & Hr). split; [exact Ha |]. split; [exact Hs |].
  intros Hf. rewrite Hf in Hr.
  destruct Hr as [[Hr _] | [(_ & _ & Hc) | [Hr _]]];
    [discriminate | exact Hc | discriminate].
Qed.

Lemma setup_gpio_retries_witness :
  length (List.filter acquisition_attempt
            (trace_of (setup_gpio
                         (deployment None
                            (fun k ev => match ev with
                                         | EvGpioSetmode => fails OSError
                                         | _ => answers false
                                         end))
                         (initial_state 1000 [] false)))) = 5%nat.
Proof.
  apply (setup_gpio_retries_are_bounded
           (deployment None
              (fun k ev => match ev with
                           | EvGpioSetmode => fails OSError
                           | _ => answers false
                           end))
           (initial_state 1000 [] false)).
  reflexivity.
Defined.

(** ** setup_camera *)

Lemma setup_camera_spec (E : Env) s :
  wp (setup_camera E)
     (fun r s' t =>
        gpio_initialized s' = gpio_initialized s /\
        ((r = Val true /\ camera_initialized s' = true /\
          picam2 s' = Some Picamera2Object) \/
         (r = Val false /\ camera_initialized s' = camera_initialized s) \/
         (r = Exn (SystemExit 0) /\
          camera_initialized s' = camera_initialized s))) s.
Proof.
  unfold setup_camera. apply wp_try_except.
  do 6 (wp_step; try (wp_step; [cbn [is_Exception]; wp_run; auto |])).
  eapply wp_bind_spec; [apply time_sleep_spec |].
  intros r s1 t1 ([Hg _] & _ & [(-> & _) | (-> & _)]).
  - wp_run. split.
    + cbn. apply globals_gpio in Hg. exact Hg.
    + left. cbn. destruct (globals_camera _ _ Hg) as [_ Hp]. auto.
  - cbn [is_Exception]. split.
    + apply globals_gpio in Hg. exact Hg.
    + right. right. split; [reflexivity |].
      destruct (globals_camera _ _ Hg) as [Hc _]. exact Hc.
Qed.

(** X7: [setup_camera] never lets a library exception out.  It returns
    [True] with [camera_initialized] set and the camera object in place; when
    it returns [False], or is ended by the signal handler, the flag is as it
    was, so a camera object that was created but could not be configured or
    started is never used: from a state without camera, after a failed
    set-up [capture_image] still returns [None] and [cleanup] does not call
    [stop]. *)
Theorem failed_camera_setup_leaves_no_camera (E : Env) (s : State) :
  ((result_of (setup_camera E s) = Val true /\
    camera_initialized (state_of (setup_camera E s)) = true /\
    picam2 (state_of (setup_camera E s)) = Some Picamera2Object) \/
   (result_of (setup_camera E s) = Val false /\
    camera_initialized (state_of (setup_camera E s)) = camera_initialized s) \/
   (result_of (setup_camera E s) = Exn (SystemExit 0) /\
    camera_initialized (state_of (setup_camera E s)) = camera_initialized s)) /\
  (camera_initialized s = false ->
   result_of (setup_camera E s) = Val false ->
   let s' := state_of (setup_camera E s) in
   capture_image E s' = (Val None, s', [EvPrint MsgCameraNotInitialized]) /\
   ~ In EvCameraStop (trace_of (cleanup E s'))).
Proof.
  pose proof (setup_camera_spec E s) as H. unfold wp in H.
  destruct H as [_ H]. split; [exact H |].
  intros Hoff Hfail s'.
  assert (Hc : camera_initialized s' = false).
  { unfold s'. rewrite Hfail in H.
    destruct H as [[H _] | [[_ H] | [H _]]]; [discriminate | | discriminate].
    congruence. }
  split.
  - pose proof (capture_image_spec E s') as Hs. unfold wp in Hs.
    destruct Hs as (_ & _ & _ & _ & _ & _ & Hs).
    destruct (Hs (or_introl Hc)) as (Hr & Hst & Ht).
    destruct (capture_image E s') as [[r s2] t].
    unfold result_of, state_of, trace_of in *. cbn [fst snd] in *.
    rewrite Hr, Hst, Ht. reflexivity.
  - pose proof (cleanup_calls E s') as Hs. unfold wp in Hs.
    destruct Hs as (_ & _ & Hcalls & _).
    intros Hin.
    assert (Hin' : In EvCameraStop (calls (trace_of (cleanup E s')))).
    { unfold calls. apply filter_In. split; [exact Hin | reflexivity]. }
    rewrite Hcalls in Hin'. unfold teardown_calls in Hin'. rewrite Hc in Hin'.
    cbn [andb app] in Hin'.
    destruct (gpio_initialized s'); cbn in Hin'; intuition discriminate.
Qed.

Lemma failed_camera_setup_witness :
  let E := deployment None
             (fun k ev => match ev with
                          | EvCameraConfigure => fails RuntimeError
                          | _ => answers false
                          end) in
  let s' := state_of (setup_camera E (initial_state 1000 [] false)) in
  picam2 s' = Some Picamera2Object /\
  capture_image E s' = (Val None, s', [EvPrint MsgCameraNotInitialized]).
Proof.
  intros E s'. split; [reflexivity |].
  apply (failed_camera_setup_leaves_no_camera E (initial_state 1000 [] false));
    reflexivity.
Defined.

(** ** capture_image *)

(** X8: [capture_image] never raises.  It returns a path exactly when the
    camera is available and both creating the directory and writing the image
    succeed; the path is then [SAVE_DIR/motion_<timestamp>.jpg] for the
    current time and is the one file added to the disk.  Otherwise it
    returns [None] and the disk is unchanged. *)
Theorem capture_image_outcome (E : Env) (s : State) :
  let available :=
    camera_initialized s = true /\ picam2 s <> None /\
    r_exc (oracle E (tick s) (EvMakedirs (SAVE_DIR E))) = None /\
    r_exc (oracle E (S (tick s))
             (EvCaptureFile (image_path_at E (clock s)))) = None in
  (available ->
   result_of (capture_image E s) = Val (Some (image_path_at E (clock s))) /\
   files (state_of (capture_image E s)) = image_path_at E (clock s) :: files s) /\
  (~ available ->
   result_of (capture_image E s) = Val None /\
   files (state_of (capture_image E s)) = files s).
Proof.
  intros available.
  change (wp (capture_image E)
             (fun r s' _ =>
                (available ->
                 r = Val (Some (image_path_at E (clock s))) /\
                 files s' = image_path_at E (clock s) :: files s) /\
                (~ available -> r = Val None /\ files s' = files s)) s).
  unfold available, capture_image, os_makedirs, capture_file, time_time,
    image_path_at.
  wp_run; cbn [tick set_tick clock files set_files] in *.
  all: repeat match goal with
         | H : negb _ || bool_decide _ = _ |- _ =>
             first [ apply orb_false_iff in H;
                     let Hc := fresh in let Hp := fresh in
                     destruct H as [Hc Hp];
                     apply negb_false_iff in Hc;
                     apply bool_decide_eq_false in Hp
                   | apply orb_true_iff in H;
                     rewrite negb_true_iff, bool_decide_eq_true in H ]
         end.
  all: split;
    [ intros (Hc & Hp & Hm & Hw); try congruence; try tauto
    | intros Hno; try (split; reflexivity) ].
  all: try (split; reflexivity).
  all: try match goal with
           | H : _ \/ _ |- _ => destruct H; congruence
           end.
  all: exfalso;
    match goal with
    | H : ~ _ |- _ => apply H; repeat split; auto; congruence
    end.
Qed.

Lemma capture_image_outcome_witness :
  result_of (capture_image (deployment None motion) (ready 1000 0)) =
    Val (Some "captured_images/motion_20260101_120000.jpg") /\
  files (state_of (capture_image (deployment None motion) (ready 1000 0))) =
    ["captured_images/motion_20260101_120000.jpg"].
Proof.
  apply (capture_image_outcome (deployment None motion) (ready 1000 0)).
  repeat split; [discriminate].
Defined.

(** ** send_email_alert *)

(** X9: [send_email_alert] never raises and never retries.  It returns
    [True] only after the complete exchange with the server (connect,
    STARTTLS, login, send, quit, in this order) and then reports no failure;
    when it returns [False] it reports exactly one failure and does not
    claim the mail was sent.  A session that was opened is always closed. *)
Theorem send_email_alert_outcome (E : Env) (image_path : option string)
    (s : State) :
  let r := result_of (send_email_alert E image_path s) in
  let t := trace_of (send_email_alert E image_path s) in
  ((r = Val true /\
    List.filter network_event t =
      [EvSmtpConnect; EvSmtpStarttls; EvSmtpLogin;
       EvSmtpSendMessage (default "" image_path); EvSmtpQuit] /\
    List.filter send_failure_report t = [] /\
    In (EvPrint MsgEmailSent) t) \/
   (r = Val false /\
    (exists m, List.filter send_failure_report t = [EvPrint m]) /\
    ~ In (EvPrint MsgEmailSent) t)) /\
  length (List.filter smtp_connect t) <= 1 /\
  (In EvSmtpStarttls t -> In EvSmtpQuit t).
Proof.
  intros r t. subst r t.
  change (wp (send_email_alert E image_path)
             (fun r _ t =>
                ((r = Val true /\
                  List.filter network_event t =
                    [EvSmtpConnect; EvSmtpStarttls; EvSmtpLogin;
                     EvSmtpSendMessage (default "" image_path); EvSmtpQuit] /\
                  List.filter send_failure_report t = [] /\
                  In (EvPrint MsgEmailSent) t) \/
                 (r = Val false /\
                  (exists m, List.filter send_failure_report t = [EvPrint m]) /\
                  ~ In (EvPrint MsgEmailSent) t)) /\
                length (List.filter smtp_connect t) <= 1 /\
                (In EvSmtpStarttls t -> In EvSmtpQuit t)) s).
  unfold send_email_alert, os_path_exists, config_item. wp_run.
  all: cbn; split;
    [ first [ left; repeat split; auto 12; fail
            | right; split; [reflexivity |]; split;
              [eexists; reflexivity | intuition discriminate] ]
    | split; [lia | intuition (try discriminate)] ].
Qed.

Lemma send_email_alert_outcome_witness :
  In EvSmtpQuit
     (trace_of (send_email_alert
                  (deployment None
                     (fun k ev => match ev with
                                  | EvSmtpLogin => fails SMTPAuthenticationError
                                  | _ => answers false
                                  end))
                  (Some "captured_images/motion_20260101_120000.jpg")
                  (mkState 1000 0 false
                     ["captured_images/motion_20260101_120000.jpg"]
                     (Some Picamera2Object) true true true
                     (parse_lines ["SENDER_EMAIL=a@example.com";
                                   "EMAIL_PASSWORD=secret";
                                   "RECIPIENT_EMAIL=b@example.com"] ∅)
                     None 0))).
Proof.
  apply send_email_alert_outcome. vm_compute. tauto.
Defined.

(** X10: when [load_email_config] is run with notifications off and turns
    them on, the three required fields are in the dictionary with non-empty
    values, and they stay there however long the loop runs: the lookups
    [email_config['SENDER_EMAIL']], [email_config['RECIPIENT_EMAIL']] and
    [email_config['EMAIL_PASSWORD']] of [send_email_alert] cannot fail. *)
Theorem enabled_notifications_have_their_fields (E : Env) (s : State) :
  email_configured s = false ->
  let s' := state_of (load_email_config E s) in
  email_configured s' = true ->
  forall n f,
    In f required_fields ->
    exists v,
      result_of (config_item f (state_of (monitoring_loop E n s'))) = Val v /\
      v <> "".
Proof.
  intros Hoff s' Hon n f Hin.
  assert (Hvalid : forall f, In f required_fields ->
                             valid_field (email_config s') f).
  { revert Hon. unfold s'.
    change (wp (load_email_config E)
               (fun _ s1 _ =>
                  email_configured s1 = true ->
                  forall f, In f required_fields ->
                            valid_field (email_config s1) f) s).
    unfold load_email_config.
    destruct (env_file E) as [lines |]; wp_run;
      cbn [email_configured email_config set_email_configured
           set_email_config set_tick] in *; try congruence.
    intros _. apply missing_fields_nil. assumption. }
  destruct (Hvalid f Hin) as (v & Hv & Hne & _).
  exists v. split; [| exact Hne].
  pose proof (monitoring_loop_globals E n s') as Hg.
  assert (Hcfg : email_config (state_of (monitoring_loop E n s')) =
                 email_config s') by (unfold globals in Hg; congruence).
  unfold config_item, bind, get, result_of. cbn.
  rewrite Hcfg, Hv. reflexivity.
Qed.

Lemma enabled_notifications_witness :
  exists v,
    result_of (config_item
                 "EMAIL_PASSWORD"
                 (state_of (monitoring_loop
                    (deployment (Some ["SENDER_EMAIL=a@example.com";
                                       "EMAIL_PASSWORD=secret";
                                       "RECIPIENT_EMAIL=b@example.com"]) still)
                    2
                    (state_of (load_email_config
                       (deployment (Some ["SENDER_EMAIL=a@example.com";
                                          "EMAIL_PASSWORD=secret";
                                          "RECIPIENT_EMAIL=b@example.com"]) still)
                       (initial_state 1000 [] false)))))) = Val v /\
    v <> "".
Proof.
  apply (enabled_notifications_have_their_fields
           (deployment (Some ["SENDER_EMAIL=a@example.com";
                              "EMAIL_PASSWORD=secret";
                              "RECIPIENT_EMAIL=b@example.com"]) still)
           (initial_state 1000 [] false)).
  - reflexivity.
  - reflexivity.
  - right. left. reflexivity.
Defined.

(** ** main and the entry point *)

Lemma setup_gpio_full (E : Env) s :
  wp (setup_gpio E)
     (fun r s' t =>
        r = result_of (setup_gpio E s) /\
        Forall not_a_sensor_read t /\
        ((r = Val true /\ gpio_initialized s' = true) \/
         r = Val false \/ r = Exn (SystemExit 0))) s.
Proof.
  pose proof (setup_gpio_spec E s) as H. unfold wp in *.
  split; [reflexivity |]. split; [apply setup_gpio_emits |].
  destruct H as (_ & _ & [(H & Hg & _) | [(H & _) | (H & _)]]); auto.
Qed.

Lemma setup_camera_full (E : Env) s :
  wp (setup_camera E)
     (fun r s' t =>
        Forall not_a_sensor_read t /\
        gpio_initialized s' = gpio_initialized s /\
        ((exists b, r = Val b) \/ r = Exn (SystemExit 0))) s.
Proof.
  pose proof (setup_camera_spec E s) as H. unfold wp in *.
  split.
  - unfold setup_camera.
    repeat (emits_step; try exact I).
    + apply time_sleep_emits; try exact I. apply shutdown_not_a_sensor_read.
    + destruct e as [[] | |]; repeat (emits_step; try exact I).
  - destruct H as (Hg & [(H & _) | [(H & _) | (H & _)]]); eauto.
Qed.

Lemma load_email_config_full (E : Env) s :
  wp (load_email_config E)
     (fun r s' t =>
        Forall not_a_sensor_read t /\
        gpio_initialized s' = gpio_initialized s /\
        exists b, r = Val b) s.
Proof.
  unfold load_email_config.
  destruct (env_file E); wp_run;
    (split; [repeat (apply List.Forall_cons; [exact I |]); apply List.Forall_nil |]);
    (split; [reflexivity | eauto]).
Qed.

Lemma main_spec (E : Env) n s : wp (main E n) (main_post E s) s.
Proof.
  unfold main, main_post. wp_step.
  eapply wp_bind_spec; [apply setup_gpio_full |].
  intros r s1 t1 (Hr & Ht1 & Hcase). rewrite <- Hr.
  destruct Hcase as [(-> & Hg1) | [-> | ->]].
  2: { cbn [negb]. wp_run. left. split; [| auto].
       apply List.Forall_cons; [exact I |].
       apply Forall_app_2; [exact Ht1 |].
       apply List.Forall_cons; [exact I | apply List.Forall_nil]. }
  2: { left. split; [| auto]. apply List.Forall_cons; [exact I | exact Ht1]. }
  cbn [negb].
  eapply wp_bind_spec; [apply setup_camera_full |].
  intros r s2 t2 (Ht2 & Hg2 & [[camera_ok ->] | ->]).
  2: { left. split; [| auto]. apply List.Forall_cons; [exact I |].
       apply Forall_app_2; assumption. }
  assert (Hwarn :
    wp (if negb camera_ok then print MsgCameraInitFailed else ret tt)
       (fun r s3 t3 => r = Val tt /\ s3 = s2 /\ Forall not_a_sensor_read t3) s2).
  { destruct camera_ok; cbn [negb]; wp_step; repeat split;
      repeat (apply List.Forall_cons; [exact I |]); apply List.Forall_nil. }
  eapply wp_bind_spec; [exact Hwarn |].
  intros r s3 t3 (-> & -> & Ht3).
  eapply wp_bind_spec; [apply load_email_config_full |].
  intros r s4 t4 (Ht4 & Hg4 & [b ->]).
  assert (Hdir :
    wp (try_except
          (os_makedirs E (SAVE_DIR E) ;; print MsgImagesSavedTo ;; ret true)
          is_Exception
          (fun _ => print MsgErrorCreatingSaveDir ;; cleanup E ;; ret false))
       (fun r s5 t5 =>
          Forall not_a_sensor_read t5 /\
          gpio_initialized s5 = gpio_initialized s4 /\
          ((r = Val true /\ In (EvPrint MsgImagesSavedTo) t5) \/
           r = Val false)) s4).
  { unfold os_makedirs. apply wp_try_except. apply wp_bind. apply wp_call.
    destruct (r_exc (oracle E (tick s4) (EvMakedirs (SAVE_DIR E)))).
    - cbn beta iota delta [is_Exception]. wp_step.
      eapply wp_bind_spec; [apply cleanup_spec |].
      intros r s5 t5 (-> & [Hg5 _] & _ & _ & _ & Hsh).
      wp_step. split; [| split; [| auto]].
      + apply List.Forall_cons; [exact I |]. apply List.Forall_cons; [exact I |].
        rewrite ?app_nil_r.
        eapply List.Forall_impl; [apply shutdown_not_a_sensor_read | exact Hsh].
      + apply globals_gpio in Hg5. exact Hg5.
    - wp_run. split; [| split; [reflexivity |]].
      + repeat (apply List.Forall_cons; [exact I |]). apply List.Forall_nil.
      + left. split; [reflexivity |]. right. left. reflexivity. }
  eapply wp_bind_spec; [exact Hdir |].
  intros r s5 t5 (Ht5 & Hg5 & [(-> & Hsaved) | ->]).
  2: { cbn [negb]. wp_step. left. split; [| auto].
       apply List.Forall_cons; [exact I |].
       repeat (apply Forall_app_2; [assumption |]).
       apply List.Forall_nil. }
  cbn [negb]. wp_step. wp_step. wp_step.
  apply wp_bind. apply wp_try_except.
  set (s6 := set_motion_detected_time 0 s5).
  pose proof (monitoring_loop_invariant E
                (fun s' => globals s' = globals s6) (fun _ => True)) as Hloop.
  destruct (Hloop) with (n := n) (s := s6) as (Hg6 & _ & Hres).
  { intros s0 H0. split.
    - pose proof (loop_iteration_spec E s0) as H. unfold wp, loop_post in H.
      destruct H as [Hg _]. congruence.
    - apply List.Forall_forall. auto. }
  { reflexivity. }
  unfold wp.
  assert (Hflag : gpio_initialized (state_of (monitoring_loop E n s6)) = true).
  { rewrite (globals_gpio _ _ Hg6). unfold s6. cbn. congruence. }
  assert (Hin : forall t',
            In (EvPrint MsgImagesSavedTo)
               (EvPrint MsgBanner
                :: t1 ++ t2 ++ t3 ++ t4 ++ t5 ++
                   EvPrint (MsgSystemReady (email_configured s5)) :: t')).
  { intros t'. right. do 4 (apply in_or_app; right).
    apply in_or_app. left. exact Hsaved. }
  destruct Hres as [Hres | Hres]; rewrite Hres;
    cbn beta iota delta [is_KeyboardInterrupt]; right; auto 6.
Qed.

(** X11: main reads the sensor only after [setup_gpio] has returned [True]
    and the output directory has been created, and from then on
    [gpio_initialized] is set; whenever main returns, it returns 1 and has
    not read the sensor: once the signal handlers are installed, leaving the
    loop by [return 0] needs a [KeyboardInterrupt] that never comes. *)
Theorem main_enters_the_loop_only_when_ready (E : Env) (n : nat) (s : State) :
  (In (EvGpioInput PIR_PIN) (trace_of (main E n s)) ->
   result_of (setup_gpio E s) = Val true /\
   In (EvPrint MsgImagesSavedTo) (trace_of (main E n s)) /\
   gpio_initialized (state_of (main E n s)) = true) /\
  (forall code,
     result_of (main E n s) = Val code ->
     code = 1%Z /\ ~ In (EvGpioInput PIR_PIN) (trace_of (main E n s))).
Proof.
  pose proof (main_spec E n s) as H. unfold wp, main_post in H.
  assert (Hnot : Forall not_a_sensor_read (trace_of (main E n s)) ->
                 ~ In (EvGpioInput PIR_PIN) (trace_of (main E n s))).
  { intros Hall Hin. rewrite List.Forall_forall in Hall.
    exact (Hall _ Hin). }
  split.
  - intros Hin. destruct H as [[Hall _] | (Hs & Hg & Hsaved & _)].
    + exfalso. exact (Hnot Hall Hin).
    + auto.
  - intros code Hret. rewrite Hret in H.
    destruct H as [[Hall [Hr | Hr]] | (_ & _ & _ & [Hr | Hr])];
      try discriminate.
    injection Hr as ->. auto.
Qed.

Lemma main_enters_the_loop_witness :
  gpio_initialized
    (state_of (main (deployment None still) 2 (initial_state 1000 [] false))) =
    true.
Proof.
  apply (main_enters_the_loop_only_when_ready
           (deployment None still) 2 (initial_state 1000 [] false)).
  vm_compute. tauto.
Defined.

Lemma cleanup_announces (E : Env) s :
  exists t', trace_of (cleanup E s) = EvPrint MsgShuttingDown :: t'.
Proof.
  change (wp (cleanup E)
             (fun _ _ t => exists t', t = EvPrint MsgShuttingDown :: t') s).
  unfold cleanup. wp_step. unfold wp. eauto.
Qed.

(** *** Runs without a signal *)

Section NeverExits.

Lemma never_exits_ret {A} (a : A) : never_exits (ret a).
Proof. intros s c H. discriminate H. Qed.

Lemma never_exits_raise {A} (e : exc) : never_exits (@raise A (Exception e)).
Proof. intros s c H. discriminate H. Qed.

Lemma never_exits_get {A} (f : State -> A) : never_exits (get f).
Proof. intros s c H. discriminate H. Qed.

Lemma never_exits_modify (f : State -> State) : never_exits (modify f).
Proof. intros s c H. discriminate H. Qed.

Lemma never_exits_emit (ev : event) : never_exits (emit ev).
Proof. intros s c H. discriminate H. Qed.

Lemma never_exits_print (m : msg) : never_exits (print m).
Proof. intros s c H. discriminate H. Qed.

Lemma never_exits_call (E : Env) (ev : event) : never_exits (call E ev).
Proof.
  intros s c. unfold call, result_of.
  destruct (r_exc (oracle E (tick s) ev)); cbn; discriminate.
Qed.

Lemma never_exits_bind {A B} (m : M A) (k : A -> M B) :
  never_exits m -> (forall a, never_exits (k a)) -> never_exits (bind m k).
Proof.
  intros Hm Hk s c. specialize (Hm s c). unfold bind, result_of in *.
  destruct (m s) as [[[a | e |] s1] t1]; cbn in *.
  - specialize (Hk a s1 c). unfold result_of in Hk.
    destruct (k a s1) as [[r2 s2] t2]; cbn in *. exact Hk.
  - intros H. apply Hm. injection H as ->. reflexivity.
  - discriminate.
Qed.

Lemma never_exits_try_except {A} (body : M A) (catches : exn -> bool)
    (handler : exn -> M A) :
  never_exits body -> (forall e, never_exits (handler e)) ->
  never_exits (try_except body catches handler).
Proof.
  intros Hb Hh s c. specialize (Hb s c). unfold try_except, result_of in *.
  destruct (body s) as [[[a | e |] s1] t1]; cbn in *; auto.
  destruct (catches e); cbn; auto.
  specialize (Hh e s1 c). unfold result_of in Hh.
  destruct (handler e s1) as [[r2 s2] t2]; cbn in *. exact Hh.
Qed.

Lemma never_exits_try_finally {A} (body : M A) (fin : M unit) :
  never_exits body -> never_exits fin ->
  never_exits (try_finally body fin).
Proof.
  intros Hb Hf s c. specialize (Hb s c). unfold try_finally, result_of in *.
  destruct (body s) as [[[a | e |] s1] t1]; cbn in *; try discriminate;
    specialize (Hf s1 c); unfold result_of in Hf;
    destruct (fin s1) as [[[u | e' |] s2] t2]; cbn in *;
    try discriminate; try exact Hb.
  all: intros H; apply Hf; injection H as ->; reflexivity.
Qed.

Lemma never_exits_if {A} (b : bool) (m1 m2 : M A) :
  never_exits m1 -> never_exits m2 -> never_exits (if b then m1 else m2).
Proof. destruct b; auto. Qed.

Lemma never_exits_time_sleep (E : Env) (d : Q) :
  no_signal E -> never_exits (time_sleep E d).
Proof.
  intros Hquiet s c. unfold time_sleep. rewrite Hquiet. discriminate.
Qed.

End NeverExits.

Ltac never_exits_step :=
  first
    [ apply never_exits_time_sleep; assumption
    | apply never_exits_bind; [| intros ?]
    | apply never_exits_try_except; [| intros ?]
    | apply never_exits_try_finally
    | apply never_exits_if
    | apply never_exits_ret
    | apply never_exits_raise
    | apply never_exits_get
    | apply never_exits_modify
    | apply never_exits_print
    | apply never_exits_emit
    | apply never_exits_call
    | match goal with
      | |- never_exits (match ?x with _ => _ end) => destruct x
      end ].

Lemma setup_gpio_attempts_never_exits (E : Env) remaining attempt :
  no_signal E -> never_exits (setup_gpio_attempts E remaining attempt).
Proof.
  intros Hquiet. revert attempt.
  induction remaining as [| n IH]; intros attempt; cbn [setup_gpio_attempts].
  - apply never_exits_ret.
  - apply never_exits_bind.
    + unfold GPIO_cleanup, GPIO_setmode, GPIO_setup, GPIO_output.
      repeat never_exits_step.
    + intros [b |]; [apply never_exits_ret | apply IH].
Qed.

Lemma cleanup_never_exits (E : Env) : never_exits (cleanup E).
Proof.
  intros s c. pose proof (cleanup_spec E s) as H. unfold wp in H.
  destruct H as (-> & _). discriminate.
Qed.

Lemma loop_iteration_never_exits (E : Env) :
  no_signal E -> never_exits (loop_iteration E).
Proof.
  intros Hquiet.
  unfold loop_iteration, detection_cycle, respond, GPIO_input, time_time,
    led_on, led_off, capture_image, send_email_alert, config_item,
    os_makedirs, os_path_exists, capture_file, GPIO_output.
  repeat never_exits_step.
Qed.

Lemma monitoring_loop_never_exits (E : Env) n :
  no_signal E -> never_exits (monitoring_loop E n).
Proof.
  intros Hquiet. induction n as [| n IH]; cbn [monitoring_loop].
  - intros s c H. discriminate H.
  - apply never_exits_bind; [| intros _; exact IH].
    apply loop_iteration_never_exits. exact Hquiet.
Qed.

(** Without a signal main is not ended by [sys.exit]. *)
Lemma main_never_exits (E : Env) n : no_signal E -> never_exits (main E n).
Proof.
  intros Hquiet.
  unfold main, setup_gpio, force_release_gpio, setup_camera,
    load_email_config, os_makedirs.
  repeat first
    [ apply setup_gpio_attempts_never_exits; assumption
    | apply monitoring_loop_never_exits; assumption
    | apply cleanup_never_exits
    | never_exits_step ].
Qed.

(** X12: in a run during which no signal is delivered, the script ends only
    with exit status 1, after the teardown has run and the closing message
    was printed; otherwise it keeps running.  Without a signal there is no
    way to exit status 0. *)
Theorem without_a_signal_every_exit_is_with_status_1
    (E : Env) (n : nat) (s : State) :
  no_signal E ->
  result_of (entry_point E n s) = StillRunning \/
  (result_of (entry_point E n s) = Exn (SystemExit 1) /\
   In (EvPrint MsgShuttingDown) (trace_of (entry_point E n s)) /\
   In (EvPrint MsgSystemStopped) (trace_of (entry_point E n s))).
Proof.
  intros Hquiet.
  pose proof (main_spec E n s) as Hmain. unfold wp, main_post in Hmain.
  pose proof (main_never_exits E n Hquiet s 0%Z) as Hstay.
  assert (Hres : result_of (main E n s) = Val 1%Z \/
                 result_of (main E n s) = StillRunning).
  { destruct Hmain as [[_ [Hr | Hr]] | (_ & _ & _ & [Hr | Hr])]; auto;
      contradiction. }
  clear Hmain Hstay.
  change (wp (entry_point E n)
             (fun r _ t =>
                r = StillRunning \/
                (r = Exn (SystemExit 1) /\
                 In (EvPrint MsgShuttingDown) t /\
                 In (EvPrint MsgSystemStopped) t)) s).
  assert (Hfin : forall s1 (t1 : list event),
    wp (cleanup E ;; print MsgSystemStopped ;;
        c <- read_exit_code ;; @sys_exit unit c)
       (fun r2 s2 t2 =>
          In (EvPrint MsgShuttingDown) (t1 ++ t2) /\
          In (EvPrint MsgSystemStopped) (t1 ++ t2) /\
          match exit_code s1 with
          | Some c => r2 = Exn (SystemExit c)
          | None => r2 = Exn (Exception NameError)
          end) s1).
  { intros s1 t1.
    destruct (cleanup_announces E s1) as [t' Ht'].
    eapply wp_bind_spec; [apply wp_self |].
    intros r s2 t2 (Hr & Hs & Ht).
    pose proof (cleanup_spec E s1) as Hc. unfold wp in Hc.
    destruct Hc as (Hcres & [Hg _] & _).
    rewrite <- Hs in Hg. subst r. rewrite Hcres. cbn beta iota.
    wp_step. unfold read_exit_code. apply wp_bind. wp_step.
    assert (He : exit_code s2 = exit_code s1)
      by (unfold globals in Hg; congruence).
    rewrite He. unfold sys_exit.
    destruct (exit_code s1) as [c |]; wp_run;
      (split; [| split; [| reflexivity]]);
      apply in_or_app; right; rewrite Ht, Ht'; cbn; rewrite ?app_nil_r.
    - left. reflexivity.
    - right. apply in_or_app. right. left. reflexivity.
    - left. reflexivity.
    - right. apply in_or_app. right. left. reflexivity. }
  unfold entry_point. apply wp_try_finally. apply wp_try_except.
  eapply wp_bind_spec; [apply wp_self |].
  intros r s1 t1 (-> & -> & ->).
  destruct Hres as [Hr | Hr]; rewrite Hr.
  - wp_step.
    eapply wp_mono; [apply (Hfin _ (trace_of (main E n s) ++ [])) |].
    intros r2 s2 t2 (H1 & H2 & H3). cbn [exit_code set_exit_code] in H3.
    subst r2. right.
    split; [reflexivity | split; assumption].
  - left. reflexivity.
Qed.

Lemma without_a_signal_witness :
  result_of (entry_point (deployment None no_directory) 1
                         (initial_state 1000 [] false))
  = Exn (SystemExit 1).
Proof.
  destruct (without_a_signal_every_exit_is_with_status_1
              (deployment None no_directory) 1 (initial_state 1000 [] false))
    as [H | [H _]].
  - intros k ev. reflexivity.
  - vm_compute in H. discriminate H.
  - exact H.
Defined.

(** ** More about the loop *)

Lemma wp_conj {A} (m : M A) (P Q : res A -> State -> list event -> Prop) s :
  wp m P s -> wp m Q s -> wp m (fun r s' t => P r s' t /\ Q r s' t) s.
Proof. unfold wp. auto. Qed.

Lemma In_existsb_eqb (p : string) (l : list string) :
  In p l -> existsb (String.eqb p) l = true.
Proof.
  intros H. apply existsb_exists. exists p. split; [exact H |].
  apply String.eqb_refl.
Qed.

(** With notifications enabled and the file on disk, neither guard of
    [send_email_alert] fires. *)
Lemma send_email_alert_guards_pass (E : Env) (p : string) s :
  email_configured s = true -> truthy (Some p) = true -> In p (files s) ->
  wp (send_email_alert E (Some p))
     (fun _ _ t => Forall (fun ev => guard_message ev = false) t) s.
Proof.
  intros Hon Htruthy Hin.
  unfold send_email_alert, os_path_exists, config_item.
  rewrite Htruthy. wp_run; try all_events.
  - rewrite Hon in *. discriminate.
  - rewrite (In_existsb_eqb _ _ Hin) in *. discriminate.
Qed.

Lemma led_off_turns_the_led_off (E : Env) s :
  wp (led_off E)
     (fun _ s' _ =>
        led_off_never_fails E -> gpio_initialized s = true -> led s' = false) s.
Proof.
  unfold led_off, GPIO_output. wp_run; intros Hok Hg; try reflexivity;
    try congruence.
  all: match goal with
       | H : r_exc _ = Some _ |- _ => rewrite Hok in H; discriminate
       end.
Qed.

Lemma interrupted_sleep_turns_the_led_off (E : Env) d s :
  wp (time_sleep E d)
     (fun r s' _ =>
        led_off_never_fails E -> gpio_initialized s = true ->
        r = Exn (SystemExit 0) -> led s' = false) s.
Proof.
  apply wp_time_sleep.
  destruct (r_signal (oracle E (tick s) (EvSleep d))).
  - unfold signal_handler. do 3 wp_step.
    eapply wp_bind_spec; [apply cleanup_calls |].
    intros r s1 t1 (-> & _ & _ & _ & Hw & _).
    unfold sys_exit. wp_step. intros Hok Hg _. apply Hw; [exact Hg | apply Hok].
  - intros _ _ H. discriminate.
Qed.

Lemma guard_free_capture ev :
  capture_event ev = true -> guard_message ev = false.
Proof.
  destruct ev as [[] | | | | | | | | | | | | | | | | | | | | | | |]; cbn;
    try reflexivity; discriminate.
Qed.

Lemma guard_free_shutdown ev :
  shutdown_event ev = true -> guard_message ev = false.
Proof.
  destruct ev as [[] | | | | | | | | | | | | | | | | | | | | | | |]; cbn;
    try reflexivity; discriminate.
Qed.

Lemma guard_free_on_phase s t :
  on_phase s t -> Forall (fun ev => guard_message ev = false) t.
Proof.
  unfold on_phase. destruct (gpio_initialized s).
  - intros (m & -> & [-> | ->]); all_events.
  - intros ->. apply List.Forall_nil.
Qed.

Lemma guard_free_off_phase s t :
  off_phase s t -> Forall (fun ev => guard_message ev = false) t.
Proof.
  unfold off_phase. destruct (gpio_initialized s).
  - intros (m & -> & [-> | ->]); all_events.
  - intros ->. apply List.Forall_nil.
Qed.

(** The response again: the guards, the clock, and the LED. *)
Lemma respond_more (E : Env) now s :
  wp (respond E now)
     (fun r s' t =>
        Forall (fun ev => guard_message ev = false) t /\
        ((r = Val tt /\ motion_detected_time s' = now /\
          clock s' = (clock s + LED_ON_TIME E)%Q) \/
         (r = Exn (SystemExit 0) /\
          motion_detected_time s' = motion_detected_time s /\
          clock s' = clock s)) /\
        (led_off_never_fails E -> gpio_initialized s = true ->
         led s' = false)) s.
Proof.
  unfold respond. wp_step.
  eapply wp_bind_spec; [apply led_on_spec |].
  intros r s1 t1 (-> & [Hg1 Hm1] & Hf1 & Hc1 & Hon & _).
  eapply wp_bind_spec; [apply capture_image_spec |].
  intros r s2 t2 ([Hg2 Hm2] & Hc2 & _ & Hcap & _ & Hres & _).
  assert (Hcap' : Forall (fun ev => guard_message ev = false) t2)
    by (eapply List.Forall_impl; [apply guard_free_capture | exact Hcap]).
  apply guard_free_on_phase in Hon.
  (* the hold and what follows it, from any state with the same globals *)
  assert (Hhold : forall s3 (t3 : list event),
    globals s3 = globals s -> motion_detected_time s3 = motion_detected_time s ->
    clock s3 = clock s ->
    Forall (fun ev => guard_message ev = false) t3 ->
    wp (print MsgLedWillStayOn ;; time_sleep E (LED_ON_TIME E) ;;
        led_off E ;; modify (set_motion_detected_time now) ;;
        print MsgReadyForNext)
       (fun r s' t =>
          Forall (fun ev => guard_message ev = false)
                 (EvPrint MsgMotionDetected :: t1 ++ t2 ++ t3 ++ t) /\
          ((r = Val tt /\ motion_detected_time s' = now /\
            clock s' = (clock s + LED_ON_TIME E)%Q) \/
           (r = Exn (SystemExit 0) /\
            motion_detected_time s' = motion_detected_time s /\
            clock s' = clock s)) /\
          (led_off_never_fails E -> gpio_initialized s = true ->
           led s' = false)) s3).
  { intros s3 t3 Hg3 Hm3 Hc3 Ht3.
    assert (Hpre : forall t,
              Forall (fun ev => guard_message ev = false) t ->
              Forall (fun ev => guard_message ev = false)
                     (EvPrint MsgMotionDetected :: t1 ++ t2 ++ t3 ++ t)).
    { intros t Ht. apply List.Forall_cons; [reflexivity |].
      repeat (apply Forall_app_2; [assumption |]). exact Ht. }
    wp_step.
    eapply wp_bind_spec;
      [apply wp_conj;
       [apply time_sleep_spec | apply interrupted_sleep_turns_the_led_off] |].
    intros r4 s4 t4 (([Hg4 Hm4] & _ & Hsl) & Hled4).
    destruct Hsl as [(-> & -> & Hc4 & _) | (-> & Hc4 & _ & t' & -> & Ht')].
    - eapply wp_bind_spec;
        [apply wp_conj; [apply led_off_spec | apply led_off_turns_the_led_off] |].
      intros r5 s5 t5 ((-> & [Hg5 Hm5] & _ & Hc5 & Hoff & _) & Hled5).
      apply guard_free_off_phase in Hoff.
      wp_run. split; [| split].
      + apply Hpre. repeat (apply List.Forall_cons; [reflexivity |]).
        apply Forall_app_2; [exact Hoff |]. all_events.
      + left. cbn. split; [reflexivity |]. split; [reflexivity |]. congruence.
      + intros Hok Hg. cbn. apply Hled5; [exact Hok |].
        rewrite (globals_gpio _ _ Hg4), (globals_gpio _ _ Hg3). exact Hg.
    - split; [| split].
      + apply Hpre. repeat (apply List.Forall_cons; [reflexivity |]).
        eapply List.Forall_impl; [apply guard_free_shutdown | exact Ht'].
      + right. split; [reflexivity |]. split; congruence.
      + intros Hok Hg. apply Hled4; [exact Hok | | reflexivity].
        rewrite (globals_gpio _ _ Hg3). exact Hg. }
  assert (Hg02 : globals s2 = globals s) by congruence.
  assert (Hm02 : motion_detected_time s2 = motion_detected_time s) by congruence.
  assert (Hc02 : clock s2 = clock s) by congruence.
  destruct Hres as [(-> & _ & _) | (path & -> & Htr & Hf2 & _)].
  - cbn [truthy]. wp_step. wp_step.
    eapply wp_mono; [apply (Hhold s2 [] Hg02 Hm02 Hc02 (List.Forall_nil _)) |].
    intros r' s' t H. exact H.
  - rewrite Htr. cbv beta iota. wp_step. wp_step. wp_step.
    destruct (email_configured s2) eqn:Hec.
    + eapply wp_bind_spec;
        [apply wp_conj;
         [apply send_email_alert_spec
         | apply (send_email_alert_guards_pass E path s2 Hec Htr);
           rewrite Hf2; left; reflexivity] |].
      intros r3 s3 t3 (([Hg3 Hm3] & _ & Hc3 & _ & [b ->] & _) & Hlive).
      wp_step.
      eapply wp_mono;
        [apply (Hhold s3 (EvPrint (MsgSavedTo (default "" (Some path))) :: t3 ++ []));
         try congruence |].
      * apply List.Forall_cons; [reflexivity |]. rewrite app_nil_r. exact Hlive.
      * intros r' s' t H. cbn [app] in *. rewrite <- !app_assoc in *.
        cbn [app] in *. exact H.
    + wp_step.
      eapply wp_mono;
        [apply (Hhold s2 [EvPrint (MsgSavedTo (default "" (Some path)))]
                  Hg02 Hm02 Hc02); all_events |].
      intros r' s' t H. exact H.
Qed.

Lemma sleep_more (E : Env) d s :
  (0 <= d)%Q ->
  wp (time_sleep E d)
     (fun r s' t =>
        (r = Val tt \/ r = Exn (SystemExit 0)) /\
        Forall (fun ev => guard_message ev = false) t /\
        kept s s' /\ (clock s <= clock s')%Q /\
        (led s = false -> led s' = false)) s.
Proof.
  intros Hd. eapply wp_mono; [apply time_sleep_spec |].
  intros r s' t
    (Hk & _ & [(-> & -> & Hc & Hl) | (-> & Hc & Hl & t' & -> & Ht')]).
  - split; [left; reflexivity |]. split; [all_events |].
    split; [exact Hk |]. split; [rewrite Hc; lra | congruence].
  - split; [right; reflexivity |].
    split.
    { do 2 (apply List.Forall_cons; [reflexivity |]).
      eapply List.Forall_impl; [apply guard_free_shutdown | exact Ht']. }
    split; [exact Hk |]. split; [rewrite Hc; lra | exact Hl].
Qed.

Lemma cooled_down_later (E : Env) s s' :
  motion_detected_time s' = motion_detected_time s ->
  (clock s <= clock s')%Q ->
  cooled_down E s = true -> cooled_down E s' = true.
Proof.
  unfold cooled_down. intros Hm Hc H.
  apply Qgtb_lt. apply Qgtb_lt in H. rewrite Hm. lra.
Qed.

Lemma cooled_down_after_hold (E : Env) s s' :
  (COOLDOWN_TIME E < LED_ON_TIME E)%Q ->
  (clock s + LED_ON_TIME E <= clock s')%Q ->
  motion_detected_time s' = clock s ->
  cooled_down E s' = true.
Proof.
  unfold cooled_down. intros Hlt Hc Hm.
  apply Qgtb_lt. rewrite Hm. lra.
Qed.

(** One pass of the loop: the guards of the notifier, the cooldown and the
    LED. *)
Lemma loop_iteration_more (E : Env) s :
  wp (loop_iteration E)
     (fun r s' t =>
        Forall (fun ev => guard_message ev = false) t /\
        gpio_initialized s' = gpio_initialized s /\
        ((COOLDOWN_TIME E < LED_ON_TIME E)%Q ->
         cooled_down E s = true -> cooled_down E s' = true) /\
        (led_off_never_fails E -> gpio_initialized s = true ->
         led s = false -> led s' = false)) s.
Proof.
  assert (Hidle : forall (d : Q) (t0 : list event),
    (0 <= d)%Q -> Forall (fun ev => guard_message ev = false) t0 ->
    wp (time_sleep E d)
       (fun r s' t =>
          (r = Val tt \/ r = Exn (SystemExit 0)) /\
          Forall (fun ev => guard_message ev = false) (t0 ++ t) /\
          gpio_initialized s' = gpio_initialized s /\
          ((COOLDOWN_TIME E < LED_ON_TIME E)%Q ->
           cooled_down E s = true -> cooled_down E s' = true) /\
          (led_off_never_fails E -> gpio_initialized s = true ->
           led s = false -> led s' = false))
       (set_tick (S (tick s)) s)).
  { intros d t0 Hd Ht0.
    eapply wp_mono; [apply (sleep_more E d); exact Hd |].
    intros r s' t (Hr & Ht & [Hg Hm] & Hc & Hl).
    split; [exact Hr |].
    split; [apply Forall_app_2; assumption |].
    split; [apply (globals_gpio _ _ Hg) |].
    split; [intros _; apply cooled_down_later; assumption |].
    intros _ _. exact Hl. }
  unfold loop_iteration. apply wp_try_except. unfold detection_cycle, GPIO_input.
  apply wp_bind. apply wp_bind. apply wp_call_last.
  destruct (r_exc (oracle E (tick s) (EvGpioInput PIR_PIN))) as [e |] eqn:Hexc.
  - cbn beta iota delta [is_Exception]. wp_step.
    eapply wp_mono;
      [apply (Hidle 1%Q [EvGpioInput PIR_PIN; EvPrint MsgErrorInMainLoop]);
       [lra | all_events] |].
    intros r s' t (_ & H). exact H.
  - cbn beta iota. wp_step.
    destruct (r_bool (oracle E (tick s) (EvGpioInput PIR_PIN))) eqn:Hact;
      cbn [andb].
    + unfold time_time. wp_step. wp_step. wp_step.
      change (Qgtb (clock (set_tick (S (tick s)) s) -
                    motion_detected_time (set_tick (S (tick s)) s))
                   (COOLDOWN_TIME E))
        with (cooled_down E s).
      destruct (cooled_down E s) eqn:Hcool.
      * eapply wp_mono;
          [apply wp_conj;
           [apply (respond_spec E (clock (set_tick (S (tick s)) s))
                                (set_tick (S (tick s)) s))
           | apply (respond_more E (clock (set_tick (S (tick s)) s))
                                 (set_tick (S (tick s)) s))] |].
        intros r1 s1 t1 ((Hg1 & _) & Ht1 & Hend & Hled1).
        apply globals_gpio in Hg1. cbn in Hg1, Hend, Hled1.
        destruct Hend as [(-> & Hm1 & Hc1) | (-> & Hm1 & Hc1)].
        -- eapply wp_mono; [apply (sleep_more E (1 # 10)); lra |].
           intros r s' t (Hr & Ht & [Hg Hm] & Hc & Hl).
           apply globals_gpio in Hg.
           assert (Hpost :
             Forall (fun ev => guard_message ev = false)
                    (([EvGpioInput PIR_PIN] ++ []) ++ t1 ++ t) /\
             gpio_initialized s' = gpio_initialized s /\
             ((COOLDOWN_TIME E < LED_ON_TIME E)%Q ->
              true = true -> cooled_down E s' = true) /\
             (led_off_never_fails E -> gpio_initialized s = true ->
              led s = false -> led s' = false)).
           { split.
             { cbn [app]. apply List.Forall_cons; [reflexivity |].
               apply Forall_app_2; assumption. }
             split; [congruence |].
             split.
             { intros Hlt _. apply (cooled_down_after_hold E s); [exact Hlt | |].
               - rewrite <- Hc1. exact Hc.
               - congruence. }
             intros Hok Hgp _. apply Hl. apply Hled1; assumption. }
           destruct Hr as [-> | ->]; cbn beta iota delta [is_Exception];
             exact Hpost.
        -- cbn beta iota delta [is_Exception].
           split.
           { cbn [app]. apply List.Forall_cons; [reflexivity |].
             rewrite ?app_nil_r. exact Ht1. }
           split; [exact Hg1 |].
           split.
           { intros _ _. apply (cooled_down_later E s); [exact Hm1 | |].
             - rewrite Hc1. lra.
             - exact Hcool. }
           intros Hok Hgp _. apply Hled1; assumption.
      * wp_step.
        eapply wp_mono; [apply (Hidle (1 # 10) [EvGpioInput PIR_PIN]);
                         [lra | all_events] |].
        intros r s' t ([-> | ->] & H); cbn beta iota delta [is_Exception];
          cbn [app] in *; rewrite ?app_nil_r in *; exact H.
    + wp_step. wp_step.
      eapply wp_mono; [apply (Hidle (1 # 10) [EvGpioInput PIR_PIN]);
                       [lra | all_events] |].
      intros r s' t ([-> | ->] & H); cbn beta iota delta [is_Exception];
        cbn [app] in *; rewrite ?app_nil_r in *; exact H.
Qed.

(** ** The guards of the notifier are never taken *)

Lemma cleanup_unguarded (E : Env) : emits_only unguarded (cleanup E).
Proof.
  intros s. eapply List.Forall_impl; [apply guard_free_shutdown |].
  apply cleanup_emits.
Qed.

Lemma time_sleep_unguarded (E : Env) (d : Q) :
  emits_only unguarded (time_sleep E d).
Proof.
  apply time_sleep_emits; [reflexivity | reflexivity | apply guard_free_shutdown].
Qed.

Ltac unguarded_step :=
  first [ apply time_sleep_unguarded
        | apply cleanup_unguarded
        | emits_step; try reflexivity ].

Lemma setup_gpio_unguarded (E : Env) : emits_only unguarded (setup_gpio E).
Proof.
  unfold setup_gpio, force_release_gpio.
  apply emits_only_bind; [apply emits_only_emit; reflexivity |].
  intros _. generalize 0%nat. generalize MAX_RETRIES.
  intros remaining. induction remaining as [| n IH]; intros attempt;
    cbn [setup_gpio_attempts].
  - apply emits_only_ret.
  - apply emits_only_bind.
    + unfold GPIO_cleanup, GPIO_setmode, GPIO_setup, GPIO_output.
      repeat unguarded_step.
    + intros [b |]; [apply emits_only_ret | apply IH].
Qed.

Lemma setup_camera_unguarded (E : Env) : emits_only unguarded (setup_camera E).
Proof.
  unfold setup_camera. apply emits_only_try_except.
  - repeat unguarded_step.
  - intros [[] | |]; repeat unguarded_step.
Qed.

Lemma load_email_config_unguarded (E : Env) :
  emits_only unguarded (load_email_config E).
Proof.
  unfold load_email_config. apply emits_only_try_except.
  - destruct (env_file E); repeat unguarded_step.
    destruct (missing_fields _); repeat unguarded_step.
  - intros e. repeat unguarded_step.
Qed.

Lemma monitoring_loop_unguarded (E : Env) n :
  emits_only unguarded (monitoring_loop E n).
Proof.
  induction n as [| n IH]; cbn [monitoring_loop].
  - intros s. apply List.Forall_nil.
  - apply emits_only_bind; [| intros _; exact IH].
    intros s. pose proof (loop_iteration_more E s) as H. unfold wp in H.
    apply H.
Qed.

Lemma main_unguarded (E : Env) n : emits_only unguarded (main E n).
Proof.
  unfold main, os_makedirs.
  apply emits_only_bind; [apply emits_only_print; reflexivity | intros _].
  apply emits_only_bind; [apply setup_gpio_unguarded | intros gpio_ok].
  apply emits_only_if; [repeat unguarded_step |].
  apply emits_only_bind; [apply setup_camera_unguarded | intros camera_ok].
  apply emits_only_bind; [repeat unguarded_step | intros _].
  apply emits_only_bind; [apply load_email_config_unguarded | intros _].
  apply emits_only_bind; [repeat unguarded_step | intros dir_ok].
  apply emits_only_if; [repeat unguarded_step |].
  apply emits_only_bind; [apply emits_only_get | intros configured].
  apply emits_only_bind; [apply emits_only_print; reflexivity | intros _].
  apply emits_only_bind; [apply emits_only_modify | intros _].
  apply emits_only_bind; [| intros _; apply emits_only_ret].
  apply emits_only_try_except; [apply monitoring_loop_unguarded |].
  intros _. apply emits_only_ret.
Qed.

Lemma entry_point_unguarded (E : Env) n : emits_only unguarded (entry_point E n).
Proof.
  unfold entry_point, read_exit_code, sys_exit.
  apply emits_only_try_finally.
  - apply emits_only_try_except.
    + apply emits_only_bind; [apply main_unguarded | intros c].
      apply emits_only_modify.
    + intros _. repeat unguarded_step.
  - apply emits_only_bind; [apply cleanup_unguarded | intros _].
    apply emits_only_bind; [apply emits_only_print; reflexivity | intros _].
    apply emits_only_bind; [| intros c; apply emits_only_raise].
    apply emits_only_bind; [apply emits_only_get | intros [c |]];
      [apply emits_only_ret | apply emits_only_raise].
Qed.

(** X13: the two guards at the head of [send_email_alert] are never taken
    in a run of the program: neither the report that notifications are not
    configured nor the report that the image file is missing is ever
    printed, because main triggers the notification only with the flag set
    and with the path of a capture that has just succeeded. *)
Theorem notifier_guards_are_never_taken (E : Env) (n : nat) (s : State) :
  ~ In (EvPrint MsgEmailNotConfigured) (trace_of (entry_point E n s)) /\
  ~ In (EvPrint MsgImageFileNotFound) (trace_of (entry_point E n s)).
Proof.
  pose proof (entry_point_unguarded E n s) as H.
  rewrite List.Forall_forall in H.
  split; intros Hin; apply H in Hin; discriminate.
Qed.

(** ** The cooldown and the hold *)

Lemma accepted_pass_reports (E : Env) s :
  sensor_reads E s true -> cooled_down E s = true ->
  In (EvPrint MsgMotionDetected) (trace_of (loop_iteration E s)).
Proof.
  unfold sensor_reads. intros Hread Hcool.
  pose proof (loop_iteration_spec E s) as H. unfold wp, loop_post in H.
  destruct H as [_ H]. rewrite Hread, Hcool in H. cbn [andb] in H.
  destruct H as (r1 & s1 & t1 & Hrp & Hrest).
  destruct (respond_post_starts _ _ _ _ _ _ Hrp) as (Hmd & _).
  assert (Hsub : exists t2,
            trace_of (loop_iteration E s) = EvGpioInput PIR_PIN :: t1 ++ t2).
  { destruct r1; [destruct Hrest as (t2 & -> & _); eauto | |];
      destruct Hrest as (_ & _ & ->); exists []; rewrite app_nil_r;
      reflexivity. }
  destruct Hsub as [t2 ->]. right. apply in_or_app. left. exact Hmd.
Qed.

(** X14: when the hold is longer than the cooldown, as it is with the
    constants of the script (10 s against 2 s), and the loop is entered past
    the cooldown, every pass starts past the cooldown: the state reached
    after any number of passes passes the test of line 453, so an active
    sample read in the next pass is always accepted. *)
Theorem cooldown_never_rejects_when_the_hold_is_longer
    (E : Env) (n : nat) (s : State) :
  (COOLDOWN_TIME E < LED_ON_TIME E)%Q ->
  cooled_down E s = true ->
  cooled_down E (state_of (monitoring_loop E n s)) = true /\
  (sensor_reads E (state_of (monitoring_loop E n s)) true ->
   In (EvPrint MsgMotionDetected)
      (trace_of (loop_iteration E (state_of (monitoring_loop E n s))))).
Proof.
  intros Hlt Hcool.
  assert (Hinv : cooled_down E (state_of (monitoring_loop E n s)) = true).
  { apply (monitoring_loop_invariant E
             (fun s0 => cooled_down E s0 = true) (fun _ => True));
      [| exact Hcool].
    intros s0 Hs0. split; [| apply List.Forall_forall; auto].
    pose proof (loop_iteration_more E s0) as H. unfold wp in H.
    destruct H as (_ & _ & H & _). apply H; assumption. }
  split; [exact Hinv |].
  intros Hread. apply accepted_pass_reports; assumption.
Qed.

Lemma cooldown_never_rejects_witness :
  cooled_down (deployment None motion)
    (state_of (monitoring_loop (deployment None motion) 3 (ready 1000 0))) = true /\
  (sensor_reads (deployment None motion)
     (state_of (monitoring_loop (deployment None motion) 3 (ready 1000 0))) true ->
   In (EvPrint MsgMotionDetected)
      (trace_of (loop_iteration (deployment None motion)
         (state_of (monitoring_loop (deployment None motion) 3 (ready 1000 0)))))).
Proof.
  apply (cooldown_never_rejects_when_the_hold_is_longer
           (deployment None motion) 3 (ready 1000 0)).
  - vm_compute. reflexivity.
  - vm_compute. reflexivity.
Defined.

(** X15: if driving the LED line low never fails, a response never leaves
    the LED lit: with the lines acquired and the LED off when the loop is
    entered, the LED is off after any number of passes, that is at the start
    of every pass and when a signal ends the loop, also when the signal
    arrives during the hold. *)
Theorem led_is_off_between_passes (E : Env) (n : nat) (s : State) :
  led_off_never_fails E ->
  gpio_initialized s = true ->
  led s = false ->
  led (state_of (monitoring_loop E n s)) = false.
Proof.
  intros Hok Hg Hl.
  apply (monitoring_loop_invariant E
           (fun s0 => gpio_initialized s0 = true /\ led s0 = false)
           (fun _ => True));
    [| split; assumption].
  intros s0 [Hg0 Hl0]. split; [| apply List.Forall_forall; auto].
  pose proof (loop_iteration_more E s0) as H. unfold wp in H.
  destruct H as (_ & Hg1 & _ & Hl1).
  split; [congruence | apply Hl1; assumption].
Qed.

Lemma led_is_off_between_passes_witness :
  led (state_of (monitoring_loop (deployment None motion) 3 (ready 1000 0)))
  = false.
Proof.
  apply (led_is_off_between_passes (deployment None motion) 3 (ready 1000 0)).
  - intros k. reflexivity.
  - reflexivity.
  - reflexivity.
Defined.

(** ** The sensor is read only on acquired lines *)








